(** * convertToFlac: the cue-sheet model and the split/tag pipeline

    A shallow embedding of [convertToFlac.py].  A Python [str] is a Rocq
    [string] whose characters are the code points U+0000..U+00FF; a Python
    exception is a value of [exn] carried by [result].  Code that talks to
    the file system or runs an external program threads a [World]. *)

From Stdlib Require Import String Ascii List Bool Arith Lia ZArith DecimalString.
From Stdlib Require Import Permutation Sorted.
Import ListNotations.
Local Open Scope list_scope.
Local Open Scope string_scope.

(** ** Exceptions *)

Inductive exn : Type :=
| IndexError
| ValueError (msg : string)
| IOError (msg : string)
| AttributeError (msg : string)
| TypeError
| RuntimeError (msg : string)
| RecursionError
| UnboundLocalError (name : string)
| FileNotFoundError (path : string)
| LookupError (msg : string)
| UnicodeError (msg : string)
| UnicodeEncodeError (msg : string).

Inductive result (A : Type) : Type :=
| Ok (a : A)
| Raise (e : exn).
Arguments Ok {A} a.
Arguments Raise {A} e.

Definition rbind {A B} (r : result A) (k : A -> result B) : result B :=
  match r with
  | Ok a => k a
  | Raise e => Raise e
  end.

Declare Scope result_scope.
Delimit Scope result_scope with result.
Notation "x <- r ;; k" := (rbind r (fun x => k))
  (at level 61, r at next level, right associativity) : result_scope.

(** ** The Python builtins the program uses *)

Module Py.

Definition LF : ascii := ascii_of_nat 10.
Definition CR : ascii := ascii_of_nat 13.
Definition TAB : ascii := ascii_of_nat 9.
Definition dquote : ascii := ascii_of_nat 34.
Definition squote : ascii := ascii_of_nat 39.
Definition backslash : ascii := ascii_of_nat 92.

Definition chr (c : ascii) : string := String c EmptyString.

(** [os.name] decides [os.linesep]. *)
Inductive os_name : Type := posix | nt.

Definition linesep (o : os_name) : string :=
  match o with
  | posix => chr LF
  | nt => String CR (chr LF)
  end.

(** [str.isspace] on one character, for code points below 256. *)
Definition isspace (c : ascii) : bool :=
  let n := nat_of_ascii c in
  (((9 <=? n) && (n <=? 13)) || ((28 <=? n) && (n <=? 32))
   || (n =? 133) || (n =? 160))%nat.

Fixpoint lstrip (s : string) : string :=
  match s with
  | EmptyString => EmptyString
  | String c r => if isspace c then lstrip r else s
  end.

(** [rstrip] keeps a character when it is not a space or when something
    that is kept follows it. *)
Fixpoint rstrip (s : string) : string :=
  match s with
  | EmptyString => EmptyString
  | String c r =>
      match rstrip r with
      | EmptyString => if isspace c then EmptyString else chr c
      | r' => String c r'
      end
  end.

Definition strip (s : string) : string := rstrip (lstrip s).

Definition startswith (s p : string) : bool := String.prefix p s.

(** [s.replace(old, new)] for a non-empty [old]: leftmost occurrences,
    not overlapping.  [skip] counts the characters of a matched [old]
    still to be dropped. *)
Fixpoint replace_from (old new : string) (skip : nat) (s : string) : string :=
  match s with
  | EmptyString => EmptyString
  | String c r =>
      match skip with
      | S k => replace_from old new k r
      | O =>
          if String.prefix old s
          then new ++ replace_from old new (String.length old - 1) r
          else String c (replace_from old new 0 r)
      end
  end.

Definition replace (s old new : string) : string := replace_from old new 0 s.

(** [s.split(sep)] for a one-character separator; never the empty list. *)
Fixpoint split (s : string) (sep : ascii) : list string :=
  match s with
  | EmptyString => [EmptyString]
  | String c r =>
      if Ascii.eqb c sep then EmptyString :: split r sep
      else match split r sep with
           | [] => [chr c]
           | x :: xs => String c x :: xs
           end
  end.

(** [sep.join(parts)]. *)
Definition join (sep : string) (parts : list string) : string :=
  String.concat sep parts.

(** [l[-1] = l[-1] + suffix].  [split] never returns the empty list, the
    only list on which the assignment raises. *)
Fixpoint append_to_last (l : list string) (suffix : string) : list string :=
  match l with
  | [] => []
  | [x] => [x ++ suffix]
  | x :: xs => x :: append_to_last xs suffix
  end.

(** The line boundaries of [str.splitlines] below U+0100. *)
Definition is_linebreak (c : ascii) : bool :=
  let n := nat_of_ascii c in
  (((10 <=? n) && (n <=? 13)) || ((28 <=? n) && (n <=? 30))
   || (n =? 133))%nat.

(** [splitlines_from cur s]: [cur] is the line read so far, reversed. *)
Fixpoint splitlines_from (cur : list ascii) (s : string) : list string :=
  match s with
  | EmptyString =>
      match cur with
      | [] => []
      | _ => [string_of_list_ascii (rev cur)]
      end
  | String c r =>
      if is_linebreak c then
        string_of_list_ascii (rev cur) ::
          (if Ascii.eqb c CR then
             match r with
             | String d r' =>
                 if Ascii.eqb d LF
                 then splitlines_from [] r'
                 else splitlines_from [] r
             | EmptyString => splitlines_from [] r
             end
           else splitlines_from [] r)
      else splitlines_from (c :: cur) r
  end.

Definition splitlines (s : string) : list string := splitlines_from [] s.

(** [s.encode('utf-8')] for code points below 256, as a byte string. *)
Fixpoint encode_utf8 (s : string) : string :=
  match s with
  | EmptyString => EmptyString
  | String c r =>
      let n := nat_of_ascii c in
      if (n <? 128)%nat then String c (encode_utf8 r)
      else String (ascii_of_nat (192 + n / 64))
             (String (ascii_of_nat (128 + n mod 64)) (encode_utf8 r))
  end.

(** [posixpath.join] of two components. *)
Definition path_join (a b : string) : string :=
  if startswith b "/" then b
  else match a with
       | EmptyString => b
       | _ => if String.prefix "/" (string_of_list_ascii
                                       (rev (list_ascii_of_string a)))
              then a ++ b else a ++ "/" ++ b
       end.

(** [str.lower] for the code points below 256. *)
Definition lower_char (c : ascii) : ascii :=
  let n := nat_of_ascii c in
  if (((65 <=? n) && (n <=? 90))
      || ((192 <=? n) && (n <=? 222) && negb (n =? 215)))%nat
  then ascii_of_nat (n + 32) else c.

Fixpoint lower (s : string) : string :=
  match s with
  | EmptyString => EmptyString
  | String c r => String (lower_char c) (lower r)
  end.

(** [s.rfind(c)] for one character: its last index, or -1. *)
Fixpoint rfind_from (s : string) (c : ascii) (i found : Z) : Z :=
  match s with
  | EmptyString => found
  | String d r => rfind_from r c (i + 1) (if Ascii.eqb d c then i else found)
  end.

Definition rfind (s : string) (c : ascii) : Z := rfind_from s c 0 (-1).

End Py.

(** ** [shlex.split(s)] in its default POSIX mode

    [shlex.split] sets [whitespace_split] and clears [commenters]; the lexer
    then has whitespace [" \t\r\n"], quotes ['] and ["], the escape [\] and
    ["] as the only quote inside which the escape works.  [read_tokens] runs
    [read_token] over the whole input, one character per step, and collects
    the tokens that [list(lex)] yields.  With [whitespace_split] set, a
    character that is no whitespace, escape or quote starts or extends a
    word whether it is a word character or not, so the two branches of
    the lexer are one here. *)

Module Shlex.
Import Py.

Inductive lex_state : Type :=
| in_space                 (* state ' ' *)
| in_word                  (* state 'a' *)
| in_quote (q : ascii)     (* state is the opening quote *)
| in_escape (e : ascii).   (* state is the escape character *)

Definition whitespace (c : ascii) : bool :=
  Ascii.eqb c " " || Ascii.eqb c TAB || Ascii.eqb c CR || Ascii.eqb c LF.

Definition quotes (c : ascii) : bool :=
  Ascii.eqb c squote || Ascii.eqb c dquote.

Definition escape (c : ascii) : bool := Ascii.eqb c backslash.

Definition escapedquotes (c : ascii) : bool := Ascii.eqb c dquote.

Definition is_quote_state (s : lex_state) : bool :=
  match s with
  | in_quote _ => true
  | _ => false
  end.

Definition state_is (s : lex_state) (c : ascii) : bool :=
  match s with
  | in_quote q => Ascii.eqb q c
  | _ => false
  end.

Definition nonempty (s : string) : bool :=
  match s with
  | EmptyString => false
  | _ => true
  end.

(** What [read_token] returns at the end of its loop: [None] stands for
    the end-of-input token, which stops the iteration. *)
Definition finish_token (token : string) (quoted : bool) : option string :=
  if negb quoted && negb (nonempty token) then None else Some token.

Fixpoint read_tokens (state escapedstate : lex_state) (quoted : bool)
    (token : string) (input : string) : result (list string) :=
  match input with
  | EmptyString =>
      match state with
      | in_space | in_word =>
          match finish_token token quoted with
          | None => Ok []
          | Some t => Ok [t]
          end
      | in_quote _ => Raise (ValueError "No closing quotation")
      | in_escape _ => Raise (ValueError "No escaped character")
      end
  | String nextchar rest =>
      match state with
      | in_space =>
          if whitespace nextchar then
            if nonempty token || quoted then
              match finish_token token quoted with
              | None => Ok []
              | Some t =>
                  rbind (read_tokens in_space in_space false EmptyString rest)
                        (fun ts => Ok (t :: ts))
              end
            else read_tokens in_space escapedstate quoted token rest
          else if escape nextchar then
            read_tokens (in_escape nextchar) in_word quoted token rest
          else if quotes nextchar then
            read_tokens (in_quote nextchar) escapedstate quoted token rest
          else
            read_tokens in_word escapedstate quoted (chr nextchar) rest
      | in_quote q =>
          if Ascii.eqb nextchar q then
            read_tokens in_word escapedstate true token rest
          else if escape nextchar && escapedquotes q then
            read_tokens (in_escape nextchar) (in_quote q) true token rest
          else
            read_tokens (in_quote q) escapedstate true
                        (token ++ chr nextchar) rest
      | in_escape e =>
          let token1 :=
            if is_quote_state escapedstate
               && negb (Ascii.eqb nextchar e)
               && negb (state_is escapedstate nextchar)
            then token ++ chr e else token in
          read_tokens escapedstate escapedstate quoted
                      (token1 ++ chr nextchar) rest
      | in_word =>
          if whitespace nextchar then
            if nonempty token || quoted then
              match finish_token token quoted with
              | None => Ok []
              | Some t =>
                  rbind (read_tokens in_space in_space false EmptyString rest)
                        (fun ts => Ok (t :: ts))
              end
            else read_tokens in_space escapedstate quoted token rest
          else if quotes nextchar then
            read_tokens (in_quote nextchar) escapedstate quoted token rest
          else if escape nextchar then
            read_tokens (in_escape nextchar) in_word quoted token rest
          else
            read_tokens in_word escapedstate quoted
                        (token ++ chr nextchar) rest
      end
  end.

Definition split (s : string) : result (list string) :=
  read_tokens in_space in_space false EmptyString s.

(** [l[i]] on a Python list, for an index that is not negative. *)
Definition item {A} (l : list A) (i : nat) : result A :=
  match nth_error l i with
  | Some x => Ok x
  | None => Raise IndexError
  end.

End Shlex.

(** ** The three regular expressions of the program *)

Module Re.
Import Py.

(** The greedy any-character group followed by [$], at the current
    position: the dot matches anything but a line feed, and [$] matches
    at the end or before a final line feed.  The result is the group. *)
Fixpoint dot_star_eol (s : string) : option string :=
  match s with
  | EmptyString => Some EmptyString
  | String c r =>
      if Ascii.eqb c LF then
        match r with
        | EmptyString => Some EmptyString
        | _ => None
        end
      else option_map (String c) (dot_star_eol r)
  end.

Fixpoint drop (n : nat) (s : string) : string :=
  match n, s with
  | O, _ => s
  | S k, EmptyString => EmptyString
  | S k, String _ r => drop k r
  end.

(** [re.match(pattern, line).group(1)] where the pattern is [^], a
    keyword of ordinary characters, the any-character group and [$]. *)
Definition match_keyword (keyword line : string) : option string :=
  if String.prefix keyword line
  then dot_star_eol (drop (String.length keyword) line)
  else None.

Fixpoint skip_blanks (s : string) : string :=
  match s with
  | String c r =>
      if Ascii.eqb c " " || Ascii.eqb c TAB then skip_blanks r else s
  | EmptyString => EmptyString
  end.

(** [group(2)] of the title pattern of [CueDisc]: an optional greedy run
    of spaces and tabs, then [TITLE ], the any-character group and [$].
    [T] is no blank, so all leading blanks go to the optional run. *)
Definition match_indented_title (line : string) : option string :=
  match_keyword "TITLE " (skip_blanks line).

End Re.

(** ** The sheet model: [CueDisc] and [CueAlbum] *)

Record CueDisc : Type := mkCueDisc {
  titles_tags : list string;
  cue_context : list string;
  music_file_name : option string
}.

Record CueAlbum : Type := mkCueAlbum {
  album_tag : option string;
  artist_tag : option string;
  year_tag : option string;
  cue_disks : list CueDisc;
  header : list string
}.

(** [CueDisc()] and [CueAlbum()]. *)
Definition new_CueDisc : CueDisc := mkCueDisc [] [] None.
Definition new_CueAlbum : CueAlbum := mkCueAlbum None None None [] [].

Local Open Scope result_scope.

(** [shlex.split(s)[0]]: the first token, quotes removed. *)
Definition first_token (s : string) : result string :=
  ts <- Shlex.split s ;; Shlex.item ts 0.

Definition _populate_title_tag (d : CueDisc) (line : string) : result CueDisc :=
  match Re.match_indented_title line with
  | Some g =>
      t <- first_token g ;;
      Ok (mkCueDisc (titles_tags d ++ [t])%list (cue_context d)
                    (music_file_name d))
  | None => Ok d
  end.

Definition append_to_cue_context (d : CueDisc) (line : string) : result CueDisc :=
  _populate_title_tag
    (mkCueDisc (titles_tags d) (cue_context d ++ [line])%list
               (music_file_name d))
    line.

Definition append_cue_disc (a : CueAlbum) (cue_disc : CueDisc) : CueAlbum :=
  mkCueAlbum (album_tag a) (artist_tag a) (year_tag a)
             (cue_disks a ++ [cue_disc])%list (header a).

Definition _populate_album_tag (a : CueAlbum) (line : string) : result CueAlbum :=
  match Re.match_keyword "TITLE " line with
  | Some g =>
      t <- first_token g ;;
      Ok (mkCueAlbum (Some t) (artist_tag a) (year_tag a)
                     (cue_disks a) (header a))
  | None => Ok a
  end.

Definition _populate_artist_tag (a : CueAlbum) (line : string) : result CueAlbum :=
  match Re.match_keyword "PERFORMER " line with
  | Some g =>
      t <- first_token g ;;
      Ok (mkCueAlbum (album_tag a) (Some t) (year_tag a)
                     (cue_disks a) (header a))
  | None => Ok a
  end.

Definition _populate_year_tag (a : CueAlbum) (line : string) : result CueAlbum :=
  match Re.match_keyword "REM DATE " line with
  | Some g =>
      t <- first_token g ;;
      Ok (mkCueAlbum (album_tag a) (artist_tag a) (Some t)
                     (cue_disks a) (header a))
  | None => Ok a
  end.

Definition append_line_to_header (a : CueAlbum) (line : string) : result CueAlbum :=
  let a0 := mkCueAlbum (album_tag a) (artist_tag a) (year_tag a)
                       (cue_disks a) (header a ++ [line])%list in
  a1 <- _populate_album_tag a0 line ;;
  a2 <- _populate_artist_tag a1 line ;;
  _populate_year_tag a2 line.

Definition get_disc (a : CueAlbum) (id : nat) : result CueDisc :=
  Shlex.item (cue_disks a) id.

Definition get_last_disc (a : CueAlbum) : result CueDisc :=
  match rev (cue_disks a) with
  | [] => Raise (RuntimeError "No cue discs added yet")
  | d :: _ => Ok d
  end.

(** The discs are shared objects: what the parser does to the disc that
    [get_last_disc] returned is seen in the album's list. *)
Definition set_last_disc (a : CueAlbum) (d : CueDisc) : CueAlbum :=
  mkCueAlbum (album_tag a) (artist_tag a) (year_tag a)
             (removelast (cue_disks a) ++ [d])%list (header a).

(** ** [CueConverter]: the parser *)

Definition fix_time_format (o : Py.os_name) (line : string) : string :=
  if Py.startswith (Py.strip line) "INDEX " then
    let line_as_list :=
      Py.split (Py.replace line (Py.linesep o) EmptyString) ":" in
    Py.join ":" (Py.append_to_last line_as_list ("0" ++ Py.linesep o))
  else line.

(** One turn of the loop of [parse_cue_file]. *)
Definition parse_line (o : Py.os_name) (a : CueAlbum) (line : string)
  : result CueAlbum :=
  a1 <- (if Py.startswith line "FILE " then
           let a' := append_cue_disc a new_CueDisc in
           ts <- Shlex.split line ;;
           name <- Shlex.item ts 1 ;;
           d <- get_last_disc a' ;;
           Ok (set_last_disc a'
                 (mkCueDisc (titles_tags d) (cue_context d) (Some name)))
         else Ok a) ;;
  if (0 <? List.length (cue_disks a1))%nat then
    let line' := fix_time_format o line in
    d <- get_last_disc a1 ;;
    d' <- append_to_cue_context d line' ;;
    Ok (set_last_disc a1 d')
  else
    append_line_to_header a1 line.

Fixpoint parse_lines (o : Py.os_name) (a : CueAlbum) (lines : list string)
  : result CueAlbum :=
  match lines with
  | [] => Ok a
  | line :: rest => a' <- parse_line o a line ;; parse_lines o a' rest
  end.

(** [parse_cue_file] on the lines that [readTextFile] returned. *)
Definition parse_cue_file (o : Py.os_name) (lines : list string)
  : result CueAlbum :=
  parse_lines o new_CueAlbum lines.

(** ** The world outside the program

    The temporary files and directories that exist, what the directories
    hold, and the trace of what the program asked of the operating system.
    What the program cannot decide itself comes from [Env]: the command
    line, the codecs and what they raise, the names the [tempfile] module
    picks, whether a temporary sheet can be written, and what the splitter
    leaves behind.  The external programs are installed and [mkdtemp]
    succeeds. *)

Inductive event : Type :=
| Decode (text_file encoding : string)
| WriteFile (path content : string)
| Remove (path : string)
| Mkdtemp (path : string)
| Rmtree (path : string)
| Exec (cmd : list string)
| Makedirs (path : string)
| Move (src dst : string).

(** A directory entry: its name and its modification time, a number of
    clock ticks. *)
Definition dirent : Type := (string * Z)%type.

Record World : Type := mkWorld {
  files : list string;
  dirs : list (string * list dirent);
  trace : list event;
  fresh : nat
}.

Record Env : Type := mkEnv {
  os_name : Py.os_name;
  args_debug : bool;
  args_fallback_cue_encoding : option string;
  recursionlimit : nat;
  read_decoded : string -> string -> option string;
  temp_cue_name : nat -> string;
  temp_dir_name : nat -> string;
  shnsplit : list string -> bool * list dirent;
  isfile : string -> bool;
  exists_ : string -> bool;
  decode_fault : string -> string -> option exn;
  write_fault : nat -> option exn;
  temp_cue_repr : nat -> string
}.

Definition M (A : Type) : Type := World -> result A * World.

Definition ret {A} (a : A) : M A := fun w => (Ok a, w).

Definition raise {A} (e : exn) : M A := fun w => (Raise e, w).

Definition bind {A B} (m : M A) (k : A -> M B) : M B :=
  fun w =>
    match m w with
    | (Ok a, w') => k a w'
    | (Raise e, w') => (Raise e, w')
    end.

Definition lift {A} (r : result A) : M A := fun w => (r, w).

Definition log (e : event) : M unit :=
  fun w => (Ok tt, mkWorld (files w) (dirs w) (trace w ++ [e])%list (fresh w)).

Declare Scope io_scope.
Delimit Scope io_scope with io.
Notation "x <~ m ;; k" := (bind m (fun x => k))
  (at level 61, m at next level, right associativity) : io_scope.
Notation "m ;;; k" := (bind m (fun _ => k))
  (at level 61, right associativity) : io_scope.
Local Open Scope io_scope.

Fixpoint lookup_dir (ds : list (string * list dirent)) (d : string)
  : option (list dirent) :=
  match ds with
  | [] => None
  | (d', l) :: rest => if String.eqb d' d then Some l else lookup_dir rest d
  end.

Fixpoint remove_dir (ds : list (string * list dirent)) (d : string)
  : list (string * list dirent) :=
  match ds with
  | [] => []
  | (d', l) :: rest =>
      if String.eqb d' d then remove_dir rest d else (d', l) :: remove_dir rest d
  end.

Definition set_dir (d : string) (l : list dirent) : M unit :=
  fun w => (Ok tt, mkWorld (files w) ((d, l) :: remove_dir (dirs w) d)
                           (trace w) (fresh w)).

Definition str (n : nat) : string :=
  DecimalString.NilEmpty.string_of_uint (Nat.to_uint n).

(** [os.remove] of a temporary sheet. *)
Definition os_remove (path : string) : M unit :=
  fun w =>
    if existsb (String.eqb path) (files w) then
      (Ok tt, mkWorld (filter (fun f => negb (String.eqb path f)) (files w))
                      (dirs w) (trace w ++ [Remove path])%list (fresh w))
    else (Raise (FileNotFoundError path), w).

Fixpoint ends_with_sep (s : string) : bool :=
  match s with
  | EmptyString => false
  | String c EmptyString => Ascii.eqb c "/"
  | String _ r => ends_with_sep r
  end.

(** [d] is the directory [path] or lies in it: its name begins with
    [path] and a separator. *)
Definition under (path d : string) : bool :=
  String.eqb d path
  || String.prefix (if ends_with_sep path then path else path ++ "/") d.

Definition remove_tree (ds : list (string * list dirent)) (path : string)
  : list (string * list dirent) :=
  filter (fun x => negb (under path (fst x))) ds.

(** [shutil.rmtree]: the directory goes with everything in it.  The
    temporary sheets are made in the directory of the system for temporary
    files, which is none of the directories removed here. *)
Definition rmtree (path : string) : M unit :=
  fun w =>
    match lookup_dir (dirs w) path with
    | Some _ =>
        (Ok tt, mkWorld (files w) (remove_tree (dirs w) path)
                        (trace w ++ [Rmtree path])%list (fresh w))
    | None => (Raise (FileNotFoundError path), w)
    end.

(** [tempfile.mkdtemp(dir=src_dir, prefix=TMP_DIR_PREFIX)]. *)
Definition mkdtemp (env : Env) (src_dir : string) : M string :=
  fun w =>
    let d := Py.path_join src_dir ("cueconvert_" ++ temp_dir_name env (fresh w)) in
    (Ok d, mkWorld (files w) ((d, []) :: remove_dir (dirs w) d)
                   (trace w ++ [Mkdtemp d])%list (S (fresh w))).

(** ** [glob.glob] for the two patterns of the program, case-sensitive *)

Definition ishidden (name : string) : bool := String.prefix "." name.

Fixpoint endswith (s suffix : string) : bool :=
  String.eqb s suffix ||
  match s with
  | EmptyString => false
  | String _ r => endswith r suffix
  end.

Fixpoint contains_dot (s : string) : bool :=
  match s with
  | EmptyString => false
  | String c r => Ascii.eqb c "." || contains_dot r
  end.

(** [*pregap.flac]; [glob] leaves out the hidden entries for a pattern
    that does not begin with a dot. *)
Definition is_pregap (e : dirent) : bool :=
  negb (ishidden (fst e)) && endswith (fst e) "pregap.flac".

(** [*.*] *)
Definition is_star_dot_star (e : dirent) : bool :=
  negb (ishidden (fst e)) && contains_dot (fst e).

(** What [glob] reads: the entries of the directory, none for a missing
    one. *)
Definition listing (d : string) : M (list dirent) :=
  fun w =>
    match lookup_dir (dirs w) d with
    | Some l => (Ok l, w)
    | None => (Ok [], w)
    end.

(** [os.listdir]: every entry, and an error for a missing directory. *)
Definition listdir (d : string) : M (list dirent) :=
  fun w =>
    match lookup_dir (dirs w) d with
    | Some l => (Ok l, w)
    | None => (Raise (FileNotFoundError d), w)
    end.

(** [files.sort(key=os.path.getmtime)]: a stable sort. *)
Fixpoint insert_by_mtime (e : dirent) (l : list dirent) : list dirent :=
  match l with
  | [] => [e]
  | e' :: rest =>
      if (snd e <=? snd e')%Z then e :: l else e' :: insert_by_mtime e rest
  end.

Fixpoint sort_by_mtime (l : list dirent) : list dirent :=
  match l with
  | [] => []
  | e :: rest => insert_by_mtime e (sort_by_mtime rest)
  end.

(** ** [os.path] on a POSIX system *)

Module Path.

(** The slices [p[:i]] and [p[i:]] for an index that is not negative. *)
Definition upto (p : string) (i : Z) : string :=
  String.substring 0 (Z.to_nat i) p.

Definition from (p : string) (i : Z) : string :=
  String.substring (Z.to_nat i) (String.length p - Z.to_nat i) p.

Fixpoint all_dots (s : string) : bool :=
  match s with
  | EmptyString => true
  | String c r => Ascii.eqb c "." && all_dots r
  end.

(** [splitext]: the extension starts at the last dot of the last
    component, unless that component has dots only before it. *)
Definition splitext (p : string) : string * string :=
  let sepIndex := Py.rfind p "/" in
  let dotIndex := Py.rfind p "." in
  if (sepIndex <? dotIndex)%Z
     && negb (all_dots (String.substring (Z.to_nat (sepIndex + 1))
                          (Z.to_nat (dotIndex - (sepIndex + 1))) p))
  then (upto p dotIndex, from p dotIndex)
  else (p, EmptyString).

Fixpoint all_seps (s : string) : bool :=
  match s with
  | EmptyString => true
  | String c r => Ascii.eqb c "/" && all_seps r
  end.

(** [s.rstrip('/')] *)
Fixpoint rstrip_sep (s : string) : string :=
  match s with
  | EmptyString => EmptyString
  | String c r =>
      match rstrip_sep r with
      | EmptyString => if Ascii.eqb c "/" then EmptyString else Py.chr c
      | r' => String c r'
      end
  end.

Definition dirname (p : string) : string :=
  let head := upto p (Py.rfind p "/" + 1) in
  match head with
  | EmptyString => head
  | _ => if all_seps head then head else rstrip_sep head
  end.

Definition basename (p : string) : string := from p (Py.rfind p "/" + 1).

Definition isabs (p : string) : bool := Py.startswith p "/".

End Path.

(** ** [files_dict]

    A dictionary from extensions to paths; the keys are kept in the order
    of their first insertion. *)

Definition dict : Type := list (string * list string).

Fixpoint dict_get (d : dict) (k : string) : option (list string) :=
  match d with
  | [] => None
  | (k', l) :: rest => if String.eqb k' k then Some l else dict_get rest k
  end.

(** [d[k].append(v)] for a key of [d], [d[k] = [v]] for a new one. *)
Fixpoint dict_add (d : dict) (k v : string) : dict :=
  match d with
  | [] => [(k, [v])]
  | (k', l) :: rest =>
      if String.eqb k' k then (k', (l ++ [v])%list) :: rest
      else (k', l) :: dict_add rest k v
  end.

(** [d[k]]; the program indexes with a key it has tested for. *)
Definition dict_index (d : dict) (k : string) : list string :=
  match dict_get d k with
  | Some l => l
  | None => []
  end.

(** ** [FileUtils] *)

Module FileUtils.

Definition fallback_failed (text_file encoding : string) : exn :=
  IOError ("Failed to read file " ++ text_file ++ " with fallback encoding "
           ++ encoding ++ ". " ++ Py.chr Py.LF
           ++ "This cue is unsupported or has wrong format").

Definition no_fallback (text_file : string) : exn :=
  IOError ("Failed to read file " ++ text_file ++ " as unicode. "
           ++ Py.chr Py.LF
           ++ "Please specify fallback encoding using --fallback_cue_encoding").

(** [not args.fallback_cue_encoding]: unset, or set to the empty string. *)
Definition fallback_of (env : Env) : option string :=
  match args_fallback_cue_encoding env with
  | Some EmptyString => None
  | o => o
  end.

(** What [codecs.open] or [f.read()] raises that is no
    [UnicodeDecodeError], and so passes the handler: [LookupError] for an
    encoding that does not exist, [UnicodeError] for UTF-16 text without
    its mark.  The codec [utf-8] exists and its decoder raises nothing but
    [UnicodeDecodeError]; the sheet itself can be opened and read. *)
Definition other_failure (env : Env) (text_file encoding : string)
  : option exn :=
  if String.eqb encoding "utf-8" then None
  else decode_fault env text_file encoding.

(** [depth] is the number of frames the interpreter still allows; the
    function calls itself in its exception handler.  [read_decoded] gives
    the text, or nothing for a [UnicodeDecodeError]. *)
Fixpoint readTextFile (env : Env) (depth : nat) (text_file encoding : string)
  : M (list string) :=
  match depth with
  | O => raise RecursionError
  | S depth' =>
      log (Decode text_file encoding) ;;;
      match other_failure env text_file encoding with
      | Some e => raise e
      | None =>
          match read_decoded env text_file encoding with
          | Some text => ret (Py.splitlines text)
          | None =>
              if negb (String.eqb encoding "utf-8") then
                raise (fallback_failed text_file encoding)
              else
                match fallback_of env with
                | None => raise (no_fallback text_file)
                | Some fallback => readTextFile env depth' text_file fallback
                end
          end
      end
  end.

Definition made (d : string) (e : event) : bool :=
  match e with
  | Makedirs d' => String.eqb d d'
  | _ => false
  end.

Definition path_exists (env : Env) (d : string) : M bool :=
  fun w => (Ok (exists_ env d || existsb (made d) (trace w)), w).

Fixpoint move_all (src_dir dest_dir : string) (names : list dirent) : M unit :=
  match names with
  | [] => ret tt
  | e :: rest =>
      log (Move (Py.path_join src_dir (fst e)) (Py.path_join dest_dir (fst e))) ;;;
      move_all src_dir dest_dir rest
  end.

Definition move_to_newdir (env : Env) (src_dir dest_dir : string) : M unit :=
  ex <~ path_exists env dest_dir ;;
  if ex && isfile env dest_dir then
    raise (AttributeError
             ("Could not create destination directory " ++ dest_dir
              ++ ".There is file exists with similar name"))
  else
    (if negb ex then log (Makedirs dest_dir) else ret tt) ;;;
    names <~ listdir src_dir ;;
    move_all src_dir dest_dir names ;;;
    set_dir src_dir [].

(** [os.path.splitext(full_file_name)[1].lower()[1:]] *)
Definition file_ext (full_file_name : string) : string :=
  match Py.lower (snd (Path.splitext full_file_name)) with
  | EmptyString => EmptyString
  | String _ r => r
  end.

(** [depth] is the number of frames the interpreter still allows. *)
Fixpoint scan_directory_rec (env : Env) (depth : nat) (src_dir : string)
    (files_dict : dict) (recursive : bool) : M dict :=
  match depth with
  | O => raise RecursionError
  | S depth' =>
      names <~ listdir src_dir ;;
      (fix loop (names : list dirent) (files_dict : dict) : M dict :=
         match names with
         | [] => ret files_dict
         | f :: rest =>
             let full_file_name := Py.path_join src_dir (fst f) in
             if isfile env full_file_name then
               loop rest (dict_add files_dict (file_ext full_file_name)
                                   full_file_name)
             else if recursive then
               files_dict' <~ scan_directory_rec env depth' full_file_name
                                                 files_dict recursive ;;
               loop rest files_dict'
             else loop rest files_dict
         end) names files_dict
  end.

Definition scan_directory (env : Env) (src_dir : string) (recursive : bool)
  : M dict :=
  scan_directory_rec env (recursionlimit env) src_dir [] recursive.

Definition hasExtension (files_dict : dict) (ext : string) : bool :=
  match dict_get files_dict ext with
  | Some _ => true
  | None => false
  end.

(** [cueconvert_*]: neither the pattern nor a name it matches begins with
    a dot. *)
Definition is_old_dir (e : dirent) : bool :=
  String.prefix "cueconvert_" (fst e).

(** The entry [name] leaves the directory [d]. *)
Definition unlist (d name : string) : M unit :=
  fun w =>
    match lookup_dir (dirs w) d with
    | Some l =>
        set_dir d (filter (fun e => negb (String.eqb (fst e) name)) l) w
    | None => (Ok tt, w)
    end.

(** [shutil.rmtree] of an entry of [src_dir].  For an entry that is no
    directory it raises [NotADirectoryError], an [OSError] as [IOError]
    is. *)
Definition rmtree_entry (src_dir : string) (e : dirent) : M unit :=
  fun w =>
    let old_dir := Py.path_join src_dir (fst e) in
    match lookup_dir (dirs w) old_dir with
    | Some _ => (rmtree old_dir ;;; unlist src_dir (fst e)) w
    | None => (Raise (IOError ("Not a directory: " ++ old_dir)), w)
    end.

Fixpoint rmtree_each (src_dir : string) (old_dirs : list dirent) : M unit :=
  match old_dirs with
  | [] => ret tt
  | e :: rest => rmtree_entry src_dir e ;;; rmtree_each src_dir rest
  end.

Definition clean_up_old_dirs (src_dir : string) : M unit :=
  old_dirs <~ listing src_dir ;;
  rmtree_each src_dir (filter is_old_dir old_dirs).

End FileUtils.

(** ** [CueToFlacTagUtils] *)

Module CueToFlacTagUtils.

(** [if tag:] holds for a string that is not empty; [None] fails it. *)
Definition add_if_present (cmd : list string) (param : string)
    (tag : option string) : list string :=
  match tag with
  | Some (String c r) => (cmd ++ [Py.join "=" [param; String c r]])%list
  | _ => cmd
  end.

(** The command line that [tag_single_file] builds. *)
Definition tag_cmd (flac_file : string) (cue_album : CueAlbum)
    (disc_id track_id : nat) : result (list string) :=
  let cmd := ["metaflac"; "--preserve-modtime"] in
  let cmd := add_if_present cmd "--set-tag=ARTIST" (artist_tag cue_album) in
  let cmd := add_if_present cmd "--set-tag=ALBUM" (album_tag cue_album) in
  rbind (get_disc cue_album disc_id) (fun disc =>
  rbind (Shlex.item (titles_tags disc) track_id) (fun title =>
  let cmd := add_if_present cmd "--set-tag=TITLE" (Some title) in
  let cmd := add_if_present cmd "--set-tag=DATE" (year_tag cue_album) in
  Ok (cmd ++ [flac_file])%list)).

Definition tag_single_file (flac_file : string) (cue_album : CueAlbum)
    (disc_id track_id : nat) : M unit :=
  cmd <~ lift (tag_cmd flac_file cue_album disc_id track_id) ;;
  log (Exec cmd).

(** The loop over [enumerate(files)], from index [track_id] on. *)
Fixpoint tag_each (files : list string) (cue_album : CueAlbum)
    (current_disc_id track_id : nat) : M unit :=
  match files with
  | [] => ret tt
  | file :: rest =>
      tag_single_file file cue_album current_disc_id track_id ;;;
      tag_each rest cue_album current_disc_id (S track_id)
  end.

(** The files of the directory in the order of the tagger. *)
Definition sorted_files (files_dir : string) (l : list dirent) : list string :=
  map (fun e => Py.path_join files_dir (fst e))
      (sort_by_mtime (filter is_star_dot_star l)).

Definition tag_files (files_dir : string) (cue_album : CueAlbum)
    (current_disc_id : nat) : M unit :=
  l <~ listing files_dir ;;
  tag_each (sorted_files files_dir l) cue_album current_disc_id 0.

End CueToFlacTagUtils.

(** ** [CueConverter]: splitting and tagging *)

Module CueConverter.

Definition FIRST_TRACK_START_NUMBER : nat := 1.

(** The bytes that [create_temp_cue_file] writes. *)
Fixpoint temp_cue_bytes (o : Py.os_name) (cue_content_array : list string)
  : string :=
  match cue_content_array with
  | [] => EmptyString
  | line :: rest =>
      Py.encode_utf8 line ++ Py.encode_utf8 (Py.linesep o)
      ++ temp_cue_bytes o rest
  end.

(** The file is made and kept ([delete=False]) before anything is
    written.  [write_fault] is what [encode] or [write] raises, if they
    do: [UnicodeEncodeError] for text that UTF-8 cannot encode, a lone
    surrogate, which the strings of the model do not hold, or the error of
    a full disk; what was written before is not traced.  The message of the
    check for an empty file formats the file object, not its name. *)
Definition create_temp_cue_file (env : Env) (cue_content_array : list string)
  : M string :=
  fun w =>
    let name := temp_cue_name env (fresh w) ++ ".cue" in
    match write_fault env (fresh w) with
    | Some e =>
        (Raise e, mkWorld (name :: files w) (dirs w) (trace w) (S (fresh w)))
    | None =>
        let content := temp_cue_bytes (os_name env) cue_content_array in
        let w' := mkWorld (name :: files w) (dirs w)
                          (trace w ++ [WriteFile name content])%list
                          (S (fresh w)) in
        match content with
        | EmptyString =>
            (Raise (IOError ("Temp cue file " ++ temp_cue_repr env (fresh w)
                             ++ "  is emty")), w')
        | _ => (Ok name, w')
        end
    end.

Definition shnsplit_cmd (cue_file_path music_file_path out_dir : string)
    (first_track_num : nat) : list string :=
  ["shnsplit"; "-f"; cue_file_path;
   "-t"; "%n. %t";
   "-c"; str first_track_num;
   "-d"; out_dir;
   "-o"; "flac";
   "-O"; "always";
   music_file_path].

(** A splitter that exits with an error is logged and nothing is raised:
    either way the output directory holds what the splitter left. *)
Definition split_file_by_cue_sheet (env : Env)
    (cue_file_path music_file_path out_dir : string) (first_track_num : nat)
  : M unit :=
  let cmd := shnsplit_cmd cue_file_path music_file_path out_dir
                          first_track_num in
  log (Exec cmd) ;;;
  set_dir out_dir (snd (shnsplit env cmd)).

Fixpoint remove_each (temp_dir : string) (l : list dirent) : M unit :=
  match l with
  | [] => ret tt
  | e :: rest =>
      log (Remove (Py.path_join temp_dir (fst e))) ;;;
      remove_each temp_dir rest
  end.

Definition remove_pregap_files (temp_dir : string) : M unit :=
  l <~ listing temp_dir ;;
  remove_each temp_dir (filter is_pregap l) ;;;
  set_dir temp_dir (filter (fun e => negb (is_pregap e)) l).

(** The [try] block of [convert] from the splitter on; it returns the new
    running track number. *)
Definition try_body (env : Env) (dest_dir : string) (cue_album : CueAlbum)
    (cue_disc_id : nat) (cue_disc : CueDisc)
    (temp_cue music_file_path temp_dir : string) (first_track_num : nat)
  : M nat :=
  split_file_by_cue_sheet env temp_cue music_file_path temp_dir
                          first_track_num ;;;
  remove_pregap_files temp_dir ;;;
  CueToFlacTagUtils.tag_files temp_dir cue_album cue_disc_id ;;;
  let first_track_num' :=
    first_track_num + List.length (titles_tags cue_disc) in
  FileUtils.move_to_newdir env temp_dir dest_dir ;;;
  ret first_track_num'.

(** The [try] block of [convert].  It returns the new running track number
    and what the local variable [temp_dir] is bound to at its end. *)
Definition try_block (env : Env) (src_dir dest_dir : string)
    (cue_album : CueAlbum) (cue_disc_id : nat) (cue_disc : CueDisc)
    (temp_cue : string) (first_track_num : nat) (temp_dir : option string)
  : World -> result nat * option string * World :=
  fun w =>
    match music_file_name cue_disc with
    | None => (Raise TypeError, temp_dir, w)
    | Some name =>
        let music_file_path := Py.path_join src_dir name in
        match mkdtemp env src_dir w with
        | (Raise e, w1) => (Raise e, temp_dir, w1)
        | (Ok temp_dir', w1) =>
            let (r, w2) :=
              try_body env dest_dir cue_album cue_disc_id cue_disc
                       temp_cue music_file_path temp_dir' first_track_num w1 in
            (r, Some temp_dir', w2)
        end
    end.

(** The [finally] block.  [temp_dir] is a local of [convert]: it is
    unbound until the first [mkdtemp] and keeps its value from one turn
    of the loop to the next. *)
Definition finally_block (env : Env) (temp_cue : string)
    (temp_dir : option string) : M unit :=
  os_remove temp_cue ;;;
  if negb (args_debug env) then
    match temp_dir with
    | Some d => rmtree d
    | None => raise (UnboundLocalError "temp_dir")
    end
  else ret tt.

(** One turn of the loop of [convert]. *)
Definition convert_disc (env : Env) (src_dir dest_dir : string)
    (cue_album : CueAlbum) (cue_disc_id : nat) (cue_disc : CueDisc)
    (first_track_num : nat) (temp_dir : option string)
  : World -> result nat * option string * World :=
  fun w =>
    match create_temp_cue_file env
            (header cue_album ++ cue_context cue_disc)%list w with
    | (Raise e, w1) => (Raise e, temp_dir, w1)
    | (Ok temp_cue, w1) =>
        match try_block env src_dir dest_dir cue_album cue_disc_id cue_disc
                        temp_cue first_track_num temp_dir w1 with
        | (r, temp_dir', w2) =>
            match finally_block env temp_cue temp_dir' w2 with
            | (Raise e, w3) => (Raise e, temp_dir', w3)
            | (Ok _, w3) => (r, temp_dir', w3)
            end
        end
    end.

Fixpoint convert_loop (env : Env) (src_dir dest_dir : string)
    (cue_album : CueAlbum) (discs : list CueDisc) (cue_disc_id : nat)
    (first_track_num : nat) (temp_dir : option string) : M unit :=
  fun w =>
    match discs with
    | [] => (Ok tt, w)
    | cue_disc :: rest =>
        match convert_disc env src_dir dest_dir cue_album cue_disc_id
                           cue_disc first_track_num temp_dir w with
        | (Raise e, _, w') => (Raise e, w')
        | (Ok first_track_num', temp_dir', w') =>
            convert_loop env src_dir dest_dir cue_album rest
                         (S cue_disc_id) first_track_num' temp_dir' w'
        end
    end.

Definition convert (env : Env) (src_dir dest_dir : string)
    (cue_album : CueAlbum) : M unit :=
  convert_loop env src_dir dest_dir cue_album (cue_disks cue_album) 0
               FIRST_TRACK_START_NUMBER None.

(** [CueConverter(cue_file, src_dir, dest_dir).convert()]: the constructor
    parses the sheet, then the discs are converted. *)
Definition run (env : Env) (cue_file src_dir dest_dir : string) : M unit :=
  lines <~ FileUtils.readTextFile env (recursionlimit env) cue_file "utf-8" ;;
  cue_album <~ lift (parse_cue_file (os_name env) lines) ;;
  convert env src_dir dest_dir cue_album.

End CueConverter.

(** ** [Converter] *)

Module Converter.

(** The command line, as far as [Env] does not hold it.  [src_dir] is the
    absolute path that the constructor makes of the argument. *)
Record Args : Type := mkArgs {
  src_dir : string;
  dest_dir : string;
  ignore_cue_files : bool;
  only_top_dir : bool
}.

Definition SUPPORTED_SOURCE_FORMATS : list string :=
  ["m4a"; "wav"; "ape"; "wv"].

Definition get_dest_dir (a : Args) (current_dir : string) : string :=
  if Path.isabs (dest_dir a) then dest_dir a
  else Py.path_join current_dir (dest_dir a).

Definition ffmpeg_cmd (src_file dest_dir : string) : list string :=
  let filename := Path.basename (fst (Path.splitext src_file)) in
  let destFile := Py.path_join dest_dir (filename ++ ".flac") in
  ["ffmpeg"; "-i"; src_file; destFile].

(** The exit status of [ffmpeg] is not looked at. *)
Definition convert_single_file (env : Env) (src_file dest_dir : string)
  : M unit :=
  ex <~ FileUtils.path_exists env dest_dir ;;
  (if negb ex then log (Makedirs dest_dir) else ret tt) ;;;
  log (Exec (ffmpeg_cmd src_file dest_dir)).

Fixpoint convert_sheets (env : Env) (a : Args) (cue_files : list string)
  : M unit :=
  match cue_files with
  | [] => ret tt
  | cue_file :: rest =>
      let src_dir := Path.dirname cue_file in
      CueConverter.run env cue_file src_dir (get_dest_dir a src_dir) ;;;
      convert_sheets env a rest
  end.

Fixpoint convert_files (env : Env) (a : Args) (fs : list string) : M unit :=
  match fs with
  | [] => ret tt
  | file :: rest =>
      convert_single_file env file (get_dest_dir a (Path.dirname file)) ;;;
      convert_files env a rest
  end.

Fixpoint convert_formats (env : Env) (a : Args) (files_dict : dict)
    (exts : list string) : M unit :=
  match exts with
  | [] => ret tt
  | ext :: rest =>
      (if FileUtils.hasExtension files_dict ext
       then convert_files env a (dict_index files_dict ext)
       else ret tt) ;;;
      convert_formats env a files_dict rest
  end.

Definition convert (env : Env) (a : Args) : M unit :=
  (if negb (args_debug env) then FileUtils.clean_up_old_dirs (src_dir a)
   else ret tt) ;;;
  files_dict <~ FileUtils.scan_directory env (src_dir a)
                                         (negb (only_top_dir a)) ;;
  if FileUtils.hasExtension files_dict "cue" && negb (ignore_cue_files a)
  then convert_sheets env a (dict_index files_dict "cue")
  else convert_formats env a files_dict SUPPORTED_SOURCE_FORMATS.

End Converter.

(** * Vocabulary of the statements *)

(** A line as [splitlines] yields it holds no line boundary. *)
Fixpoint terminator_free (s : string) : bool :=
  match s with
  | EmptyString => true
  | String c r => negb (Py.is_linebreak c) && terminator_free r
  end.

(** The test of [fix_time_format]. *)
Definition is_index_line (line : string) : bool :=
  Py.startswith (Py.strip line) "INDEX ".

(** Nothing but spaces and tabs. *)
Fixpoint blank (s : string) : bool :=
  match s with
  | EmptyString => true
  | String c r => (Ascii.eqb c " " || Ascii.eqb c Py.TAB) && blank r
  end.

(** The three tags of the header, their keyword and their field. *)
Inductive header_tag : Type := Album | Artist | Year.

Definition keyword_of (t : header_tag) : string :=
  match t with
  | Album => "TITLE "
  | Artist => "PERFORMER "
  | Year => "REM DATE "
  end.

Definition tag_of (t : header_tag) (a : CueAlbum) : option string :=
  match t with
  | Album => album_tag a
  | Artist => artist_tag a
  | Year => year_tag a
  end.

(** A line that does not open a disc. *)
Definition no_file (line : string) : bool :=
  negb (Py.startswith line "FILE ").

(** What may follow the header: nothing, or lines that begin with a file
    declaration. *)
Definition opens_disc (rest : list string) : bool :=
  match rest with
  | [] => true
  | line :: _ => Py.startswith line "FILE "
  end.

(** The world after more events. *)
Definition add_trace (w : World) (evs : list event) : World :=
  mkWorld (files w) (dirs w) (trace w ++ evs)%list (fresh w).

(** The assignment of one tag as the specification words it: one
    assignment for a value that is present, none for one that is absent or
    empty. *)
Definition set_tag (name : string) (value : option string) : list string :=
  match value with
  | None => []
  | Some EmptyString => []
  | Some v => ["--set-tag=" ++ name ++ "=" ++ v]
  end.

(** The invocation of the tag writer for one file and its title. *)
Definition expected_cmd (cue_album : CueAlbum) (title flac_file : string)
  : list string :=
  (["metaflac"; "--preserve-modtime"]
   ++ set_tag "ARTIST" (artist_tag cue_album)
   ++ set_tag "ALBUM" (album_tag cue_album)
   ++ set_tag "TITLE" (Some title)
   ++ set_tag "DATE" (year_tag cue_album)
   ++ [flac_file])%list.

(** The invocations for the files that have a title, in order. *)
Definition expected_cmds (cue_album : CueAlbum) (fs titles : list string)
  : list (list string) :=
  map (fun p => expected_cmd cue_album (snd p) (fst p)) (combine fs titles).

(** The invocations of the splitter among some events. *)
Definition is_shnsplit (e : event) : option (list string) :=
  match e with
  | Exec (prog :: args) =>
      if String.eqb prog "shnsplit" then Some (prog :: args) else None
  | _ => None
  end.

Fixpoint split_calls (evs : list event) : list (list string) :=
  match evs with
  | [] => []
  | e :: rest =>
      match is_shnsplit e with
      | Some cmd => cmd :: split_calls rest
      | None => split_calls rest
      end
  end.

(** What was traced between two worlds. *)
Definition new_events (w w' : World) : list event :=
  skipn (List.length (trace w)) (trace w').

(** The number of titles of some discs. *)
Fixpoint title_count (discs : list CueDisc) : nat :=
  match discs with
  | [] => 0
  | d :: rest => List.length (titles_tags d) + title_count rest
  end.

(** A computation that does not run the splitter. *)
Definition quiet_op {A} (m : M A) : Prop :=
  forall w, exists evs,
    trace (snd (m w)) = (trace w ++ evs)%list /\ split_calls evs = [].

(** A computation that, when it returns, returns [x]. *)
Definition returns {A} (m : M A) (x : A) : Prop :=
  forall w a w', m w = (Ok a, w') -> a = x.

(** The value of a tag line can be tokenised and has a first token. *)
Definition tag_tokenises (kw line : string) : bool :=
  match Re.match_keyword kw line with
  | None => true
  | Some g =>
      match first_token g with
      | Ok _ => true
      | Raise _ => false
      end
  end.

Definition header_line_ok (line : string) : bool :=
  tag_tokenises "TITLE " line && tag_tokenises "PERFORMER " line
  && tag_tokenises "REM DATE " line.

(** ** Sample data *)

(** The sheet file holds [text] in UTF-8. *)
Definition env_reading (text : string) : Env :=
  mkEnv Py.posix false None 1000
        (fun _ encoding => if String.eqb encoding "utf-8" then Some text else None)
        (fun k => "/tmp/tmp" ++ str k)
        (fun k => str k)
        (fun _ => (true, []))
        (fun _ => false) (fun _ => false)
        (fun _ _ => None) (fun _ => None)
        (fun k => "<tempfile._TemporaryFileWrapper object at 0x" ++ str k ++ ">").

(** The sheet file is not valid UTF-8 and the fallback encoding given on
    the command line is [utf-8]. *)
Definition env_utf8_fallback : Env :=
  mkEnv Py.posix false (Some "utf-8") 1000
        (fun _ _ => None)
        (fun k => "/tmp/tmp" ++ str k)
        (fun k => str k)
        (fun _ => (true, []))
        (fun _ => false) (fun _ => false)
        (fun _ _ => None) (fun _ => None)
        (fun k => "<tempfile._TemporaryFileWrapper object at 0x" ++ str k ++ ">").

(** The sheet file is not valid UTF-8 and the fallback encoding given on
    the command line names no codec. *)
Definition bogus_fallback_env : Env :=
  mkEnv Py.posix false (Some "bogus") 1000
        (fun _ _ => None)
        (fun k => "/tmp/tmp" ++ str k)
        (fun k => str k)
        (fun _ => (true, []))
        (fun _ => false) (fun _ => false)
        (fun _ encoding =>
           if String.eqb encoding "bogus"
           then Some (LookupError "unknown encoding: bogus") else None)
        (fun _ => None)
        (fun k => "<tempfile._TemporaryFileWrapper object at 0x" ++ str k ++ ">").

(** The temporary sheet cannot be written: its text holds what UTF-8
    cannot encode. *)
Definition unwritable_env : Env :=
  mkEnv Py.posix false (Some "unicode_escape") 1000
        (fun _ _ => None)
        (fun k => "/tmp/tmp" ++ str k)
        (fun k => str k)
        (fun _ => (true, []))
        (fun _ => false) (fun _ => false)
        (fun _ _ => None)
        (fun _ => Some (UnicodeEncodeError "surrogates not allowed"))
        (fun k => "<tempfile._TemporaryFileWrapper object at 0x" ++ str k ++ ">").

Definition empty_world : World := mkWorld [] [] [] 0.

(** [k] output files, written one after the other. *)
Definition numbered (k : nat) : list dirent :=
  map (fun i => (str i ++ ".flac", Z.of_nat i)) (seq 1 k).

(** A run where nothing fails: the splitter writes five files when it
    starts at track 1 and seven otherwise. *)
Definition sample_env : Env :=
  mkEnv Py.posix false None 1000
        (fun _ _ => None)
        (fun k => "/tmp/tmp" ++ str k)
        (fun k => str k)
        (fun cmd =>
           match nth_error cmd 6 with
           | Some "1" => (true, numbered 5)
           | _ => (true, numbered 7)
           end)
        (fun _ => false) (fun _ => false)
        (fun _ _ => None) (fun _ => None)
        (fun k => "<tempfile._TemporaryFileWrapper object at 0x" ++ str k ++ ">").

Definition two_disc_album : CueAlbum :=
  mkCueAlbum (Some "B") (Some "A") (Some "2001")
    [mkCueDisc ["a1"; "a2"; "a3"; "a4"; "a5"] ["FILE a.wav WAVE"]
               (Some "a.wav");
     mkCueDisc ["b1"; "b2"; "b3"; "b4"; "b5"; "b6"; "b7"] ["FILE b.wav WAVE"]
               (Some "b.wav")]
    ["TITLE B"].

(** A computation that leaves the temporary sheets alone and removes no
    directory [d]. *)
Definition frame (d : string) {A} (m : M A) : Prop :=
  forall w,
    files (snd (m w)) = files w
    /\ (lookup_dir (dirs w) d <> None ->
        lookup_dir (dirs (snd (m w))) d <> None).

(** A disc as the parser leaves it: it holds a line and names its file. *)
Definition disc_ok (d : CueDisc) : bool :=
  match cue_context d, music_file_name d with
  | _ :: _, Some _ => true
  | _, _ => false
  end.

(** The lines before the first file declaration. *)
Fixpoint header_part (lines : list string) : list string :=
  match lines with
  | [] => []
  | line :: rest =>
      if Py.startswith line "FILE " then [] else line :: header_part rest
  end.

(** The lines up to the next file declaration. *)
Fixpoint until_file (lines : list string) : list string :=
  match lines with
  | [] => []
  | line :: rest =>
      if Py.startswith line "FILE " then [] else line :: until_file rest
  end.

(** The sheet cut at its file declarations: each declaration with the
    lines that follow it up to the next one. *)
Fixpoint segments (lines : list string) : list (list string) :=
  match lines with
  | [] => []
  | line :: rest =>
      if Py.startswith line "FILE "
      then (line :: until_file rest) :: segments rest
      else segments rest
  end.

(** The values of the title lines among some lines of a disc. *)
Fixpoint title_values (context : list string) : list (result string) :=
  match context with
  | [] => []
  | line :: rest =>
      match Re.match_indented_title line with
      | Some g => first_token g :: title_values rest
      | None => title_values rest
      end
  end.

(** A value that can stand between double quotes as it is: no double
    quote and no backslash. *)
Fixpoint plain_quoted (s : string) : bool :=
  match s with
  | EmptyString => true
  | String c r =>
      negb (Ascii.eqb c Py.dquote) && negb (Ascii.eqb c Py.backslash)
      && plain_quoted r
  end.

(** A word: no whitespace, no quote and no backslash. *)
Fixpoint plain_word (s : string) : bool :=
  match s with
  | EmptyString => true
  | String c r =>
      negb (Shlex.whitespace c) && negb (Shlex.quotes c)
      && negb (Shlex.escape c) && plain_word r
  end.

(** No line feed. *)
Fixpoint no_LF (s : string) : bool :=
  match s with
  | EmptyString => true
  | String c r => negb (Ascii.eqb c Py.LF) && no_LF r
  end.

(** [s] between double quotes. *)
Definition dquoted (s : string) : string :=
  String Py.dquote (s ++ Py.chr Py.dquote).

(** Code points below 128 only: text that UTF-8 encodes as itself. *)
Fixpoint is_ascii (s : string) : bool :=
  match s with
  | EmptyString => true
  | String c r => (nat_of_ascii c <? 128)%nat && is_ascii r
  end.

(** What a reader of the temporary sheet gets for a line of the disc. *)
Definition read_back (line : string) : list string :=
  if is_index_line line then [line ++ "0"; EmptyString] else [line].

(** Entries in the order of their modification times. *)
Definition mtime_le (a b : dirent) : Prop := (snd a <= snd b)%Z.

(** The entries with the modification time [t]. *)
Definition with_mtime (t : Z) (l : list dirent) : list dirent :=
  filter (fun e => (snd e =? t)%Z) l.

(** A computation that leaves the temporary sheets and every directory
    but [d] as they are. *)
Definition touches_only (d : string) {A} (m : M A) : Prop :=
  forall w,
    files (snd (m w)) = files w
    /\ forall x, x <> d ->
         lookup_dir (dirs (snd (m w))) x = lookup_dir (dirs w) x.

(** The files a scan comes across, in the order in which it does, or the
    error that ends it. *)
Fixpoint walk (env : Env) (ds : list (string * list dirent)) (depth : nat)
    (src_dir : string) (recursive : bool) : result (list string) :=
  match depth with
  | O => Raise RecursionError
  | S depth' =>
      match lookup_dir ds src_dir with
      | None => Raise (FileNotFoundError src_dir)
      | Some names =>
          (fix loop (names : list dirent) : result (list string) :=
             match names with
             | [] => Ok []
             | f :: rest =>
                 let full := Py.path_join src_dir (fst f) in
                 if isfile env full then
                   rbind (loop rest) (fun fs => Ok (full :: fs))
                 else if recursive then
                   rbind (walk env ds depth' full recursive) (fun below =>
                   rbind (loop rest) (fun fs => Ok (below ++ fs)%list))
                 else loop rest
             end) names
      end
  end.

(** The files below a directory: those it lists, and with [recursive]
    those below the entries it lists that are no files. *)
Inductive below (env : Env) (ds : list (string * list dirent))
    (recursive : bool) : string -> string -> Prop :=
| below_here d names f :
    lookup_dir ds d = Some names -> In f names ->
    isfile env (Py.path_join d (fst f)) = true ->
    below env ds recursive d (Py.path_join d (fst f))
| below_deeper d names f p :
    lookup_dir ds d = Some names -> In f names ->
    isfile env (Py.path_join d (fst f)) = false ->
    recursive = true ->
    below env ds recursive (Py.path_join d (fst f)) p ->
    below env ds recursive d p.

Definition has_ext (k p : string) : bool := String.eqb (FileUtils.file_ext p) k.

(** A key is in the dictionary with the list of its files, which is not
    empty. *)
Definition entry_of (l : list string) : option (list string) :=
  match l with
  | [] => None
  | _ => Some l
  end.

Definition group (fs : list string) (files_dict : dict) : dict :=
  fold_left (fun d p => dict_add d (FileUtils.file_ext p) p) fs files_dict.

Definition named_in (olds : list dirent) (e : dirent) : bool :=
  existsb (fun o => String.eqb (fst e) (fst o)) olds.

(** An invocation of [ffmpeg]. *)
Definition is_ffmpeg (e : event) : bool :=
  match e with
  | Exec (prog :: _) => String.eqb prog "ffmpeg"
  | _ => false
  end.

(** A computation that does not run [ffmpeg]. *)
Definition ffmpeg_free {A} (m : M A) : Prop :=
  forall w, exists evs,
    trace (snd (m w)) = (trace w ++ evs)%list /\ existsb is_ffmpeg evs = false.

(** What [Converter.convert] does before it converts: the sweep, unless
    directories are kept, and the scan. *)
Definition prepare (env : Env) (a : Converter.Args) : M dict :=
  (if negb (args_debug env)
   then FileUtils.clean_up_old_dirs (Converter.src_dir a)
   else ret tt) ;;;
  FileUtils.scan_directory env (Converter.src_dir a)
                           (negb (Converter.only_top_dir a)).

(** The files of the supported formats, format by format. *)
Definition supported_files (files_dict : dict) : list string :=
  flat_map (dict_index files_dict) Converter.SUPPORTED_SOURCE_FORMATS.

(** The invocations of external programs among some events. *)
Fixpoint execs (evs : list event) : list (list string) :=
  match evs with
  | [] => []
  | Exec cmd :: rest => cmd :: execs rest
  | _ :: rest => execs rest
  end.

(** Nothing but new directories and invocations of [ffmpeg]. *)
Definition plain_event (e : event) : bool :=
  match e with
  | Makedirs _ => true
  | _ => is_ffmpeg e
  end.

(** A music directory: a sheet and its audio file, a directory that an
    earlier run left, and a subdirectory with two audio files. *)
Definition music_dirs : list (string * list dirent) :=
  [("/m", [("a.CUE", 1%Z); ("a.wav", 2%Z); ("cueconvert_x1", 3%Z);
           ("sub", 4%Z)]);
   ("/m/cueconvert_x1", [("01.flac", 1%Z)]);
   ("/m/sub", [("b.ape", 1%Z); ("c.Wav", 2%Z)])].

Definition music_files : list string :=
  ["/m/a.CUE"; "/m/a.wav"; "/m/cueconvert_x1/01.flac"; "/m/sub/b.ape";
   "/m/sub/c.Wav"].

(** The sheet is not valid UTF-8 and no fallback encoding is given. *)
Definition music_env (debug : bool) : Env :=
  mkEnv Py.posix debug None 1000
        (fun _ _ => None)
        (fun k => "/tmp/tmp" ++ str k)
        (fun k => str k)
        (fun _ => (true, []))
        (fun p => existsb (String.eqb p) music_files)
        (fun _ => false)
        (fun _ _ => None) (fun _ => None)
        (fun k => "<tempfile._TemporaryFileWrapper object at 0x" ++ str k ++ ">").

Definition music_world : World := mkWorld [] music_dirs [] 0.

(** The same directory with a plain file that bears the prefix of the
    temporary directories. *)
Definition prefixed_file_world : World :=
  mkWorld []
          [("/m", [("a.CUE", 1%Z); ("cueconvert_notes", 2%Z);
                   ("cueconvert_x1", 3%Z)]);
           ("/m/cueconvert_x1", [])]
          [] 0.

(** A file that writing a temporary sheet left. *)
Definition unwritten (env : Env) (x : string) : Prop :=
  exists k, write_fault env k <> None /\ x = temp_cue_name env k ++ ".cue".

(** A name of a directory entry: no separator in it. *)
Fixpoint no_sep (s : string) : bool :=
  match s with
  | EmptyString => true
  | String c r => negb (Ascii.eqb c "/") && no_sep r
  end.

(** A directory with an old temporary directory that holds a directory,
    and with a subdirectory that holds an old temporary directory. *)
Definition stale_world : World :=
  mkWorld []
          [("/m", [("a.CUE", 1%Z); ("cueconvert_x1", 2%Z); ("sub", 3%Z)]);
           ("/m/cueconvert_x1", [("part", 1%Z)]);
           ("/m/cueconvert_x1/part", []);
           ("/m/sub", [("cueconvert_deep", 1%Z)]);
           ("/m/sub/cueconvert_deep", [])]
          [] 0.

(** [x] is one of the directories [olds] of [src_dir] or lies in one. *)
Definition swept (src_dir : string) (olds : list dirent) (x : string) : bool :=
  existsb (fun e => under (Py.path_join src_dir (fst e)) x) olds.

(** * Properties *)

(** ** Strings *)

Lemma append_nil_r (s : string) : s ++ EmptyString = s.
Proof. induction s; simpl; congruence. Qed.

Lemma append_assoc (a b c : string) : (a ++ b) ++ c = a ++ (b ++ c).
Proof. induction a; simpl; congruence. Qed.

Lemma linebreak_LF : Py.is_linebreak Py.LF = true.
Proof. reflexivity. Qed.

Lemma linebreak_CR : Py.is_linebreak Py.CR = true.
Proof. reflexivity. Qed.

Lemma prefix_cons (a b : ascii) (s1 s2 : string) :
  String.prefix (String a s1) (String b s2) = Ascii.eqb a b && String.prefix s1 s2.
Proof.
  change (String.prefix (String a s1) (String b s2))
    with (match ascii_dec a b with
          | left _ => String.prefix s1 s2
          | right _ => false
          end).
  destruct (ascii_dec a b) as [E|E].
  - subst b. rewrite Ascii.eqb_refl. reflexivity.
  - apply Ascii.eqb_neq in E. rewrite E. reflexivity.
Qed.

Lemma prefix_nil (s : string) : String.prefix EmptyString s = true.
Proof. destruct s; reflexivity. Qed.

Lemma prefix_linesep_false (o : Py.os_name) (c : ascii) (r : string) :
  Py.is_linebreak c = false -> String.prefix (Py.linesep o) (String c r) = false.
Proof.
  intros Hc.
  assert (Hlf : Ascii.eqb Py.LF c = false).
  { apply Ascii.eqb_neq. intros E. subst c.
    rewrite linebreak_LF in Hc. discriminate. }
  assert (Hcr : Ascii.eqb Py.CR c = false).
  { apply Ascii.eqb_neq. intros E. subst c.
    rewrite linebreak_CR in Hc. discriminate. }
  destruct o; unfold Py.linesep, Py.chr; rewrite prefix_cons.
  - rewrite Hlf. reflexivity.
  - rewrite Hcr. reflexivity.
Qed.

Lemma replace_linesep_id (o : Py.os_name) (s : string) :
  terminator_free s = true -> Py.replace s (Py.linesep o) EmptyString = s.
Proof.
  unfold Py.replace. induction s as [|c r IH]; intros H; [reflexivity|].
  simpl in H. apply andb_true_iff in H. destruct H as [Hc Hr].
  apply negb_true_iff in Hc.
  cbn [Py.replace_from].
  rewrite (prefix_linesep_false o c r Hc). rewrite (IH Hr). reflexivity.
Qed.

Lemma split_not_nil (s : string) (sep : ascii) : Py.split s sep <> [].
Proof.
  destruct s as [|c r]; simpl; [discriminate|].
  destruct (Ascii.eqb c sep); [discriminate|].
  destruct (Py.split r sep); discriminate.
Qed.

Lemma append_to_last_not_nil (l : list string) (suffix : string) :
  l <> [] -> Py.append_to_last l suffix <> [].
Proof.
  destruct l as [|x [|y ys]]; simpl; intros H; try discriminate.
  contradiction.
Qed.

Lemma join_cons (sep x : string) (l : list string) :
  l <> [] -> Py.join sep (x :: l) = x ++ sep ++ Py.join sep l.
Proof. destruct l; [contradiction|reflexivity]. Qed.

(** Joining what [split] cut gives the string back, and a suffix put on
    the last piece ends up at the end. *)
Lemma join_split_suffix (s suffix : string) :
  Py.join ":" (Py.append_to_last (Py.split s ":") suffix) = s ++ suffix.
Proof.
  induction s as [|c r IH]; [reflexivity|].
  cbn [Py.split].
  pose proof (split_not_nil r ":") as Hne.
  destruct (Ascii.eqb c ":") eqn:Ec.
  - apply Ascii.eqb_eq in Ec. subst c.
    destruct (Py.split r ":") as [|x xs] eqn:Es; [contradiction|].
    change (Py.append_to_last (EmptyString :: x :: xs) suffix)
      with (EmptyString :: Py.append_to_last (x :: xs) suffix).
    rewrite join_cons by (apply append_to_last_not_nil; discriminate).
    rewrite IH. reflexivity.
  - destruct (Py.split r ":") as [|x xs] eqn:Es; [contradiction|].
    destruct xs as [|y ys].
    + simpl in IH. simpl. rewrite IH. reflexivity.
    + change (Py.append_to_last (String c x :: y :: ys) suffix)
        with (String c x :: Py.append_to_last (y :: ys) suffix).
      change (Py.append_to_last (x :: y :: ys) suffix)
        with (x :: Py.append_to_last (y :: ys) suffix) in IH.
      rewrite join_cons in IH by (apply append_to_last_not_nil; discriminate).
      rewrite join_cons by (apply append_to_last_not_nil; discriminate).
      cbn [append] in *. rewrite IH. reflexivity.
Qed.

(** What [fix_time_format] does to an index line. *)
Lemma fix_time_format_index (o : Py.os_name) (line : string) :
  terminator_free line = true -> is_index_line line = true ->
  fix_time_format o line = line ++ "0" ++ Py.linesep o.
Proof.
  intros Htf Hidx. unfold fix_time_format.
  unfold is_index_line in Hidx. rewrite Hidx.
  rewrite replace_linesep_id by assumption.
  apply join_split_suffix.
Qed.

Lemma fix_time_format_other (o : Py.os_name) (line : string) :
  is_index_line line = false -> fix_time_format o line = line.
Proof.
  intros H. unfold fix_time_format. unfold is_index_line in H.
  rewrite H. reflexivity.
Qed.

Lemma encode_utf8_app (a b : string) :
  Py.encode_utf8 (a ++ b) = Py.encode_utf8 a ++ Py.encode_utf8 b.
Proof.
  induction a as [|c r IH]; [reflexivity|].
  cbn [append Py.encode_utf8].
  destruct (nat_of_ascii c <? 128)%nat; cbn [append]; rewrite IH; reflexivity.
Qed.

Lemma encode_utf8_linesep (o : Py.os_name) :
  Py.encode_utf8 (Py.linesep o) = Py.linesep o.
Proof. destruct o; reflexivity. Qed.

Lemma temp_cue_bytes_app (o : Py.os_name) (l1 l2 : list string) :
  CueConverter.temp_cue_bytes o (l1 ++ l2)%list =
  CueConverter.temp_cue_bytes o l1 ++ CueConverter.temp_cue_bytes o l2.
Proof.
  induction l1 as [|x l1 IH]; [reflexivity|].
  cbn [app CueConverter.temp_cue_bytes]. rewrite IH.
  rewrite !append_assoc. reflexivity.
Qed.

Lemma length_append (s t : string) :
  String.length (s ++ t) = String.length s + String.length t.
Proof. induction s as [|c r IH]; simpl; [reflexivity|]. rewrite IH. reflexivity. Qed.

Lemma append_not_self (s t : string) : t <> EmptyString -> s ++ t <> s.
Proof.
  intros Ht E. apply (f_equal String.length) in E.
  rewrite length_append in E.
  destruct t; [contradiction|]. simpl in E. lia.
Qed.

(** ** The time-format correction *)

(** C3 fails as stated: a line that already ends in two frame digits is
    changed. *)
Lemma C3_two_digit_line_changed :
  fix_time_format Py.posix "INDEX 01 00:00:00" <> "INDEX 01 00:00:00".
Proof. vm_compute. discriminate. Qed.

(** C3, amended: the correction maps [INDEX 01 00:00:0] to
    [INDEX 01 00:00:00] followed by the platform line separator, and it
    appends a [0] and the line separator to every index line, also to one
    that already ends in two frame digits, which is therefore changed;
    a line that is no index line is returned as it is. *)
Theorem C3_correction_appends_to_every_index_line (o : Py.os_name) :
  fix_time_format o "INDEX 01 00:00:0" = "INDEX 01 00:00:00" ++ Py.linesep o
  /\ (forall line,
        terminator_free line = true -> is_index_line line = true ->
        fix_time_format o line = line ++ "0" ++ Py.linesep o
        /\ fix_time_format o line <> line)
  /\ (forall line, is_index_line line = false -> fix_time_format o line = line).
Proof.
  split; [destruct o; reflexivity|]. split.
  - intros line Htf Hidx.
    rewrite (fix_time_format_index o line Htf Hidx). split; [reflexivity|].
    apply append_not_self. discriminate.
  - apply fix_time_format_other.
Qed.

Lemma C3_witness :
  fix_time_format Py.posix "INDEX 01 00:00:00"
  = "INDEX 01 00:00:00" ++ "0" ++ Py.linesep Py.posix
  /\ fix_time_format Py.posix "REM x" = "REM x".
Proof.
  destruct (C3_correction_appends_to_every_index_line Py.posix)
    as [_ [Hidx Hother]].
  split.
  - apply (Hidx "INDEX 01 00:00:00"); reflexivity.
  - apply (Hother "REM x"); reflexivity.
Defined.

(** C9: for a line without line boundary whose stripped form starts with
    [INDEX ], the correction returns the line with a [0] and one line
    separator appended; the writer of the temporary sheet adds a line
    separator after every line, so in the sheet a corrected index line is
    followed by two line separators, that is by an empty line, and a line
    that is no index line by one. *)
Theorem C9_corrected_index_line_is_followed_by_empty_line
    (o : Py.os_name) (pre post : list string) (line : string) :
  terminator_free line = true ->
  (is_index_line line = true ->
     fix_time_format o line = line ++ "0" ++ Py.linesep o
     /\ CueConverter.temp_cue_bytes o (pre ++ fix_time_format o line :: post)%list
        = CueConverter.temp_cue_bytes o pre
          ++ (Py.encode_utf8 line ++ "0" ++ Py.linesep o ++ Py.linesep o)
          ++ CueConverter.temp_cue_bytes o post)
  /\ (is_index_line line = false ->
        CueConverter.temp_cue_bytes o (pre ++ fix_time_format o line :: post)%list
        = CueConverter.temp_cue_bytes o pre
          ++ (Py.encode_utf8 line ++ Py.linesep o)
          ++ CueConverter.temp_cue_bytes o post).
Proof.
  intros Htf. split; intros Hidx.
  - rewrite (fix_time_format_index o line Htf Hidx). split; [reflexivity|].
    rewrite temp_cue_bytes_app. cbn [CueConverter.temp_cue_bytes].
    rewrite !encode_utf8_app, !encode_utf8_linesep.
    rewrite !append_assoc. reflexivity.
  - rewrite (fix_time_format_other o line Hidx).
    rewrite temp_cue_bytes_app. cbn [CueConverter.temp_cue_bytes].
    rewrite !encode_utf8_linesep, !append_assoc. reflexivity.
Qed.

Lemma C9_witness :
  CueConverter.temp_cue_bytes Py.posix
    [fix_time_format Py.posix "    INDEX 01 00:02:33"]
  = "    INDEX 01 00:02:330" ++ Py.linesep Py.posix ++ Py.linesep Py.posix.
Proof.
  destruct (C9_corrected_index_line_is_followed_by_empty_line
              Py.posix [] [] "    INDEX 01 00:02:33" eq_refl) as [H _].
  destruct (H eq_refl) as [_ Hb]. simpl app in Hb. rewrite Hb. reflexivity.
Defined.

(** ** Tokens of a blank remainder *)

Lemma blank_cons (c : ascii) (r : string) :
  blank (String c r) = true -> (c = " "%char \/ c = Py.TAB) /\ blank r = true.
Proof.
  cbn [blank]. intros H. apply andb_true_iff in H. destruct H as [Hc Hr].
  split; [|assumption].
  apply orb_true_iff in Hc. destruct Hc as [Hc|Hc]; apply Ascii.eqb_eq in Hc; auto.
Qed.

Lemma read_tokens_blank (ws : string) :
  blank ws = true ->
  Shlex.read_tokens Shlex.in_space Shlex.in_space false EmptyString ws = Ok [].
Proof.
  induction ws as [|c r IH]; intros H; [reflexivity|].
  apply blank_cons in H. destruct H as [[Hc|Hc] Hr]; subst c;
    cbn; apply IH; assumption.
Qed.

Lemma first_token_blank (ws : string) :
  blank ws = true -> first_token ws = Raise IndexError.
Proof.
  intros H. unfold first_token, Shlex.split.
  rewrite (read_tokens_blank ws H). reflexivity.
Qed.

Lemma dot_star_eol_blank (ws : string) :
  blank ws = true -> Re.dot_star_eol ws = Some ws.
Proof.
  induction ws as [|c r IH]; intros H; [reflexivity|].
  apply blank_cons in H. destruct H as [[Hc|Hc] Hr]; subst c;
    cbn; rewrite (IH Hr); reflexivity.
Qed.

Lemma prefix_app (kw s : string) : String.prefix kw (kw ++ s) = true.
Proof.
  induction kw as [|c r IH]; [apply prefix_nil|].
  cbn [append]. rewrite prefix_cons, Ascii.eqb_refl, IH. reflexivity.
Qed.

Lemma drop_length_app (kw s : string) : Re.drop (String.length kw) (kw ++ s) = s.
Proof. induction kw as [|c r IH]; [reflexivity|]. simpl. exact IH. Qed.

Lemma match_keyword_blank (kw ws : string) :
  blank ws = true -> Re.match_keyword kw (kw ++ ws) = Some ws.
Proof.
  intros H. unfold Re.match_keyword.
  rewrite prefix_app, drop_length_app. apply dot_star_eol_blank, H.
Qed.

Lemma skip_blanks_app (indent : string) (c : ascii) (r : string) :
  blank indent = true -> (Ascii.eqb c " " || Ascii.eqb c Py.TAB) = false ->
  Re.skip_blanks (indent ++ String c r) = String c r.
Proof.
  intros Hb Hc. induction indent as [|d i IH].
  - cbn [append Re.skip_blanks]. rewrite Hc. reflexivity.
  - apply blank_cons in Hb. destruct Hb as [[Hd|Hd] Hi]; subst d;
      cbn; apply IH; assumption.
Qed.

Lemma lstrip_blank_app (indent : string) (c : ascii) (r : string) :
  blank indent = true -> Py.isspace c = false ->
  Py.lstrip (indent ++ String c r) = String c r.
Proof.
  intros Hb Hc. induction indent as [|d i IH].
  - cbn [append Py.lstrip]. rewrite Hc. reflexivity.
  - apply blank_cons in Hb. destruct Hb as [[Hd|Hd] Hi]; subst d;
      cbn; apply IH; assumption.
Qed.

Lemma rstrip_cons (c : ascii) (r : string) :
  Py.isspace c = false -> Py.rstrip (String c r) = String c (Py.rstrip r).
Proof.
  intros Hc. cbn [Py.rstrip]. rewrite Hc. destruct (Py.rstrip r); reflexivity.
Qed.

(** An indented title line is no index line and opens no disc. *)
Lemma indented_title_not_index (indent rest : string) :
  blank indent = true -> is_index_line (indent ++ "TITLE " ++ rest) = false.
Proof.
  intros Hb. unfold is_index_line, Py.strip, Py.startswith.
  cbn [append]. rewrite lstrip_blank_app by (assumption || reflexivity).
  rewrite rstrip_cons by reflexivity.
  rewrite prefix_cons. reflexivity.
Qed.

Lemma indented_title_not_file (indent rest : string) :
  blank indent = true ->
  Py.startswith (indent ++ "TITLE " ++ rest) "FILE " = false.
Proof.
  intros Hb. unfold Py.startswith. destruct indent as [|d i].
  - cbn [append]. rewrite prefix_cons. reflexivity.
  - apply blank_cons in Hb. destruct Hb as [[Hd|Hd] _]; subst d;
      cbn [append]; rewrite prefix_cons; reflexivity.
Qed.

Lemma match_indented_title_blank (indent ws : string) :
  blank indent = true -> blank ws = true ->
  Re.match_indented_title (indent ++ "TITLE " ++ ws) = Some ws.
Proof.
  intros Hi Hw. unfold Re.match_indented_title.
  cbn [append]. rewrite skip_blanks_app by (assumption || reflexivity).
  apply (match_keyword_blank "TITLE " ws Hw).
Qed.

(** ** The loop of the parser *)

Lemma parse_lines_app (o : Py.os_name) (a : CueAlbum) (l1 l2 : list string) :
  parse_lines o a (l1 ++ l2)%list =
  rbind (parse_lines o a l1) (fun a' => parse_lines o a' l2).
Proof.
  revert a. induction l1 as [|x l1 IH]; intros a; [reflexivity|].
  cbn [app parse_lines]. destruct (parse_line o a x); cbn [rbind]; auto.
Qed.

Lemma parse_line_header (o : Py.os_name) (a : CueAlbum) (line : string) :
  cue_disks a = [] -> Py.startswith line "FILE " = false ->
  parse_line o a line = append_line_to_header a line.
Proof.
  intros Hd Hf. unfold parse_line. rewrite Hf. cbn [rbind].
  rewrite Hd. reflexivity.
Qed.

Lemma get_last_disc_some (a : CueAlbum) :
  cue_disks a <> [] -> exists d, get_last_disc a = Ok d.
Proof.
  intros Hne. unfold get_last_disc.
  destruct (rev (cue_disks a)) as [|d l] eqn:E.
  - exfalso. apply Hne. rewrite <- (rev_involutive (cue_disks a)), E.
    reflexivity.
  - exists d. reflexivity.
Qed.

Lemma parse_line_disc (o : Py.os_name) (a : CueAlbum) (line : string) :
  cue_disks a <> [] -> Py.startswith line "FILE " = false ->
  exists d, get_last_disc a = Ok d /\
    parse_line o a line =
    rbind (append_to_cue_context d (fix_time_format o line))
          (fun d' => Ok (set_last_disc a d')).
Proof.
  intros Hd Hf. destruct (get_last_disc_some a Hd) as [d Hl].
  exists d. split; [assumption|].
  unfold parse_line. rewrite Hf. cbn [rbind].
  destruct (cue_disks a) as [|x l] eqn:E; [contradiction|].
  cbn [List.length Nat.ltb Nat.leb]. rewrite Hl. reflexivity.
Qed.

Lemma header_keyword_raises (o : Py.os_name) (a : CueAlbum)
    (kw ws : string) (post : list string) :
  (kw = "TITLE " \/ kw = "PERFORMER " \/ kw = "REM DATE ") ->
  blank ws = true -> cue_disks a = [] ->
  parse_lines o a ((kw ++ ws) :: post) = Raise IndexError.
Proof.
  intros Hk Hw Hd. cbn [parse_lines].
  assert (Hf : Py.startswith (kw ++ ws) "FILE " = false).
  { unfold Py.startswith.
    destruct Hk as [-> | [-> | ->]]; cbn [append]; rewrite prefix_cons;
      reflexivity. }
  rewrite (parse_line_header o a _ Hd Hf).
  unfold append_line_to_header.
  destruct Hk as [-> | [-> | ->]].
  - unfold _populate_album_tag.
    rewrite (match_keyword_blank "TITLE " ws Hw).
    rewrite (first_token_blank ws Hw). reflexivity.
  - unfold _populate_album_tag.
    replace (Re.match_keyword "TITLE " ("PERFORMER " ++ ws)) with (@None string)
      by (unfold Re.match_keyword; cbn [append]; rewrite prefix_cons;
          reflexivity).
    cbn [rbind]. unfold _populate_artist_tag.
    rewrite (match_keyword_blank "PERFORMER " ws Hw).
    rewrite (first_token_blank ws Hw). reflexivity.
  - unfold _populate_album_tag.
    replace (Re.match_keyword "TITLE " ("REM DATE " ++ ws)) with (@None string)
      by (unfold Re.match_keyword; cbn [append]; rewrite prefix_cons;
          reflexivity).
    cbn [rbind]. unfold _populate_artist_tag.
    replace (Re.match_keyword "PERFORMER " ("REM DATE " ++ ws))
      with (@None string)
      by (unfold Re.match_keyword; cbn [append]; rewrite prefix_cons;
          reflexivity).
    cbn [rbind]. unfold _populate_year_tag.
    rewrite (match_keyword_blank "REM DATE " ws Hw).
    rewrite (first_token_blank ws Hw). reflexivity.
Qed.

Lemma disc_title_raises (o : Py.os_name) (a : CueAlbum)
    (indent ws : string) (post : list string) :
  blank indent = true -> blank ws = true -> cue_disks a <> [] ->
  parse_lines o a ((indent ++ "TITLE " ++ ws) :: post) = Raise IndexError.
Proof.
  intros Hi Hw Hd. cbn [parse_lines].
  destruct (parse_line_disc o a (indent ++ "TITLE " ++ ws) Hd
              (indented_title_not_file indent ws Hi)) as [d [_ Hp]].
  rewrite Hp.
  rewrite (fix_time_format_other o _ (indented_title_not_index indent ws Hi)).
  unfold append_to_cue_context, _populate_title_tag.
  rewrite (match_indented_title_blank indent ws Hi Hw).
  rewrite (first_token_blank ws Hw). reflexivity.
Qed.

(** C10: the tag extraction is partial at the parse interface.  Wherever
    it stands in the sheet, a header line made of [TITLE ], [PERFORMER ] or
    [REM DATE ] and nothing but blanks, and inside a disc an indented
    [TITLE ] followed by nothing but blanks, matches the pattern with an
    empty token list, and [parse_cue_file] ends with the indexing error. *)
Theorem C10_blank_tag_value_raises_IndexError
    (o : Py.os_name) (pre post : list string) (a : CueAlbum) (ws : string) :
  blank ws = true ->
  parse_cue_file o pre = Ok a ->
  (cue_disks a = [] ->
     forall kw, kw = "TITLE " \/ kw = "PERFORMER " \/ kw = "REM DATE " ->
     parse_cue_file o (pre ++ (kw ++ ws) :: post) = Raise IndexError)
  /\ (cue_disks a <> [] ->
        forall indent, blank indent = true ->
        parse_cue_file o (pre ++ (indent ++ "TITLE " ++ ws) :: post)
        = Raise IndexError).
Proof.
  unfold parse_cue_file. intros Hw Hpre. split.
  - intros Hd kw Hk. rewrite parse_lines_app, Hpre. cbn [rbind].
    apply header_keyword_raises; assumption.
  - intros Hd indent Hi. rewrite parse_lines_app, Hpre. cbn [rbind].
    apply disc_title_raises; assumption.
Qed.

Lemma C10_witness :
  parse_cue_file Py.posix ["TITLE "] = Raise IndexError
  /\ parse_cue_file Py.posix ["FILE a.wav WAVE"; "    TITLE  "] = Raise IndexError.
Proof.
  split.
  - destruct (C10_blank_tag_value_raises_IndexError
                Py.posix [] [] new_CueAlbum EmptyString eq_refl eq_refl)
      as [H _].
    apply (H eq_refl "TITLE "). left. reflexivity.
  - destruct (C10_blank_tag_value_raises_IndexError
                Py.posix ["FILE a.wav WAVE"] []
                (mkCueAlbum None None None
                   [mkCueDisc [] ["FILE a.wav WAVE"] (Some "a.wav")] [])
                " " eq_refl eq_refl) as [_ H].
    apply (H ltac:(discriminate) "    "). reflexivity.
Defined.

(** ** Header tags *)

Lemma append_line_to_header_spec (a a' : CueAlbum) (line : string) :
  append_line_to_header a line = Ok a' ->
  cue_disks a' = cue_disks a
  /\ header a' = (header a ++ [line])%list
  /\ forall t,
       match Re.match_keyword (keyword_of t) line with
       | None => tag_of t a' = tag_of t a
       | Some g => exists v, first_token g = Ok v /\ tag_of t a' = Some v
       end.
Proof.
  unfold append_line_to_header, _populate_album_tag, _populate_artist_tag,
    _populate_year_tag.
  intros H.
  destruct (Re.match_keyword "TITLE " line) as [g1|] eqn:E1;
    [destruct (first_token g1) as [v1|] eqn:F1; [|discriminate]|];
    cbn [rbind album_tag artist_tag year_tag cue_disks header] in H;
    (destruct (Re.match_keyword "PERFORMER " line) as [g2|] eqn:E2;
     [destruct (first_token g2) as [v2|] eqn:F2; [|discriminate]|]);
    cbn [rbind album_tag artist_tag year_tag cue_disks header] in H;
    (destruct (Re.match_keyword "REM DATE " line) as [g3|] eqn:E3;
     [destruct (first_token g3) as [v3|] eqn:F3; [|discriminate]|]);
    cbn [rbind album_tag artist_tag year_tag cue_disks header] in H;
    inversion H; subst a'; clear H;
    (split; [reflexivity|]); (split; [reflexivity|]);
    intros [| |]; cbn [keyword_of tag_of album_tag artist_tag year_tag];
    rewrite ?E1, ?E2, ?E3; eauto.
Qed.

Lemma set_last_disc_not_nil (a : CueAlbum) (d : CueDisc) :
  cue_disks (set_last_disc a d) <> [].
Proof.
  cbn [set_last_disc cue_disks]. intros E.
  apply app_eq_nil in E. destruct E as [_ E]. discriminate.
Qed.

(** Once a disc is open, or on a file declaration, a line leaves the
    header and its tags alone. *)
Lemma parse_line_in_disc (o : Py.os_name) (a a' : CueAlbum) (line : string) :
  cue_disks a <> [] \/ Py.startswith line "FILE " = true ->
  parse_line o a line = Ok a' ->
  cue_disks a' <> [] /\ header a' = header a
  /\ forall t, tag_of t a' = tag_of t a.
Proof.
  intros Hmode H. unfold parse_line in H.
  destruct (Py.startswith line "FILE ") eqn:Ef.
  - destruct (Shlex.split line) as [ts|]; [|discriminate].
    cbn [rbind] in H.
    destruct (Shlex.item ts 1) as [name|]; [|discriminate].
    cbn [rbind] in H.
    destruct (get_last_disc (append_cue_disc a new_CueDisc)) as [d|];
      [|discriminate].
    cbn [rbind] in H.
    set (a1 := set_last_disc (append_cue_disc a new_CueDisc)
                 (mkCueDisc (titles_tags d) (cue_context d) (Some name))) in *.
    pose proof (set_last_disc_not_nil (append_cue_disc a new_CueDisc)
                  (mkCueDisc (titles_tags d) (cue_context d) (Some name)))
      as Hne.
    fold a1 in Hne.
    destruct (cue_disks a1) as [|x l] eqn:E; [contradiction|].
    cbn [List.length Nat.ltb Nat.leb] in H.
    destruct (get_last_disc a1) as [d1|]; [|discriminate].
    cbn [rbind] in H.
    destruct (append_to_cue_context d1 (fix_time_format o line)) as [d2|];
      [|discriminate].
    cbn [rbind] in H. inversion H; subst a'.
    split; [apply set_last_disc_not_nil|].
    split; [reflexivity|]. intros [| |]; reflexivity.
  - destruct Hmode as [Hne|Hf]; [|discriminate].
    cbn [rbind] in H.
    destruct (cue_disks a) as [|x l] eqn:E; [contradiction|].
    cbn [List.length Nat.ltb Nat.leb] in H.
    destruct (get_last_disc a) as [d1|]; [|discriminate].
    cbn [rbind] in H.
    destruct (append_to_cue_context d1 (fix_time_format o line)) as [d2|];
      [|discriminate].
    cbn [rbind] in H. inversion H; subst a'.
    split; [apply set_last_disc_not_nil|].
    split; [reflexivity|]. intros [| |]; reflexivity.
Qed.

Lemma parse_lines_in_disc (o : Py.os_name) (lines : list string) :
  forall a a',
    cue_disks a <> [] -> parse_lines o a lines = Ok a' ->
    cue_disks a' <> [] /\ header a' = header a
    /\ forall t, tag_of t a' = tag_of t a.
Proof.
  induction lines as [|x l IH]; intros a a' Hne H.
  - inversion H; subst. auto.
  - cbn [parse_lines] in H.
    destruct (parse_line o a x) as [a1|] eqn:E; [|discriminate].
    cbn [rbind] in H.
    destruct (parse_line_in_disc o a a1 x (or_introl Hne) E) as [N1 [H1 T1]].
    destruct (IH a1 a' N1 H) as [N2 [H2 T2]].
    split; [assumption|]. split; [congruence|].
    intros t. rewrite T2. apply T1.
Qed.

(** What follows the header leaves the header and its tags alone. *)
Lemma parse_lines_after_header (o : Py.os_name) (rest : list string)
    (a a' : CueAlbum) :
  opens_disc rest = true -> parse_lines o a rest = Ok a' ->
  header a' = header a /\ forall t, tag_of t a' = tag_of t a.
Proof.
  intros Hr H. destruct rest as [|x l].
  - inversion H; subst. auto.
  - cbn [opens_disc] in Hr. cbn [parse_lines] in H.
    destruct (parse_line o a x) as [a1|] eqn:E; [|discriminate].
    cbn [rbind] in H.
    destruct (parse_line_in_disc o a a1 x (or_intror Hr) E) as [N1 [H1 T1]].
    destruct (parse_lines_in_disc o l a1 a' N1 H) as [_ [H2 T2]].
    split; [congruence|]. intros t. rewrite T2. apply T1.
Qed.

(** Header lines keep the album without disc; a tag changes only on a line
    that matches its keyword. *)
Lemma parse_lines_header (o : Py.os_name) (lines : list string) :
  forall a a',
    cue_disks a = [] -> forallb no_file lines = true ->
    parse_lines o a lines = Ok a' ->
    cue_disks a' = [] /\ header a' = (header a ++ lines)%list
    /\ forall t,
         Forall (fun l => Re.match_keyword (keyword_of t) l = None) lines ->
         tag_of t a' = tag_of t a.
Proof.
  induction lines as [|x l IH]; intros a a' Hd Hnf H.
  - inversion H; subst. rewrite app_nil_r. auto.
  - cbn [forallb] in Hnf. apply andb_true_iff in Hnf.
    destruct Hnf as [Hx Hl]. unfold no_file in Hx.
    apply negb_true_iff in Hx.
    cbn [parse_lines] in H. rewrite (parse_line_header o a x Hd Hx) in H.
    destruct (append_line_to_header a x) as [a1|] eqn:E; [|discriminate].
    cbn [rbind] in H.
    destruct (append_line_to_header_spec a a1 x E) as [D1 [H1 T1]].
    destruct (IH a1 a' ltac:(congruence) Hl H) as [D2 [H2 T2]].
    split; [assumption|].
    split; [rewrite H2, H1, <- app_assoc; reflexivity|].
    intros t Hall. inversion Hall as [|? ? Hx0 Hl0]; subst.
    rewrite (T2 t Hl0). specialize (T1 t). rewrite Hx0 in T1. exact T1.
Qed.

(** C4 fails as stated: of two [TITLE] lines in the header the second one
    gives the album title. *)
Lemma C4_first_value_overwritten :
  exists a,
    parse_cue_file Py.posix ["TITLE First"; "TITLE Second"] = Ok a
    /\ album_tag a = Some "Second" /\ album_tag a <> Some "First".
Proof.
  eexists. split; [reflexivity|]. split; [reflexivity|]. discriminate.
Qed.

(** C4, amended: when the header holds several lines of the same tag type
    (two [TITLE ], two [PERFORMER ] or two [REM DATE ] lines before the
    first file declaration), the parsed album holds the value extracted
    from the last such line: each match overwrites the value taken
    before. *)
Theorem C4_last_header_match_wins
    (o : Py.os_name) (t : header_tag) (pre post rest : list string)
    (line g v : string) (a : CueAlbum) :
  forallb no_file (pre ++ line :: post) = true ->
  opens_disc rest = true ->
  Re.match_keyword (keyword_of t) line = Some g ->
  first_token g = Ok v ->
  Forall (fun l => Re.match_keyword (keyword_of t) l = None) post ->
  parse_cue_file o (pre ++ (line :: post) ++ rest) = Ok a ->
  tag_of t a = Some v.
Proof.
  unfold parse_cue_file. intros Hnf Hr Hm Hv Hpost H.
  rewrite forallb_app in Hnf. apply andb_true_iff in Hnf.
  destruct Hnf as [Hpre Hlp]. cbn [forallb] in Hlp.
  apply andb_true_iff in Hlp. destruct Hlp as [Hline Hpost_nf].
  rewrite parse_lines_app in H.
  destruct (parse_lines o new_CueAlbum pre) as [a1|] eqn:E1; [|discriminate].
  cbn [rbind] in H.
  destruct (parse_lines_header o pre new_CueAlbum a1 eq_refl Hpre E1)
    as [D1 _].
  rewrite parse_lines_app in H.
  destruct (parse_lines o a1 (line :: post)) as [a3|] eqn:E3; [|discriminate].
  cbn [rbind] in H.
  destruct (parse_lines_after_header o rest a3 a Hr H) as [_ T4].
  rewrite T4. clear H T4.
  cbn [parse_lines] in E3.
  unfold no_file in Hline. apply negb_true_iff in Hline.
  rewrite (parse_line_header o a1 line D1 Hline) in E3.
  destruct (append_line_to_header a1 line) as [a2|] eqn:E2; [|discriminate].
  cbn [rbind] in E3.
  destruct (append_line_to_header_spec a1 a2 line E2) as [D2 [_ T2]].
  specialize (T2 t). rewrite Hm in T2. destruct T2 as [v' [Hv' T2]].
  rewrite Hv in Hv'. inversion Hv'; subst v'.
  destruct (parse_lines_header o post a2 a3 ltac:(congruence) Hpost_nf E3)
    as [_ [_ T3]].
  rewrite (T3 t Hpost). exact T2.
Qed.

Lemma C4_witness :
  exists a,
    parse_cue_file Py.posix
      ["PERFORMER One"; "PERFORMER Two"; "REM x"; "FILE a.wav WAVE";
       "  PERFORMER Three"] = Ok a
    /\ artist_tag a = Some "Two".
Proof.
  eexists. split; [reflexivity|].
  apply (C4_last_header_match_wins Py.posix Artist ["PERFORMER One"]
           ["REM x"] ["FILE a.wav WAVE"; "  PERFORMER Three"]
           "PERFORMER Two" "Two" "Two");
    try reflexivity.
  repeat constructor.
Defined.

(** ** The tagger *)

Lemma add_trace_nil (w : World) : add_trace w [] = w.
Proof. destruct w. unfold add_trace. cbn. rewrite app_nil_r. reflexivity. Qed.

Lemma add_trace_add_trace (w : World) (e1 e2 : list event) :
  add_trace (add_trace w e1) e2 = add_trace w (e1 ++ e2).
Proof. unfold add_trace. cbn. rewrite app_assoc. reflexivity. Qed.

Lemma log_add_trace (e : event) (w : World) : log e w = (Ok tt, add_trace w [e]).
Proof. reflexivity. Qed.

Lemma add_if_present_set_tag (cmd : list string) (name : string)
    (value : option string) :
  CueToFlacTagUtils.add_if_present cmd ("--set-tag=" ++ name) value
  = (cmd ++ set_tag name value)%list.
Proof.
  destruct value as [[|c r]|]; cbn [CueToFlacTagUtils.add_if_present set_tag];
    rewrite ?app_nil_r; reflexivity.
Qed.

Lemma tag_cmd_spec (cue_album : CueAlbum) (disc : CueDisc)
    (disc_id track_id : nat) (flac_file : string) :
  get_disc cue_album disc_id = Ok disc ->
  CueToFlacTagUtils.tag_cmd flac_file cue_album disc_id track_id =
  match nth_error (titles_tags disc) track_id with
  | Some title => Ok (expected_cmd cue_album title flac_file)
  | None => Raise IndexError
  end.
Proof.
  intros Hd. unfold CueToFlacTagUtils.tag_cmd. rewrite Hd. cbn [rbind].
  unfold Shlex.item.
  destruct (nth_error (titles_tags disc) track_id) as [title|];
    [|reflexivity].
  cbn [rbind].
  change "--set-tag=ARTIST" with ("--set-tag=" ++ "ARTIST").
  change "--set-tag=ALBUM" with ("--set-tag=" ++ "ALBUM").
  change "--set-tag=TITLE" with ("--set-tag=" ++ "TITLE").
  change "--set-tag=DATE" with ("--set-tag=" ++ "DATE").
  rewrite !add_if_present_set_tag. unfold expected_cmd.
  rewrite <- !app_assoc. reflexivity.
Qed.

Lemma skipn_nth_error_some {A} (l : list A) (j : nat) (x : A) :
  nth_error l j = Some x -> skipn j l = x :: skipn (S j) l.
Proof.
  revert l. induction j as [|j IH]; intros [|y l] H; try discriminate.
  - inversion H. reflexivity.
  - cbn [nth_error] in H. rewrite skipn_cons. rewrite (IH l H). reflexivity.
Qed.

Lemma skipn_nth_error_none {A} (l : list A) (j : nat) :
  nth_error l j = None -> skipn j l = [].
Proof. intros H. apply skipn_all2. apply nth_error_None. exact H. Qed.

(** The loop of the tagger: the files that have a title are tagged in
    order, each with its own title, and the first file without a title
    ends the loop with the indexing error. *)
Lemma tag_each_spec (cue_album : CueAlbum) (disc : CueDisc) (disc_id : nat) :
  get_disc cue_album disc_id = Ok disc ->
  forall fs track_id w,
    CueToFlacTagUtils.tag_each fs cue_album disc_id track_id w =
    ((if (List.length fs <=? List.length (skipn track_id (titles_tags disc)))%nat
      then Ok tt else Raise IndexError),
     add_trace w (map Exec (expected_cmds cue_album fs
                              (skipn track_id (titles_tags disc))))).
Proof.
  intros Hd. induction fs as [|f fs IH]; intros j w.
  - cbn. rewrite add_trace_nil. reflexivity.
  - cbn [CueToFlacTagUtils.tag_each]. unfold bind at 1.
    unfold CueToFlacTagUtils.tag_single_file, bind, lift.
    rewrite (tag_cmd_spec cue_album disc disc_id j f Hd).
    destruct (nth_error (titles_tags disc) j) as [title|] eqn:E.
    + rewrite log_add_trace. rewrite IH.
      rewrite (skipn_nth_error_some _ _ _ E).
      rewrite add_trace_add_trace. reflexivity.
    + rewrite (skipn_nth_error_none _ _ E). cbn.
      rewrite add_trace_nil. reflexivity.
Qed.

Lemma tag_files_spec (cue_album : CueAlbum) (disc : CueDisc) (disc_id : nat)
    (files_dir : string) (l : list dirent) (w : World) :
  get_disc cue_album disc_id = Ok disc ->
  lookup_dir (dirs w) files_dir = Some l ->
  CueToFlacTagUtils.tag_files files_dir cue_album disc_id w =
  ((if (List.length (CueToFlacTagUtils.sorted_files files_dir l)
        <=? List.length (titles_tags disc))%nat
    then Ok tt else Raise IndexError),
   add_trace w (map Exec (expected_cmds cue_album
                            (CueToFlacTagUtils.sorted_files files_dir l)
                            (titles_tags disc)))).
Proof.
  intros Hd Hl. unfold CueToFlacTagUtils.tag_files, bind, listing.
  rewrite Hl. apply (tag_each_spec cue_album disc disc_id Hd).
Qed.

Lemma nth_error_combine {A B} (l : list A) (l' : list B) (i : nat) (x : A) (y : B) :
  nth_error l i = Some x -> nth_error l' i = Some y ->
  nth_error (combine l l') i = Some (x, y).
Proof.
  revert l l'. induction i as [|i IH]; intros [|a l] [|b l'] Hx Hy;
    try discriminate.
  - inversion Hx. inversion Hy. reflexivity.
  - cbn [nth_error combine] in *. apply IH; assumption.
Qed.

Lemma expected_cmds_length (cue_album : CueAlbum) (fs titles : list string) :
  List.length (expected_cmds cue_album fs titles)
  = Nat.min (List.length fs) (List.length titles).
Proof. unfold expected_cmds. rewrite length_map. apply length_combine. Qed.

Lemma expected_cmds_nth (cue_album : CueAlbum) (fs titles : list string)
    (i : nat) (flac_file title : string) :
  nth_error fs i = Some flac_file -> nth_error titles i = Some title ->
  nth_error (expected_cmds cue_album fs titles) i
  = Some (expected_cmd cue_album title flac_file).
Proof.
  intros Hf Ht. unfold expected_cmds.
  rewrite nth_error_map, (nth_error_combine _ _ _ _ _ Hf Ht). reflexivity.
Qed.

(** C2 fails as stated: with one output file and two titles no error is
    signalled. *)
Lemma C2_fewer_files_no_error :
  let album := mkCueAlbum None None None
                 [mkCueDisc ["One"; "Two"] [] (Some "a.wav")] [] in
  let w := mkWorld [] [("d", [("01.flac", 1%Z)])] [] 0 in
  List.length (CueToFlacTagUtils.sorted_files "d" [("01.flac", 1%Z)])
  <> List.length ["One"; "Two"]
  /\ fst (CueToFlacTagUtils.tag_files "d" album 0 w) = Ok tt.
Proof. cbv zeta. split; [vm_compute; discriminate|reflexivity]. Qed.

(** C2, amended: when the tagging step is handed more output files than
    the disc has titles, the indexing error is signalled, after the files
    that have a title were tagged, each with the title at its position;
    when it is handed fewer files than titles (or as many), no error is
    signalled and every file is tagged with the title at its position. *)
Theorem C2_error_only_for_more_files_than_titles
    (cue_album : CueAlbum) (disc : CueDisc) (disc_id : nat)
    (files_dir : string) (l : list dirent) (w : World) :
  get_disc cue_album disc_id = Ok disc ->
  lookup_dir (dirs w) files_dir = Some l ->
  let fs := CueToFlacTagUtils.sorted_files files_dir l in
  let titles := titles_tags disc in
  (List.length titles < List.length fs ->
     CueToFlacTagUtils.tag_files files_dir cue_album disc_id w
     = (Raise IndexError,
        add_trace w (map Exec (expected_cmds cue_album
                                 (firstn (List.length titles) fs) titles))))
  /\ (List.length fs <= List.length titles ->
        CueToFlacTagUtils.tag_files files_dir cue_album disc_id w
        = (Ok tt,
           add_trace w (map Exec (expected_cmds cue_album fs
                                    (firstn (List.length fs) titles))))).
Proof.
  intros Hd Hl fs titles.
  rewrite (tag_files_spec cue_album disc disc_id files_dir l w Hd Hl).
  fold fs titles. split; intros Hlen.
  - replace (List.length fs <=? List.length titles)%nat with false
      by (symmetry; apply Nat.leb_gt; exact Hlen).
    unfold expected_cmds. rewrite <- combine_firstn_r. reflexivity.
  - replace (List.length fs <=? List.length titles)%nat with true
      by (symmetry; apply Nat.leb_le; exact Hlen).
    unfold expected_cmds. rewrite <- combine_firstn_l. reflexivity.
Qed.

Lemma C2_witness :
  let album := mkCueAlbum None None None
                 [mkCueDisc ["One"] [] (Some "a.wav")] [] in
  let w := mkWorld [] [("d", [("02.flac", 2%Z); ("01.flac", 1%Z)])] [] 0 in
  CueToFlacTagUtils.tag_files "d" album 0 w
  = (Raise IndexError,
     add_trace w [Exec ["metaflac"; "--preserve-modtime";
                        "--set-tag=TITLE=One"; "d/01.flac"]]).
Proof.
  cbv zeta.
  destruct (C2_error_only_for_more_files_than_titles
              (mkCueAlbum None None None
                 [mkCueDisc ["One"] [] (Some "a.wav")] [])
              (mkCueDisc ["One"] [] (Some "a.wav")) 0 "d"
              [("02.flac", 2%Z); ("01.flac", 1%Z)]
              (mkWorld [] [("d", [("02.flac", 2%Z); ("01.flac", 1%Z)])] [] 0)
              eq_refl eq_refl) as [H _].
  rewrite H; [reflexivity|]. vm_compute. lia.
Defined.

(** C5 fails as stated: a file beyond the last title gets no invocation,
    and for the track title that a line [TITLE] with an empty quoted
    value yields, the invocation carries no TITLE tag. *)
Lemma C5_empty_title_not_written :
  exists a w',
    parse_cue_file Py.posix
      ["FILE a.wav WAVE";
       "    TITLE " ++ Py.chr Py.dquote ++ Py.chr Py.dquote] = Ok a
    /\ CueToFlacTagUtils.tag_files "d" a 0
         (mkWorld [] [("d", [("01.flac", 1%Z); ("02.flac", 2%Z)])] [] 0)
       = (Raise IndexError, w')
    /\ trace w' = [Exec ["metaflac"; "--preserve-modtime"; "d/01.flac"]].
Proof. eexists. eexists. split; [reflexivity|]. split; reflexivity. Qed.

(** C5, amended: for every disc and every output file at a position [i]
    of the tagger's ordering (the files matching the pattern, by
    modification time) at which the disc has a title, the tagger makes one
    invocation of the tag writer for that file, the [i]-th one; it carries
    the TITLE tag with [titles[i]] when that title is not empty, and each of
    the ARTIST, ALBUM and DATE tags exactly when the album-level value is
    present and not empty; an absent or empty value, the title included,
    is left out and never written as an empty value.  Files beyond the
    last title get no invocation. *)
Theorem C5_file_tagged_with_title_at_its_position
    (cue_album : CueAlbum) (disc : CueDisc) (disc_id : nat)
    (files_dir : string) (l : list dirent) (w : World)
    (i : nat) (flac_file title : string) :
  get_disc cue_album disc_id = Ok disc ->
  lookup_dir (dirs w) files_dir = Some l ->
  nth_error (CueToFlacTagUtils.sorted_files files_dir l) i = Some flac_file ->
  nth_error (titles_tags disc) i = Some title ->
  let w' := snd (CueToFlacTagUtils.tag_files files_dir cue_album disc_id w) in
  let cmds := expected_cmds cue_album
                (CueToFlacTagUtils.sorted_files files_dir l)
                (titles_tags disc) in
  trace w' = (trace w ++ map Exec cmds)%list
  /\ List.length cmds
     = Nat.min (List.length (CueToFlacTagUtils.sorted_files files_dir l))
               (List.length (titles_tags disc))
  /\ nth_error cmds i = Some (expected_cmd cue_album title flac_file)
  /\ nth_error (trace w') (List.length (trace w) + i)
     = Some (Exec (expected_cmd cue_album title flac_file)).
Proof.
  intros Hd Hl Hf Ht w' cmds. subst w'.
  rewrite (tag_files_spec cue_album disc disc_id files_dir l w Hd Hl).
  cbn [snd add_trace trace]. fold cmds.
  pose proof (expected_cmds_nth cue_album _ _ i flac_file title Hf Ht) as Hn.
  fold cmds in Hn.
  split; [reflexivity|]. split; [apply expected_cmds_length|].
  split; [exact Hn|].
  rewrite nth_error_app2 by lia.
  replace (List.length (trace w) + i - List.length (trace w)) with i by lia.
  rewrite nth_error_map, Hn. reflexivity.
Qed.

Lemma C5_witness :
  let album := mkCueAlbum (Some "B") None (Some "2001")
                 [mkCueDisc ["One"; "Two"] [] (Some "a.wav")] [] in
  let w := mkWorld [] [("d", [("02.flac", 2%Z); ("01.flac", 1%Z)])] [] 0 in
  nth_error (trace (snd (CueToFlacTagUtils.tag_files "d" album 0 w))) 1
  = Some (Exec ["metaflac"; "--preserve-modtime"; "--set-tag=ALBUM=B";
                "--set-tag=TITLE=Two"; "--set-tag=DATE=2001"; "d/02.flac"]).
Proof.
  cbv zeta.
  destruct (C5_file_tagged_with_title_at_its_position
              (mkCueAlbum (Some "B") None (Some "2001")
                 [mkCueDisc ["One"; "Two"] [] (Some "a.wav")] [])
              (mkCueDisc ["One"; "Two"] [] (Some "a.wav")) 0 "d"
              [("02.flac", 2%Z); ("01.flac", 1%Z)]
              (mkWorld [] [("d", [("02.flac", 2%Z); ("01.flac", 1%Z)])] [] 0)
              1 "d/02.flac" "Two" eq_refl eq_refl eq_refl eq_refl)
    as [_ [_ [_ H]]].
  exact H.
Defined.

(** ** Which steps run the splitter *)

Lemma split_calls_app (e1 e2 : list event) :
  split_calls (e1 ++ e2) = (split_calls e1 ++ split_calls e2)%list.
Proof.
  induction e1 as [|e l IH]; [reflexivity|].
  cbn [app split_calls]. destruct (is_shnsplit e); rewrite IH; reflexivity.
Qed.

Lemma quiet_ret {A} (a : A) : quiet_op (ret a).
Proof. intros w. exists []. cbn. rewrite app_nil_r. auto. Qed.

Lemma quiet_raise {A} (e : exn) : quiet_op (@raise A e).
Proof. intros w. exists []. cbn. rewrite app_nil_r. auto. Qed.

Lemma quiet_lift {A} (r : result A) : quiet_op (lift r).
Proof. intros w. exists []. cbn. rewrite app_nil_r. auto. Qed.

Lemma quiet_log (e : event) : is_shnsplit e = None -> quiet_op (log e).
Proof. intros H w. exists [e]. cbn. rewrite H. auto. Qed.

Lemma quiet_bind {A B} (m : M A) (k : A -> M B) :
  quiet_op m -> (forall a, quiet_op (k a)) -> quiet_op (bind m k).
Proof.
  intros Hm Hk w. unfold bind.
  destruct (Hm w) as [e1 [T1 Q1]].
  destruct (m w) as [[a|e] w1]; cbn [snd] in *.
  - destruct (Hk a w1) as [e2 [T2 Q2]].
    exists (e1 ++ e2)%list. rewrite T2, T1, app_assoc, split_calls_app, Q1, Q2.
    auto.
  - exists e1. auto.
Qed.

Lemma quiet_set_dir (d : string) (l : list dirent) : quiet_op (set_dir d l).
Proof. intros w. exists []. cbn. rewrite app_nil_r. auto. Qed.

Lemma quiet_listing (d : string) : quiet_op (listing d).
Proof.
  intros w. exists []. unfold listing.
  destruct (lookup_dir (dirs w) d); cbn; rewrite app_nil_r; auto.
Qed.

Lemma quiet_listdir (d : string) : quiet_op (listdir d).
Proof.
  intros w. exists []. unfold listdir.
  destruct (lookup_dir (dirs w) d); cbn; rewrite app_nil_r; auto.
Qed.

Lemma quiet_os_remove (path : string) : quiet_op (os_remove path).
Proof.
  intros w. unfold os_remove.
  destruct (existsb (String.eqb path) (files w)).
  - exists [Remove path]. auto.
  - exists []. cbn. rewrite app_nil_r. auto.
Qed.

Lemma quiet_rmtree (path : string) : quiet_op (rmtree path).
Proof.
  intros w. unfold rmtree. destruct (lookup_dir (dirs w) path).
  - exists [Rmtree path]. auto.
  - exists []. cbn. rewrite app_nil_r. auto.
Qed.

Lemma quiet_mkdtemp (env : Env) (src_dir : string) : quiet_op (mkdtemp env src_dir).
Proof. intros w. eexists [_]. cbn. auto. Qed.

Lemma add_if_present_head (cmd : list string) (param x : string)
    (tag : option string) :
  hd_error cmd = Some x ->
  hd_error (CueToFlacTagUtils.add_if_present cmd param tag) = Some x.
Proof.
  intros H. destruct cmd as [|y cmd]; [discriminate|].
  destruct tag as [[|c r]|]; exact H.
Qed.

Lemma hd_app_one (cmd : list string) (x y : string) :
  hd_error cmd = Some x -> hd_error (cmd ++ [y]) = Some x.
Proof. destruct cmd; [discriminate|]. auto. Qed.

Lemma metaflac_not_shnsplit (cmd : list string) :
  hd_error cmd = Some "metaflac" -> is_shnsplit (Exec cmd) = None.
Proof.
  destruct cmd as [|x cmd]; [discriminate|].
  intros H. inversion H. reflexivity.
Qed.

Lemma tag_cmd_not_shnsplit (flac_file : string) (cue_album : CueAlbum)
    (disc_id track_id : nat) (cmd : list string) :
  CueToFlacTagUtils.tag_cmd flac_file cue_album disc_id track_id = Ok cmd ->
  is_shnsplit (Exec cmd) = None.
Proof.
  unfold CueToFlacTagUtils.tag_cmd. intros H.
  destruct (get_disc cue_album disc_id) as [disc|]; [|discriminate].
  cbn [rbind] in H.
  destruct (Shlex.item (titles_tags disc) track_id) as [title|];
    [|discriminate].
  cbn [rbind] in H. apply metaflac_not_shnsplit.
  injection H as <-.
  apply hd_app_one.
  apply (add_if_present_head _ "--set-tag=DATE" _ (year_tag cue_album)).
  apply (add_if_present_head _ "--set-tag=TITLE" _ (Some title)).
  apply (add_if_present_head _ "--set-tag=ALBUM" _ (album_tag cue_album)).
  apply (add_if_present_head _ "--set-tag=ARTIST" _ (artist_tag cue_album)).
  reflexivity.
Qed.

Lemma quiet_tag_single_file (flac_file : string) (cue_album : CueAlbum)
    (disc_id track_id : nat) :
  quiet_op (CueToFlacTagUtils.tag_single_file flac_file cue_album disc_id
                                              track_id).
Proof.
  unfold CueToFlacTagUtils.tag_single_file. intros w. unfold bind, lift.
  destruct (CueToFlacTagUtils.tag_cmd flac_file cue_album disc_id track_id)
    as [cmd|] eqn:E.
  - exists [Exec cmd]. cbn [log snd trace split_calls].
    rewrite (tag_cmd_not_shnsplit _ _ _ _ _ E). auto.
  - exists []. cbn. rewrite app_nil_r. auto.
Qed.

Lemma quiet_tag_each (fs : list string) (cue_album : CueAlbum)
    (disc_id : nat) :
  forall track_id,
    quiet_op (CueToFlacTagUtils.tag_each fs cue_album disc_id track_id).
Proof.
  induction fs as [|f fs IH]; intros j; cbn [CueToFlacTagUtils.tag_each].
  - apply quiet_ret.
  - apply quiet_bind; [apply quiet_tag_single_file|]. intros _. apply IH.
Qed.

Lemma quiet_tag_files (files_dir : string) (cue_album : CueAlbum)
    (disc_id : nat) :
  quiet_op (CueToFlacTagUtils.tag_files files_dir cue_album disc_id).
Proof.
  unfold CueToFlacTagUtils.tag_files.
  apply quiet_bind; [apply quiet_listing|]. intros l. apply quiet_tag_each.
Qed.

Lemma quiet_remove_each (temp_dir : string) (l : list dirent) :
  quiet_op (CueConverter.remove_each temp_dir l).
Proof.
  induction l as [|e l IH]; cbn [CueConverter.remove_each].
  - apply quiet_ret.
  - apply quiet_bind; [apply quiet_log; reflexivity|]. intros _. apply IH.
Qed.

Lemma quiet_remove_pregap_files (temp_dir : string) :
  quiet_op (CueConverter.remove_pregap_files temp_dir).
Proof.
  unfold CueConverter.remove_pregap_files.
  apply quiet_bind; [apply quiet_listing|]. intros l.
  apply quiet_bind; [apply quiet_remove_each|]. intros _.
  apply quiet_set_dir.
Qed.

Lemma quiet_move_all (src_dir dest_dir : string) (names : list dirent) :
  quiet_op (FileUtils.move_all src_dir dest_dir names).
Proof.
  induction names as [|e l IH]; cbn [FileUtils.move_all].
  - apply quiet_ret.
  - apply quiet_bind; [apply quiet_log; reflexivity|]. intros _. apply IH.
Qed.

Lemma quiet_move_to_newdir (env : Env) (src_dir dest_dir : string) :
  quiet_op (FileUtils.move_to_newdir env src_dir dest_dir).
Proof.
  unfold FileUtils.move_to_newdir.
  apply quiet_bind.
  - intros w. exists []. cbn. rewrite app_nil_r. auto.
  - intros ex. destruct (ex && isfile env dest_dir); [apply quiet_raise|].
    apply quiet_bind.
    + destruct (negb ex); [apply quiet_log; reflexivity|apply quiet_ret].
    + intros _. apply quiet_bind; [apply quiet_listdir|]. intros names.
      apply quiet_bind; [apply quiet_move_all|]. intros _. apply quiet_set_dir.
Qed.

Lemma quiet_finally_block (env : Env) (temp_cue : string)
    (temp_dir : option string) :
  quiet_op (CueConverter.finally_block env temp_cue temp_dir).
Proof.
  unfold CueConverter.finally_block.
  apply quiet_bind; [apply quiet_os_remove|]. intros _.
  destruct (negb (args_debug env)); [|apply quiet_ret].
  destruct temp_dir; [apply quiet_rmtree|apply quiet_raise].
Qed.

Lemma returns_ret {A} (x : A) : returns (ret x) x.
Proof. intros w a w' H. inversion H. reflexivity. Qed.

Lemma returns_bind {A B} (m : M A) (k : A -> M B) (x : B) :
  (forall a, returns (k a) x) -> returns (bind m k) x.
Proof.
  intros Hk w b w' H. unfold bind in H.
  destruct (m w) as [[a|e] w1]; [|discriminate].
  exact (Hk a w1 b w' H).
Qed.

(** ** The running track number *)

Lemma try_body_calls (env : Env) (dest_dir : string) (cue_album : CueAlbum)
    (cue_disc_id : nat) (cue_disc : CueDisc)
    (temp_cue music temp_dir : string) (n : nat) (w : World) :
  exists evs,
    trace (snd (CueConverter.try_body env dest_dir cue_album cue_disc_id
                  cue_disc temp_cue music temp_dir n w))
    = (trace w ++ evs)%list
    /\ split_calls evs = [CueConverter.shnsplit_cmd temp_cue music temp_dir n]
    /\ forall n',
         fst (CueConverter.try_body env dest_dir cue_album cue_disc_id
                cue_disc temp_cue music temp_dir n w) = Ok n' ->
         n' = n + List.length (titles_tags cue_disc).
Proof.
  unfold CueConverter.try_body.
  set (rest := (CueConverter.remove_pregap_files temp_dir ;;; _)%io).
  assert (Hq : quiet_op rest).
  { subst rest.
    apply quiet_bind; [apply quiet_remove_pregap_files|]. intros _.
    apply quiet_bind; [apply quiet_tag_files|]. intros _.
    apply quiet_bind; [apply quiet_move_to_newdir|]. intros _.
    apply quiet_ret. }
  assert (Hr : returns rest (n + List.length (titles_tags cue_disc))).
  { subst rest. repeat (apply returns_bind; intros _). apply returns_ret. }
  set (w1 := mkWorld (files w)
                ((temp_dir,
                  snd (shnsplit env (CueConverter.shnsplit_cmd temp_cue music
                                       temp_dir n)))
                 :: remove_dir (dirs w) temp_dir)
                (trace w ++ [Exec (CueConverter.shnsplit_cmd temp_cue music
                                     temp_dir n)])%list
                (fresh w)).
  assert (E : (CueConverter.split_file_by_cue_sheet env temp_cue music
                 temp_dir n ;;; rest)%io w = rest w1) by reflexivity.
  rewrite E.
  destruct (Hq w1) as [evs [T Q]].
  exists (Exec (CueConverter.shnsplit_cmd temp_cue music temp_dir n) :: evs).
  split; [|split].
  - rewrite T. subst w1. cbn [trace]. rewrite <- app_assoc. reflexivity.
  - cbn [split_calls]. rewrite Q. reflexivity.
  - intros n' H. destruct (rest w1) as [r w2] eqn:E1. cbn [fst] in H. subst r.
    exact (Hr w1 n' w2 E1).
Qed.

Lemma convert_disc_calls (env : Env) (src_dir dest_dir : string)
    (cue_album : CueAlbum) (cue_disc_id : nat) (cue_disc : CueDisc)
    (n : nat) (temp_dir : option string) (w : World) :
  exists evs,
    trace (snd (CueConverter.convert_disc env src_dir dest_dir cue_album
                  cue_disc_id cue_disc n temp_dir w))
    = (trace w ++ evs)%list
    /\ ((split_calls evs = []
         /\ forall n', fst (fst (CueConverter.convert_disc env src_dir dest_dir
                  cue_album cue_disc_id cue_disc n temp_dir w)) <> Ok n')
        \/ (exists c name d,
              music_file_name cue_disc = Some name
              /\ split_calls evs
                 = [CueConverter.shnsplit_cmd c (Py.path_join src_dir name) d n]
              /\ forall n', fst (fst (CueConverter.convert_disc env src_dir
                     dest_dir cue_album cue_disc_id cue_disc n temp_dir w))
                   = Ok n' ->
                   n' = n + List.length (titles_tags cue_disc))).
Proof.
  unfold CueConverter.convert_disc, CueConverter.create_temp_cue_file.
  cbv zeta.
  destruct (write_fault env (fresh w)) as [fault|].
  { exists []. cbn [snd fst trace]. rewrite app_nil_r. split; [reflexivity|].
    left. split; [reflexivity|discriminate]. }
  destruct (CueConverter.temp_cue_bytes (os_name env)
              (header cue_album ++ cue_context cue_disc)) as [|b bs] eqn:Eb.
  - eexists [_]. cbn [snd fst trace]. split; [reflexivity|].
    left. split; [reflexivity|discriminate].
  - set (temp_cue := (temp_cue_name env (fresh w) ++ ".cue")).
    set (w1 := mkWorld _ _ _ _).
    assert (T1 : trace w1 = (trace w ++ [WriteFile temp_cue (String b bs)])%list)
      by reflexivity.
    clearbody w1.
    unfold CueConverter.try_block.
    destruct (music_file_name cue_disc) as [name|] eqn:En.
    + unfold mkdtemp.
      set (d := Py.path_join src_dir ("cueconvert_" ++ _)).
      set (w2 := mkWorld _ _ _ _).
      assert (T2 : trace w2 = (trace w1 ++ [Mkdtemp d])%list) by reflexivity.
      clearbody w2.
      destruct (try_body_calls env dest_dir cue_album cue_disc_id cue_disc
                  temp_cue (Py.path_join src_dir name) d n w2)
        as [e3 [T3 [Q3 R3]]].
      destruct (CueConverter.try_body env dest_dir cue_album cue_disc_id
                  cue_disc temp_cue (Py.path_join src_dir name) d n w2)
        as [r w3].
      cbn [snd fst] in T3, R3.
      destruct (quiet_finally_block env temp_cue (Some d) w3) as [e4 [T4 Q4]].
      destruct (CueConverter.finally_block env temp_cue (Some d) w3)
        as [rf w4].
      cbn [snd] in T4.
      exists ([WriteFile temp_cue (String b bs)] ++ [Mkdtemp d] ++ e3 ++ e4)%list.
      split.
      * destruct rf; cbn [snd]; rewrite T4, T3, T2, T1, <- !app_assoc;
          reflexivity.
      * right. exists temp_cue, name, d. split; [reflexivity|]. split.
        -- rewrite !split_calls_app, Q3, Q4. reflexivity.
        -- destruct rf; cbn [fst]; [exact R3|discriminate].
    + destruct (quiet_finally_block env temp_cue temp_dir w1) as [e4 [T4 Q4]].
      destruct (CueConverter.finally_block env temp_cue temp_dir w1)
        as [rf w4].
      cbn [snd] in T4.
      exists ([WriteFile temp_cue (String b bs)] ++ e4)%list.
      split.
      * destruct rf; cbn [snd]; rewrite T4, T1, <- !app_assoc; reflexivity.
      * left. split.
        -- rewrite split_calls_app, Q4. reflexivity.
        -- destruct rf; cbn [fst]; discriminate.
Qed.

Lemma title_count_firstn_mono (discs : list CueDisc) :
  forall i j, i <= j ->
    title_count (firstn i discs) <= title_count (firstn j discs).
Proof.
  induction discs as [|d l IH]; intros i j Hij.
  - rewrite !firstn_nil. lia.
  - destruct i as [|i]; [cbn; lia|].
    destruct j as [|j]; [lia|].
    cbn [firstn title_count]. specialize (IH i j ltac:(lia)). lia.
Qed.

Lemma convert_loop_calls (env : Env) (src_dir dest_dir : string)
    (cue_album : CueAlbum) (discs : list CueDisc) :
  forall cue_disc_id n temp_dir w,
  exists evs,
    trace (snd (CueConverter.convert_loop env src_dir dest_dir cue_album discs
                  cue_disc_id n temp_dir w))
    = (trace w ++ evs)%list
    /\ (forall i cmd,
          nth_error (split_calls evs) i = Some cmd ->
          exists disc name c d,
            nth_error discs i = Some disc
            /\ music_file_name disc = Some name
            /\ cmd = CueConverter.shnsplit_cmd c (Py.path_join src_dir name) d
                       (n + title_count (firstn i discs)))
    /\ List.length (split_calls evs) <= List.length discs
    /\ (fst (CueConverter.convert_loop env src_dir dest_dir cue_album discs
               cue_disc_id n temp_dir w) = Ok tt ->
        List.length (split_calls evs) = List.length discs).
Proof.
  induction discs as [|disc rest IH]; intros id n td w.
  - exists []. cbn. rewrite app_nil_r. repeat split; auto.
    intros [|i] cmd H; discriminate.
  - cbn [CueConverter.convert_loop].
    destruct (convert_disc_calls env src_dir dest_dir cue_album id disc n td w)
      as [e1 [T1 C1]].
    destruct (CueConverter.convert_disc env src_dir dest_dir cue_album id disc
                n td w) as [[r td'] w1].
    cbn [fst snd] in T1, C1.
    destruct r as [n'|e].
    + destruct C1 as [[_ C1]|(c & name & d & En & Q1 & R1)];
        [exfalso; exact (C1 n' eq_refl)|].
      specialize (R1 n' eq_refl). subst n'.
      destruct (IH (S id) (n + List.length (titles_tags disc)) td' w1)
        as [e2 [T2 [N2 [L2 F2]]]].
      exists (e1 ++ e2)%list. rewrite T2, T1, app_assoc, split_calls_app, Q1.
      cbn [app List.length].
      split; [reflexivity|]. split; [|split; [lia|intros H; rewrite F2; auto]].
      intros [|i] cmd H; cbn [nth_error] in H.
      * inversion H; subst cmd. exists disc, name, c, d. cbn.
        rewrite Nat.add_0_r. auto.
      * destruct (N2 i cmd H) as (disc' & name' & c' & d' & Ei & En' & E).
        exists disc', name', c', d'. split; [exact Ei|]. split; [exact En'|].
        rewrite E. cbn [firstn title_count]. f_equal. lia.
    + exists e1. cbn [fst snd]. split; [exact T1|].
      split; [|split; [|discriminate]].
      * intros i cmd H.
        destruct C1 as [[Q1 _]|(c & name & d & En & Q1 & _)]; rewrite Q1 in H.
        -- destruct i; discriminate.
        -- destruct i as [|i]; [|destruct i; discriminate].
           inversion H; subst cmd. exists disc, name, c, d. cbn.
           rewrite Nat.add_0_r. auto.
      * destruct C1 as [[Q1 _]|(c & name & d & En & Q1 & _)]; rewrite Q1;
          cbn; lia.
Qed.

Lemma new_events_app (w w' : World) (evs : list event) :
  trace w' = (trace w ++ evs)%list -> new_events w w' = evs.
Proof.
  intros H. unfold new_events. rewrite H, skipn_app, skipn_all, Nat.sub_diag.
  reflexivity.
Qed.

(** C1: in one [convert], the [i]-th invocation of the splitter is the one
    for disc [i] of the album (0-based, the discs in sheet order: it names
    the audio file of that disc), and its argument after [-c] is the
    decimal numeral of 1 plus the number of titles of the discs before it;
    there is at most one invocation per disc and exactly one when
    [convert] returns; from one invocation to a later one the number
    after [-c] never decreases; and for two discs of 5 and 7 titles the
    second invocation carries [-c 6]. *)
Theorem C1_splitter_starts_after_the_titles_before
    (env : Env) (src_dir dest_dir : string) (cue_album : CueAlbum) (w : World) :
  let run := CueConverter.convert env src_dir dest_dir cue_album w in
  let calls := split_calls (new_events w (snd run)) in
  let start i := 1 + title_count (firstn i (cue_disks cue_album)) in
  (forall i cmd,
     nth_error calls i = Some cmd ->
     exists disc name cue out,
       nth_error (cue_disks cue_album) i = Some disc
       /\ music_file_name disc = Some name
       /\ cmd = ["shnsplit"; "-f"; cue; "-t"; "%n. %t"; "-c"; str (start i);
                 "-d"; out; "-o"; "flac"; "-O"; "always";
                 Py.path_join src_dir name])
  /\ List.length calls <= List.length (cue_disks cue_album)
  /\ (fst run = Ok tt -> List.length calls = List.length (cue_disks cue_album))
  /\ (forall i j ci cj,
        i <= j -> nth_error calls i = Some ci -> nth_error calls j = Some cj ->
        exists a b,
          nth_error ci 5 = Some "-c" /\ nth_error ci 6 = Some (str a)
          /\ nth_error cj 5 = Some "-c" /\ nth_error cj 6 = Some (str b)
          /\ 1 <= a /\ a <= b)
  /\ (forall d1 d2 cmd,
        cue_disks cue_album = [d1; d2] ->
        List.length (titles_tags d1) = 5 -> List.length (titles_tags d2) = 7 ->
        nth_error calls 1 = Some cmd ->
        exists cue music out,
          cmd = ["shnsplit"; "-f"; cue; "-t"; "%n. %t"; "-c"; "6";
                 "-d"; out; "-o"; "flac"; "-O"; "always"; music]).
Proof.
  intros run calls start. subst run calls. unfold CueConverter.convert.
  destruct (convert_loop_calls env src_dir dest_dir cue_album
              (cue_disks cue_album) 0 CueConverter.FIRST_TRACK_START_NUMBER
              None w) as [evs [T [N [L F]]]].
  rewrite (new_events_app _ _ evs T).
  split; [exact N|]. split; [exact L|]. split; [exact F|]. split.
  - intros i j ci cj Hij Hi Hj.
    destruct (N i ci Hi) as (di & ni & ci' & oi & _ & _ & Ei).
    destruct (N j cj Hj) as (dj & nj & cj' & oj & _ & _ & Ej).
    exists (start i), (start j). subst ci cj.
    repeat (split; [reflexivity|]). subst start. cbv beta.
    pose proof (title_count_firstn_mono (cue_disks cue_album) i j Hij). lia.
  - intros d1 d2 cmd Hd H1 H2 Hc.
    destruct (N 1 cmd Hc) as (disc & name & c & d & _ & _ & E).
    exists c, (Py.path_join src_dir name), d.
    rewrite E. subst start. cbv beta.
    rewrite Hd. cbn [firstn title_count]. rewrite H1. reflexivity.
Qed.

Lemma C1_witness :
  nth_error
    (split_calls
       (new_events empty_world
          (snd (CueConverter.convert sample_env "/m" "flac" two_disc_album
                  empty_world)))) 1
  = Some ["shnsplit"; "-f"; "/tmp/tmp2.cue"; "-t"; "%n. %t"; "-c"; "6";
          "-d"; "/m/cueconvert_3"; "-o"; "flac"; "-O"; "always"; "/m/b.wav"]
  /\ fst (CueConverter.convert sample_env "/m" "flac" two_disc_album
            empty_world) = Ok tt.
Proof.
  assert (Hc : exists cmd,
    nth_error
      (split_calls
         (new_events empty_world
            (snd (CueConverter.convert sample_env "/m" "flac" two_disc_album
                    empty_world)))) 1 = Some cmd
    /\ nth_error cmd 2 = Some "/tmp/tmp2.cue"
    /\ nth_error cmd 8 = Some "/m/cueconvert_3"
    /\ nth_error cmd 13 = Some "/m/b.wav").
  { eexists. split; [vm_compute; reflexivity|]. repeat split. }
  destruct Hc as (cmd & Hc & A2 & A8 & A13).
  destruct (C1_splitter_starts_after_the_titles_before
              sample_env "/m" "flac" two_disc_album empty_world)
    as [_ [_ [_ [_ H]]]].
  destruct (H (mkCueDisc ["a1"; "a2"; "a3"; "a4"; "a5"] ["FILE a.wav WAVE"]
                 (Some "a.wav"))
              (mkCueDisc ["b1"; "b2"; "b3"; "b4"; "b5"; "b6"; "b7"]
                 ["FILE b.wav WAVE"] (Some "b.wav"))
              cmd eq_refl eq_refl eq_refl Hc)
    as (cue & music & out & E).
  split; [|vm_compute; reflexivity].
  rewrite Hc, E. rewrite E in A2, A8, A13.
  cbn [nth_error] in A2, A8, A13.
  injection A2 as ->. injection A8 as ->. injection A13 as ->. reflexivity.
Defined.

(** ** A sheet without file declaration *)

Lemma append_line_to_header_total (a : CueAlbum) (line : string) :
  header_line_ok line = true -> exists a', append_line_to_header a line = Ok a'.
Proof.
  unfold header_line_ok, tag_tokenises. intros H.
  apply andb_true_iff in H. destruct H as [H H3].
  apply andb_true_iff in H. destruct H as [H1 H2].
  unfold append_line_to_header, _populate_album_tag, _populate_artist_tag,
    _populate_year_tag.
  destruct (Re.match_keyword "TITLE " line) as [g1|];
    [destruct (first_token g1); [|discriminate]|];
    cbn [rbind album_tag artist_tag year_tag cue_disks header];
    (destruct (Re.match_keyword "PERFORMER " line) as [g2|];
     [destruct (first_token g2); [|discriminate]|]);
    cbn [rbind album_tag artist_tag year_tag cue_disks header];
    (destruct (Re.match_keyword "REM DATE " line) as [g3|];
     [destruct (first_token g3); [|discriminate]|]);
    cbn [rbind]; eauto.
Qed.

Lemma parse_lines_header_total (o : Py.os_name) (lines : list string) :
  forall a,
    cue_disks a = [] -> forallb no_file lines = true ->
    forallb header_line_ok lines = true ->
    exists a', parse_lines o a lines = Ok a'.
Proof.
  induction lines as [|x l IH]; intros a Hd Hnf Hok; [eexists; reflexivity|].
  cbn [forallb] in Hnf, Hok.
  apply andb_true_iff in Hnf. destruct Hnf as [Hx Hl].
  apply andb_true_iff in Hok. destruct Hok as [Ox Ol].
  unfold no_file in Hx. apply negb_true_iff in Hx.
  cbn [parse_lines]. rewrite (parse_line_header o a x Hd Hx).
  destruct (append_line_to_header_total a x Ox) as [a1 E]. rewrite E.
  cbn [rbind].
  destruct (append_line_to_header_spec a a1 x E) as [D1 _].
  apply IH; [congruence|assumption|assumption].
Qed.

(** C8 fails as stated: a sheet without file declaration is converted
    without any error; nothing is done after the sheet was read. *)
Lemma C8_no_disc_no_error :
  let text := "REM GENRE Rock" ++ Py.chr Py.LF ++ "TITLE B" ++ Py.chr Py.LF in
  (exists a, parse_cue_file Py.posix (Py.splitlines text) = Ok a
             /\ cue_disks a = [])
  /\ CueConverter.run (env_reading text) "/m/a.cue" "/m" "flac" empty_world
     = (Ok tt, add_trace empty_world [Decode "/m/a.cue" "utf-8"]).
Proof.
  cbv zeta. split; [eexists; split; reflexivity|reflexivity].
Qed.

(** C8, amended: for every sheet without file declaration whose tag lines
    can be tokenised, the parser produces an album with zero discs, whose
    header is the whole sheet, and [convert] then returns without doing
    anything and without signalling an error. *)
Theorem C8_sheet_without_disc_converts_to_nothing
    (env : Env) (src_dir dest_dir : string) (lines : list string) :
  forallb no_file lines = true ->
  forallb header_line_ok lines = true ->
  exists a,
    parse_cue_file (os_name env) lines = Ok a
    /\ cue_disks a = []
    /\ header a = lines
    /\ forall w, CueConverter.convert env src_dir dest_dir a w = (Ok tt, w).
Proof.
  intros Hnf Hok. unfold parse_cue_file.
  destruct (parse_lines_header_total (os_name env) lines new_CueAlbum
              eq_refl Hnf Hok) as [a E].
  destruct (parse_lines_header (os_name env) lines new_CueAlbum a
              eq_refl Hnf E) as [D [H _]].
  exists a. split; [exact E|]. split; [exact D|]. split; [exact H|].
  intros w. unfold CueConverter.convert. rewrite D. reflexivity.
Qed.

Lemma C8_witness :
  exists a,
    parse_cue_file Py.posix ["REM GENRE Rock"; "TITLE B"] = Ok a
    /\ CueConverter.convert sample_env "/m" "flac" a empty_world
       = (Ok tt, empty_world).
Proof.
  destruct (C8_sheet_without_disc_converts_to_nothing
              sample_env "/m" "flac" ["REM GENRE Rock"; "TITLE B"]
              eq_refl eq_refl) as [a [E [_ [_ H]]]].
  exists a. split; [exact E|apply H].
Defined.

(** ** Reading the sheet *)

Lemma add_trace_cons (w : World) (e : event) (evs : list event) :
  add_trace (add_trace w [e]) evs = add_trace w (e :: evs).
Proof. apply add_trace_add_trace. Qed.

(** C7 fails on the code when the fallback encoding is [utf-8] itself: the
    handler takes a failed read in [utf-8] for the first attempt and calls
    itself again, as often as the interpreter lets it; the error of the
    second failure is never raised. *)
Theorem C7_utf8_fallback_retries_without_end
    (env : Env) (text_file : string) (depth : nat) (w : World) :
  FileUtils.fallback_of env = Some "utf-8" ->
  read_decoded env text_file "utf-8" = None ->
  FileUtils.readTextFile env depth text_file "utf-8" w
  = (Raise RecursionError,
     add_trace w (repeat (Decode text_file "utf-8") depth)).
Proof.
  intros Hf Hr. revert w. induction depth as [|depth IH]; intros w.
  - cbn. rewrite add_trace_nil. reflexivity.
  - cbn [FileUtils.readTextFile repeat]. unfold bind at 1.
    rewrite log_add_trace, Hr, Hf. cbn [String.eqb negb].
    replace (negb ("utf-8" =? "utf-8")%string) with false by reflexivity.
    rewrite IH, add_trace_cons. reflexivity.
Qed.

Lemma C7_witness :
  FileUtils.readTextFile env_utf8_fallback 5 "/m/a.cue" "utf-8" empty_world
  = (Raise RecursionError,
     add_trace empty_world (repeat (Decode "/m/a.cue" "utf-8") 5)).
Proof.
  apply (C7_utf8_fallback_retries_without_end env_utf8_fallback "/m/a.cue" 5
           empty_world); reflexivity.
Defined.

(** X6: with a fallback encoding other than [utf-8], or with none, a
    sheet is decoded at most twice: one attempt in [utf-8]; when that
    fails with no fallback, the error that asks for one; with a fallback,
    one more attempt.  An error of that attempt that is no
    [UnicodeDecodeError] (an encoding that does not exist, UTF-16 text
    without its mark) leaves the function as it is; a
    [UnicodeDecodeError] becomes the error that names the fallback. *)
Lemma readTextFile_protocol (env : Env) (text_file : string) (depth : nat)
    (w : World) :
  FileUtils.fallback_of env <> Some "utf-8" ->
  FileUtils.readTextFile env (S (S depth)) text_file "utf-8" w =
  match read_decoded env text_file "utf-8" with
  | Some text =>
      (Ok (Py.splitlines text), add_trace w [Decode text_file "utf-8"])
  | None =>
      match FileUtils.fallback_of env with
      | None =>
          (Raise (FileUtils.no_fallback text_file),
           add_trace w [Decode text_file "utf-8"])
      | Some fallback =>
          (match decode_fault env text_file fallback with
           | Some e => Raise e
           | None =>
               match read_decoded env text_file fallback with
               | Some text => Ok (Py.splitlines text)
               | None => Raise (FileUtils.fallback_failed text_file fallback)
               end
           end,
           add_trace w [Decode text_file "utf-8"; Decode text_file fallback])
      end
  end.
Proof.
  intros Hf. cbn [FileUtils.readTextFile]. unfold bind at 1.
  rewrite log_add_trace.
  change (FileUtils.other_failure env text_file "utf-8") with (@None exn).
  destruct (read_decoded env text_file "utf-8") as [text|]; [reflexivity|].
  replace (negb ("utf-8" =? "utf-8")%string) with false by reflexivity.
  destruct (FileUtils.fallback_of env) as [fallback|]; [|reflexivity].
  unfold bind. rewrite log_add_trace, add_trace_cons.
  unfold FileUtils.other_failure.
  destruct (String.eqb fallback "utf-8") eqn:E.
  { apply String.eqb_eq in E. subst fallback. contradiction Hf. reflexivity. }
  destruct (decode_fault env text_file fallback) as [e|]; [reflexivity|].
  destruct (read_decoded env text_file fallback) as [text|]; reflexivity.
Qed.

(** A sheet that cannot be read stops the run before any disc. *)
Lemma run_stops_when_unreadable (env : Env) (cue_file src_dir dest_dir : string)
    (w w' : World) (e : exn) :
  FileUtils.readTextFile env (recursionlimit env) cue_file "utf-8" w
  = (Raise e, w') ->
  CueConverter.run env cue_file src_dir dest_dir w = (Raise e, w').
Proof. intros H. unfold CueConverter.run, bind. rewrite H. reflexivity. Qed.

(** ** Temporary files *)

Lemma lookup_remove_dir_other (ds : list (string * list dirent)) (d' d : string) :
  String.eqb d' d = false ->
  lookup_dir (remove_dir ds d') d = lookup_dir ds d.
Proof.
  intros Hne. induction ds as [|[x l] ds IH]; [reflexivity|].
  cbn [remove_dir lookup_dir].
  destruct (String.eqb x d') eqn:E1.
  - apply String.eqb_eq in E1. subst x. rewrite Hne. exact IH.
  - cbn [lookup_dir]. rewrite IH. reflexivity.
Qed.

Lemma lookup_remove_dir_same (ds : list (string * list dirent)) (d : string) :
  lookup_dir (remove_dir ds d) d = None.
Proof.
  induction ds as [|[x l] ds IH]; [reflexivity|].
  cbn [remove_dir]. destruct (String.eqb x d) eqn:E; [exact IH|].
  cbn [lookup_dir]. rewrite E. exact IH.
Qed.

Lemma under_refl (path : string) : under path path = true.
Proof. unfold under. rewrite String.eqb_refl. reflexivity. Qed.

Lemma lookup_remove_tree (ds : list (string * list dirent)) (path d : string) :
  lookup_dir (remove_tree ds path) d =
  if under path d then None else lookup_dir ds d.
Proof.
  induction ds as [|[x l] ds IH]; cbn [remove_tree filter lookup_dir fst].
  - destruct (under path d); reflexivity.
  - fold (remove_tree ds path).
    destruct (under path x) eqn:Ux; cbn [negb lookup_dir].
    + rewrite IH. destruct (String.eqb x d) eqn:E; [|reflexivity].
      apply String.eqb_eq in E. subst x. rewrite Ux. reflexivity.
    + rewrite IH. destruct (String.eqb x d) eqn:E; [|reflexivity].
      apply String.eqb_eq in E. subst x. rewrite Ux. reflexivity.
Qed.

Lemma lookup_remove_tree_same (ds : list (string * list dirent)) (d : string) :
  lookup_dir (remove_tree ds d) d = None.
Proof. rewrite lookup_remove_tree, under_refl. reflexivity. Qed.

Lemma frame_ret (d : string) {A} (a : A) : frame d (ret a).
Proof. intros w. cbn. auto. Qed.

Lemma frame_raise (d : string) {A} (e : exn) : frame d (@raise A e).
Proof. intros w. cbn. auto. Qed.

Lemma frame_lift (d : string) {A} (r : result A) : frame d (lift r).
Proof. intros w. cbn. auto. Qed.

Lemma frame_log (d : string) (e : event) : frame d (log e).
Proof. intros w. cbn. auto. Qed.

Lemma frame_listing (d x : string) : frame d (listing x).
Proof. intros w. unfold listing. destruct (lookup_dir (dirs w) x); cbn; auto. Qed.

Lemma frame_listdir (d x : string) : frame d (listdir x).
Proof. intros w. unfold listdir. destruct (lookup_dir (dirs w) x); cbn; auto. Qed.

Lemma frame_set_dir (d x : string) (l : list dirent) : frame d (set_dir x l).
Proof.
  intros w. cbn. split; [reflexivity|]. intros H.
  destruct (String.eqb x d) eqn:E; [discriminate|].
  rewrite (lookup_remove_dir_other _ _ _ E). exact H.
Qed.

Lemma frame_bind (d : string) {A B} (m : M A) (k : A -> M B) :
  frame d m -> (forall a, frame d (k a)) -> frame d (bind m k).
Proof.
  intros Hm Hk w. unfold bind. destruct (Hm w) as [F1 D1].
  destruct (m w) as [[a|e] w1]; cbn [snd] in *; [|auto].
  destruct (Hk a w1) as [F2 D2]. split; [congruence|auto].
Qed.

Lemma frame_tag_files (d files_dir : string) (cue_album : CueAlbum)
    (disc_id : nat) :
  frame d (CueToFlacTagUtils.tag_files files_dir cue_album disc_id).
Proof.
  unfold CueToFlacTagUtils.tag_files.
  apply frame_bind; [apply frame_listing|]. intros l.
  generalize 0. induction (CueToFlacTagUtils.sorted_files files_dir l)
    as [|f fs IH]; intros j; cbn [CueToFlacTagUtils.tag_each].
  - apply frame_ret.
  - apply frame_bind; [|intros _; apply IH].
    unfold CueToFlacTagUtils.tag_single_file.
    apply frame_bind; [apply frame_lift|]. intros cmd. apply frame_log.
Qed.

Lemma frame_remove_pregap_files (d temp_dir : string) :
  frame d (CueConverter.remove_pregap_files temp_dir).
Proof.
  unfold CueConverter.remove_pregap_files.
  apply frame_bind; [apply frame_listing|]. intros l.
  apply frame_bind; [|intros _; apply frame_set_dir].
  induction (filter is_pregap l) as [|e es IH]; cbn [CueConverter.remove_each].
  - apply frame_ret.
  - apply frame_bind; [apply frame_log|]. intros _. exact IH.
Qed.

Lemma frame_move_to_newdir (d : string) (env : Env) (src_dir dest_dir : string) :
  frame d (FileUtils.move_to_newdir env src_dir dest_dir).
Proof.
  unfold FileUtils.move_to_newdir.
  apply frame_bind; [intros w; cbn; auto|]. intros ex.
  destruct (ex && isfile env dest_dir); [apply frame_raise|].
  apply frame_bind;
    [destruct (negb ex); [apply frame_log|apply frame_ret]|]. intros _.
  apply frame_bind; [apply frame_listdir|]. intros names.
  apply frame_bind; [|intros _; apply frame_set_dir].
  induction names as [|e es IH]; cbn [FileUtils.move_all].
  - apply frame_ret.
  - apply frame_bind; [apply frame_log|]. intros _. exact IH.
Qed.

Lemma frame_try_body (d : string) (env : Env) (dest_dir : string)
    (cue_album : CueAlbum) (cue_disc_id : nat) (cue_disc : CueDisc)
    (temp_cue music temp_dir : string) (n : nat) :
  frame d (CueConverter.try_body env dest_dir cue_album cue_disc_id cue_disc
             temp_cue music temp_dir n).
Proof.
  unfold CueConverter.try_body.
  apply frame_bind.
  { unfold CueConverter.split_file_by_cue_sheet.
    apply frame_bind; [apply frame_log|]. intros _. apply frame_set_dir. }
  intros _. apply frame_bind; [apply frame_remove_pregap_files|].
  intros _. apply frame_bind; [apply frame_tag_files|].
  intros _. apply frame_bind; [apply frame_move_to_newdir|].
  intros _. apply frame_ret.
Qed.

(** Whenever the temporary sheet could be written, with some content,
    and the disc names its audio file, a turn of the loop ends (whether it returns
    or raises, after the splitter, the tagger or the move) with the sheet
    removed, and with the output directory removed unless the directories
    are kept for debugging. *)
Lemma convert_disc_cleans_up (env : Env) (src_dir dest_dir : string)
    (cue_album : CueAlbum) (cue_disc_id : nat) (cue_disc : CueDisc)
    (n : nat) (temp_dir : option string) (w : World) (name : string) :
  write_fault env (fresh w) = None ->
  CueConverter.temp_cue_bytes (os_name env)
    (header cue_album ++ cue_context cue_disc) <> EmptyString ->
  music_file_name cue_disc = Some name ->
  let temp_cue := temp_cue_name env (fresh w) ++ ".cue" in
  let d := Py.path_join src_dir
             ("cueconvert_" ++ temp_dir_name env (S (fresh w))) in
  let w' := snd (CueConverter.convert_disc env src_dir dest_dir cue_album
                   cue_disc_id cue_disc n temp_dir w) in
  ~ In temp_cue (files w')
  /\ (args_debug env = false -> lookup_dir (dirs w') d = None)
  /\ (args_debug env = true -> lookup_dir (dirs w') d <> None).
Proof.
  intros Hw Hb Hn temp_cue d w'. subst w'.
  unfold CueConverter.convert_disc, CueConverter.create_temp_cue_file.
  cbv zeta. rewrite Hw.
  destruct (CueConverter.temp_cue_bytes (os_name env)
              (header cue_album ++ cue_context cue_disc)) as [|b bs];
    [contradiction|].
  fold temp_cue. unfold CueConverter.try_block. rewrite Hn.
  unfold mkdtemp. cbn [fresh files dirs trace]. fold d.
  match goal with |- context [CueConverter.try_body _ _ _ _ _ _ _ _ _ ?w0] =>
    set (w2 := w0) end.
  destruct (frame_try_body d env dest_dir cue_album cue_disc_id cue_disc
              temp_cue (Py.path_join src_dir name) d n w2) as [F D].
  destruct (CueConverter.try_body env dest_dir cue_album cue_disc_id cue_disc
              temp_cue (Py.path_join src_dir name) d n w2) as [r w3].
  cbn [snd] in F, D.
  assert (D3 : lookup_dir (dirs w3) d <> None).
  { apply D. subst w2. cbn [dirs lookup_dir]. rewrite String.eqb_refl.
    discriminate. }
  unfold CueConverter.finally_block, bind, os_remove.
  rewrite F. subst w2. cbn [files existsb]. rewrite String.eqb_refl.
  cbn [orb].
  assert (Hnot : forall l, ~ In temp_cue
            (filter (fun f => negb (String.eqb temp_cue f)) l)).
  { intros l Hin. apply filter_In in Hin. destruct Hin as [_ Hin].
    rewrite String.eqb_refl in Hin. discriminate. }
  destruct (args_debug env); cbn [negb].
  - cbn [ret snd files dirs]. split; [apply Hnot|]. split; [discriminate|auto].
  - unfold rmtree. cbn [dirs files trace fresh].
    destruct (lookup_dir (dirs w3) d) as [l|]; [|contradiction].
    cbn [snd files dirs]. split; [apply Hnot|].
    split; [intros _; apply lookup_remove_tree_same|discriminate].
Qed.

(** ** The discs of a parsed album *)

Lemma get_last_disc_snoc (a : CueAlbum) (l : list CueDisc) (d : CueDisc) :
  cue_disks a = (l ++ [d])%list -> get_last_disc a = Ok d.
Proof.
  intros H. unfold get_last_disc. rewrite H, rev_app_distr. reflexivity.
Qed.

Lemma append_to_cue_context_spec (d d' : CueDisc) (line : string) :
  append_to_cue_context d line = Ok d' ->
  cue_context d' = (cue_context d ++ [line])%list
  /\ music_file_name d' = music_file_name d.
Proof.
  unfold append_to_cue_context, _populate_title_tag. intros H.
  destruct (Re.match_indented_title line) as [g|].
  - destruct (first_token g); [|discriminate].
    cbn [rbind] in H. inversion H. auto.
  - inversion H. auto.
Qed.

Lemma disc_ok_after_append (d d' : CueDisc) (line : string) (name : string) :
  music_file_name d = Some name ->
  append_to_cue_context d line = Ok d' -> disc_ok d' = true.
Proof.
  intros Hn H. destruct (append_to_cue_context_spec d d' line H) as [C N].
  unfold disc_ok. rewrite C, N, Hn.
  destruct (cue_context d); reflexivity.
Qed.

Lemma forallb_snoc {A} (f : A -> bool) (l : list A) (x : A) :
  forallb f (l ++ [x]) = forallb f l && f x.
Proof. rewrite forallb_app. cbn. rewrite andb_true_r. reflexivity. Qed.

Lemma parse_line_discs_ok (o : Py.os_name) (a a' : CueAlbum) (line : string) :
  forallb disc_ok (cue_disks a) = true ->
  parse_line o a line = Ok a' ->
  forallb disc_ok (cue_disks a') = true.
Proof.
  intros Hok H. unfold parse_line in H.
  destruct (Py.startswith line "FILE ") eqn:Ef.
  - destruct (Shlex.split line) as [ts|]; [|discriminate].
    cbn [rbind] in H.
    destruct (Shlex.item ts 1) as [name|]; [|discriminate].
    cbn [rbind] in H.
    rewrite (get_last_disc_snoc (append_cue_disc a new_CueDisc)
               (cue_disks a) new_CueDisc eq_refl) in H.
    cbn [rbind] in H.
    set (d0 := mkCueDisc (titles_tags new_CueDisc) (cue_context new_CueDisc)
                 (Some name)) in *.
    set (a1 := set_last_disc (append_cue_disc a new_CueDisc) d0) in *.
    assert (E1 : cue_disks a1 = (cue_disks a ++ [d0])%list).
    { subst a1. cbn [set_last_disc append_cue_disc cue_disks].
      rewrite removelast_last. reflexivity. }
    rewrite E1 in H. rewrite length_app in H. cbn [List.length] in H.
    replace (0 <? List.length (cue_disks a) + 1)%nat with true in H
      by (symmetry; apply Nat.ltb_lt; lia).
    rewrite (get_last_disc_snoc a1 (cue_disks a) d0 E1) in H.
    cbn [rbind] in H.
    destruct (append_to_cue_context d0 (fix_time_format o line)) as [d2|] eqn:E2;
      [|discriminate].
    cbn [rbind] in H. inversion H; subst a'.
    cbn [set_last_disc cue_disks]. rewrite E1, removelast_last, forallb_snoc.
    rewrite Hok, (disc_ok_after_append d0 d2 _ name eq_refl E2). reflexivity.
  - cbn [rbind] in H.
    destruct (cue_disks a) as [|x l] eqn:E.
    + cbn [List.length Nat.ltb Nat.leb] in H.
      destruct (append_line_to_header_spec a a' line H) as [D _].
      rewrite D, E. reflexivity.
    + cbn [List.length Nat.ltb Nat.leb] in H.
      destruct (@exists_last _ (x :: l) ltac:(discriminate)) as [l' [d0 El]].
      rewrite El in Hok. rewrite forallb_snoc in Hok.
      apply andb_true_iff in Hok. destruct Hok as [Hl' Hd0].
      assert (E1 : cue_disks a = (l' ++ [d0])%list) by congruence.
      rewrite (get_last_disc_snoc a l' d0 E1) in H. cbn [rbind] in H.
      destruct (append_to_cue_context d0 (fix_time_format o line)) as [d2|] eqn:E2;
        [|discriminate].
      cbn [rbind] in H. inversion H; subst a'.
      cbn [set_last_disc cue_disks]. rewrite E1, removelast_last, forallb_snoc.
      rewrite Hl'. cbn [andb].
      unfold disc_ok in Hd0.
      destruct (music_file_name d0) as [name|] eqn:En;
        [|destruct (cue_context d0); discriminate].
      exact (disc_ok_after_append d0 d2 _ name En E2).
Qed.

(** Every disc of a parsed album holds its file declaration and names its
    file. *)
Lemma parsed_discs_ok (o : Py.os_name) (lines : list string) (a : CueAlbum) :
  parse_cue_file o lines = Ok a -> forallb disc_ok (cue_disks a) = true.
Proof.
  unfold parse_cue_file.
  assert (G : forall a0, forallb disc_ok (cue_disks a0) = true ->
                parse_lines o a0 lines = Ok a ->
                forallb disc_ok (cue_disks a) = true).
  { induction lines as [|x l IH]; intros a0 H0 H.
    - inversion H; subst. exact H0.
    - cbn [parse_lines] in H.
      destruct (parse_line o a0 x) as [a1|] eqn:E; [|discriminate].
      cbn [rbind] in H.
      exact (IH a1 (parse_line_discs_ok o a0 a1 x H0 E) H). }
  apply G. reflexivity.
Qed.

(** So the sheet written for a disc of a parsed album is never empty: the
    defensive check cannot fire on what the parser produces. *)
Lemma parsed_disc_sheet_not_empty (o : Py.os_name) (hdr : list string)
    (d : CueDisc) :
  disc_ok d = true ->
  CueConverter.temp_cue_bytes o (hdr ++ cue_context d) <> EmptyString.
Proof.
  unfold disc_ok. intros H.
  destruct (cue_context d) as [|x l]; [discriminate|].
  rewrite temp_cue_bytes_app. cbn [CueConverter.temp_cue_bytes].
  rewrite encode_utf8_linesep. intros E.
  apply (f_equal String.length) in E.
  rewrite !length_append in E. destruct o; cbn in E; lia.
Qed.

(** For the discs of a parsed album every exit of a turn of the loop
    cleans up, once the temporary sheet could be written. *)
Lemma convert_disc_of_parsed_cleans_up (env : Env) (src_dir dest_dir : string)
    (lines : list string) (cue_album : CueAlbum) (cue_disc_id : nat)
    (cue_disc : CueDisc) (n : nat) (temp_dir : option string) (w : World) :
  parse_cue_file (os_name env) lines = Ok cue_album ->
  In cue_disc (cue_disks cue_album) ->
  write_fault env (fresh w) = None ->
  let temp_cue := temp_cue_name env (fresh w) ++ ".cue" in
  let d := Py.path_join src_dir
             ("cueconvert_" ++ temp_dir_name env (S (fresh w))) in
  let w' := snd (CueConverter.convert_disc env src_dir dest_dir cue_album
                   cue_disc_id cue_disc n temp_dir w) in
  ~ In temp_cue (files w')
  /\ (args_debug env = false -> lookup_dir (dirs w') d = None)
  /\ (args_debug env = true -> lookup_dir (dirs w') d <> None).
Proof.
  intros Hp Hin Hw.
  pose proof (parsed_discs_ok _ _ _ Hp) as Hall.
  rewrite forallb_forall in Hall. specialize (Hall cue_disc Hin).
  assert (Hn : exists name, music_file_name cue_disc = Some name).
  { unfold disc_ok in Hall. destruct (music_file_name cue_disc) as [name|].
    - eauto.
    - destruct (cue_context cue_disc); discriminate. }
  destruct Hn as [name Hn].
  apply (convert_disc_cleans_up env src_dir dest_dir cue_album cue_disc_id
           cue_disc n temp_dir w name); [exact Hw| |exact Hn].
  apply parsed_disc_sheet_not_empty. exact Hall.
Qed.

(** C6 fails on the code when writing the temporary sheet raises: the
    file is made, and kept, before the [try] statement begins, so when
    [encode] or [write] raises, nothing removes it.  The conversion of the
    sheet ends with that error at the first disc, the file stays behind, no
    [Remove] is traced and no directory is made or removed.  This is what
    happens to a sheet that is read with the fallback [unicode_escape] and
    holds a lone surrogate, which UTF-8 cannot encode. *)
Theorem C6_unwritten_temp_sheet_is_left_behind
    (env : Env) (src_dir dest_dir : string) (lines : list string)
    (cue_album : CueAlbum) (w : World) (e : exn) :
  parse_cue_file (os_name env) lines = Ok cue_album ->
  cue_disks cue_album <> [] ->
  write_fault env (fresh w) = Some e ->
  let temp_cue := temp_cue_name env (fresh w) ++ ".cue" in
  let run := CueConverter.convert env src_dir dest_dir cue_album w in
  fst run = Raise e
  /\ files (snd run) = temp_cue :: files w
  /\ trace (snd run) = trace w
  /\ dirs (snd run) = dirs w.
Proof.
  intros _ Hd Hw. cbv zeta. unfold CueConverter.convert.
  destruct (cue_disks cue_album) as [|disc rest]; [contradiction|].
  cbn [CueConverter.convert_loop].
  unfold CueConverter.convert_disc, CueConverter.create_temp_cue_file.
  cbv zeta. rewrite Hw. cbn [fst snd files trace dirs]. auto.
Qed.

Lemma C6_witness :
  let lines := ["FILE a.wav WAVE"; "  TRACK 01 AUDIO"; "    TITLE One"] in
  exists a,
    parse_cue_file Py.posix lines = Ok a
    /\ fst (CueConverter.convert unwritable_env "/m" "flac" a empty_world)
       = Raise (UnicodeEncodeError "surrogates not allowed")
    /\ files (snd (CueConverter.convert unwritable_env "/m" "flac" a
                     empty_world))
       = ["/tmp/tmp0.cue"]
    /\ trace (snd (CueConverter.convert unwritable_env "/m" "flac" a
                     empty_world))
       = [].
Proof.
  cbv zeta. eexists. split; [reflexivity|].
  destruct (C6_unwritten_temp_sheet_is_left_behind unwritable_env "/m" "flac"
              ["FILE a.wav WAVE"; "  TRACK 01 AUDIO"; "    TITLE One"] _
              empty_world (UnicodeEncodeError "surrogates not allowed")
              eq_refl)
    as [R [F [T _]]].
  - discriminate.
  - reflexivity.
  - split; [exact R|]. split; [exact F|exact T].
Defined.

(** ** The shape of a parsed album *)

Lemma title_values_app (l1 l2 : list string) :
  title_values (l1 ++ l2) = (title_values l1 ++ title_values l2)%list.
Proof.
  induction l1 as [|x l IH]; [reflexivity|].
  cbn [app title_values]. destruct (Re.match_indented_title x);
    rewrite IH; reflexivity.
Qed.

Lemma append_to_cue_context_titles (d d' : CueDisc) (line : string) :
  append_to_cue_context d line = Ok d' ->
  cue_context d' = (cue_context d ++ [line])%list
  /\ music_file_name d' = music_file_name d
  /\ map Ok (titles_tags d') = (map Ok (titles_tags d) ++ title_values [line])%list.
Proof.
  unfold append_to_cue_context, _populate_title_tag. intros H.
  cbn [title_values].
  destruct (Re.match_indented_title line) as [g|].
  - destruct (first_token g) as [t|]; [|discriminate].
    cbn [rbind] in H. inversion H. cbn [titles_tags cue_context music_file_name].
    rewrite map_app. auto.
  - inversion H. cbn [titles_tags cue_context music_file_name].
    rewrite app_nil_r. auto.
Qed.

(** What one line does to the album: a file declaration opens a disc that
    holds it; any other line goes to the open disc when there is one and to
    the header otherwise. *)
Lemma parse_line_shape (o : Py.os_name) (a a' : CueAlbum) (line : string) :
  parse_line o a line = Ok a' ->
  if Py.startswith line "FILE " then
    header a' = header a
    /\ exists d, cue_disks a' = (cue_disks a ++ [d])%list
                 /\ cue_context d = [fix_time_format o line]
                 /\ map Ok (titles_tags d) = title_values [fix_time_format o line]
                 /\ exists ts name, Shlex.split line = Ok ts
                                    /\ nth_error ts 1 = Some name
                                    /\ music_file_name d = Some name
  else
    match rev (cue_disks a) with
    | [] => header a' = (header a ++ [line])%list /\ cue_disks a' = []
    | d0 :: before =>
        header a' = header a
        /\ exists d, cue_disks a' = (rev before ++ [d])%list
                     /\ cue_context d
                        = (cue_context d0 ++ [fix_time_format o line])%list
                     /\ map Ok (titles_tags d)
                        = (map Ok (titles_tags d0)
                           ++ title_values [fix_time_format o line])%list
                     /\ music_file_name d = music_file_name d0
    end.
Proof.
  intros H. unfold parse_line in H.
  destruct (Py.startswith line "FILE ") eqn:Ef.
  - destruct (Shlex.split line) as [ts|] eqn:Es; [|discriminate].
    cbn [rbind] in H. unfold Shlex.item in H.
    destruct (nth_error ts 1) as [name|] eqn:En; [|discriminate].
    cbn [rbind] in H.
    rewrite (get_last_disc_snoc (append_cue_disc a new_CueDisc)
               (cue_disks a) new_CueDisc eq_refl) in H.
    cbn [rbind] in H.
    set (d0 := mkCueDisc (titles_tags new_CueDisc) (cue_context new_CueDisc)
                 (Some name)) in *.
    set (a1 := set_last_disc (append_cue_disc a new_CueDisc) d0) in *.
    assert (E1 : cue_disks a1 = (cue_disks a ++ [d0])%list).
    { subst a1. cbn [set_last_disc append_cue_disc cue_disks].
      rewrite removelast_last. reflexivity. }
    rewrite E1 in H. rewrite length_app in H. cbn [List.length] in H.
    replace (0 <? List.length (cue_disks a) + 1)%nat with true in H
      by (symmetry; apply Nat.ltb_lt; lia).
    rewrite (get_last_disc_snoc a1 (cue_disks a) d0 E1) in H.
    cbn [rbind] in H.
    destruct (append_to_cue_context d0 (fix_time_format o line)) as [d2|] eqn:E2;
      [|discriminate].
    cbn [rbind] in H. inversion H; subst a'.
    destruct (append_to_cue_context_titles d0 d2 _ E2) as [C [N T]].
    split; [reflexivity|]. exists d2.
    cbn [set_last_disc cue_disks]. rewrite E1, removelast_last.
    split; [reflexivity|]. split; [exact C|]. split; [exact T|].
    exists ts, name. rewrite N. auto.
  - cbn [rbind] in H.
    destruct (rev (cue_disks a)) as [|d0 before] eqn:Er.
    + assert (E : cue_disks a = []).
      { rewrite <- (rev_involutive (cue_disks a)), Er. reflexivity. }
      rewrite E in H. cbn [List.length Nat.ltb Nat.leb] in H.
      destruct (append_line_to_header_spec a a' line H) as [D [Hh _]].
      split; [exact Hh|congruence].
    + assert (E : cue_disks a = (rev before ++ [d0])%list).
      { rewrite <- (rev_involutive (cue_disks a)), Er. reflexivity. }
      rewrite E, length_app in H. cbn [List.length] in H.
      replace (0 <? List.length (rev before) + 1)%nat with true in H
        by (symmetry; apply Nat.ltb_lt; lia).
      rewrite (get_last_disc_snoc a (rev before) d0 E) in H.
      cbn [rbind] in H.
      destruct (append_to_cue_context d0 (fix_time_format o line)) as [d2|] eqn:E2;
        [|discriminate].
      cbn [rbind] in H. inversion H; subst a'.
      destruct (append_to_cue_context_titles d0 d2 _ E2) as [C [N T]].
      split; [reflexivity|]. exists d2.
      cbn [set_last_disc cue_disks]. rewrite E, removelast_last. auto.
Qed.

Lemma parse_lines_shape_disc (o : Py.os_name) (lines : list string) :
  forall a a' before d0,
    cue_disks a = (before ++ [d0])%list ->
    parse_lines o a lines = Ok a' ->
    header a' = header a
    /\ map cue_context (cue_disks a')
       = (map cue_context before
          ++ (cue_context d0 ++ map (fix_time_format o) (until_file lines))
             :: map (map (fix_time_format o)) (segments lines))%list.
Proof.
  induction lines as [|line rest IH]; intros a a' before d0 Hd H.
  - inversion H; subst a'. split; [reflexivity|].
    rewrite Hd, map_app. cbn. rewrite app_nil_r. reflexivity.
  - cbn [parse_lines] in H.
    destruct (parse_line o a line) as [a1|] eqn:E; [|discriminate].
    cbn [rbind] in H.
    pose proof (parse_line_shape o a a1 line E) as S.
    cbn [until_file segments].
    destruct (Py.startswith line "FILE ").
    + destruct S as [Hh [d [Hc [Cd _]]]].
      rewrite Hd in Hc.
      destruct (IH a1 a' (before ++ [d0])%list d Hc H) as [Hh' Hm].
      split; [congruence|].
      rewrite Hm, Cd, map_app. cbn [map app]. rewrite <- app_assoc.
      cbn [app]. rewrite app_nil_r. reflexivity.
    + rewrite Hd, rev_app_distr in S. cbn [rev app] in S.
      destruct S as [Hh [d [Hc [Cd _]]]].
      rewrite rev_involutive in Hc.
      destruct (IH a1 a' before d Hc H) as [Hh' Hm].
      split; [congruence|].
      rewrite Hm, Cd. cbn [map]. rewrite <- app_assoc. reflexivity.
Qed.

Lemma parse_lines_shape_header (o : Py.os_name) (lines : list string) :
  forall a a',
    cue_disks a = [] ->
    parse_lines o a lines = Ok a' ->
    header a' = (header a ++ header_part lines)%list
    /\ map cue_context (cue_disks a')
       = map (map (fix_time_format o)) (segments lines).
Proof.
  induction lines as [|line rest IH]; intros a a' Hd H.
  - inversion H; subst a'. rewrite app_nil_r, Hd. auto.
  - cbn [parse_lines] in H.
    destruct (parse_line o a line) as [a1|] eqn:E; [|discriminate].
    cbn [rbind] in H.
    pose proof (parse_line_shape o a a1 line E) as S.
    cbn [header_part segments].
    destruct (Py.startswith line "FILE ").
    + destruct S as [Hh [d [Hc [Cd _]]]]. rewrite Hd in Hc.
      destruct (parse_lines_shape_disc o rest a1 a' [] d Hc H) as [Hh' Hm].
      rewrite app_nil_r. split; [congruence|].
      rewrite Hm, Cd. reflexivity.
    + rewrite Hd in S. cbn [rev] in S. destruct S as [Hh Hc].
      destruct (IH a1 a' Hc H) as [Hh' Hm].
      split; [|exact Hm]. rewrite Hh', Hh, <- app_assoc. reflexivity.
Qed.

Lemma segments_length (lines : list string) :
  List.length (segments lines)
  = List.length (filter (fun l => Py.startswith l "FILE ") lines).
Proof.
  induction lines as [|line rest IH]; [reflexivity|].
  cbn [segments filter]. destruct (Py.startswith line "FILE "); cbn; auto.
Qed.

(** X1: A parsed album is the sheet cut at its file declarations: the header
    holds the lines before the first declaration as they are, there is one
    disc per declaration, in order, and a disc holds its declaration and
    the lines up to the next one, each passed through the time-format
    correction. *)
Theorem parsed_album_is_the_sheet_cut_at_file_lines
    (o : Py.os_name) (lines : list string) (a : CueAlbum) :
  parse_cue_file o lines = Ok a ->
  header a = header_part lines
  /\ map cue_context (cue_disks a)
     = map (map (fix_time_format o)) (segments lines)
  /\ List.length (cue_disks a)
     = List.length (filter (fun l => Py.startswith l "FILE ") lines).
Proof.
  intros H. unfold parse_cue_file in H.
  destruct (parse_lines_shape_header o lines new_CueAlbum a eq_refl H)
    as [Hh Hm].
  split; [exact Hh|]. split; [exact Hm|].
  rewrite <- segments_length.
  rewrite <- (length_map cue_context), Hm, length_map. reflexivity.
Qed.

Lemma parsed_album_is_the_sheet_cut_at_file_lines_witness :
  exists a,
    parse_cue_file Py.posix
      ["REM x"; "FILE a.wav WAVE"; "  INDEX 01 00:00:00"; "FILE b.wav WAVE"]
    = Ok a
    /\ header a = ["REM x"]
    /\ map cue_context (cue_disks a)
       = [["FILE a.wav WAVE"; "  INDEX 01 00:00:000" ++ Py.linesep Py.posix];
          ["FILE b.wav WAVE"]].
Proof.
  eexists. split; [reflexivity|].
  destruct (parsed_album_is_the_sheet_cut_at_file_lines Py.posix
              ["REM x"; "FILE a.wav WAVE"; "  INDEX 01 00:00:00";
               "FILE b.wav WAVE"] _ eq_refl) as [Hh [Hm _]].
  split; [exact Hh|exact Hm].
Defined.

Lemma parse_line_titles (o : Py.os_name) (a a' : CueAlbum) (line : string) :
  Forall (fun d => map Ok (titles_tags d) = title_values (cue_context d))
         (cue_disks a) ->
  parse_line o a line = Ok a' ->
  Forall (fun d => map Ok (titles_tags d) = title_values (cue_context d))
         (cue_disks a').
Proof.
  intros Hall H. pose proof (parse_line_shape o a a' line H) as S.
  destruct (Py.startswith line "FILE ").
  - destruct S as [_ [d [Hc [Cd [Td _]]]]].
    rewrite Hc. apply Forall_app. split; [exact Hall|].
    constructor; [|constructor]. rewrite Cd. exact Td.
  - destruct (rev (cue_disks a)) as [|d0 before] eqn:Er.
    + destruct S as [_ Hc]. rewrite Hc. constructor.
    + assert (E : cue_disks a = (rev before ++ [d0])%list).
      { rewrite <- (rev_involutive (cue_disks a)), Er. reflexivity. }
      rewrite E in Hall. apply Forall_app in Hall. destruct Hall as [Hb H0].
      inversion H0 as [|? ? P0 _]; subst.
      destruct S as [_ [d [Hc [Cd [Td _]]]]].
      rewrite Hc. apply Forall_app. split; [exact Hb|].
      constructor; [|constructor].
      rewrite Td, Cd, title_values_app, P0. reflexivity.
Qed.

(** X2: The titles of a disc are the first tokens of its title lines, in
    order: a disc has as many titles as its lines match the title pattern,
    and every such line gave a token. *)
Theorem parsed_titles_are_the_title_lines
    (o : Py.os_name) (lines : list string) (a : CueAlbum) :
  parse_cue_file o lines = Ok a ->
  Forall (fun d =>
            map Ok (titles_tags d) = title_values (cue_context d)
            /\ List.length (titles_tags d)
               = List.length (title_values (cue_context d)))
         (cue_disks a).
Proof.
  unfold parse_cue_file. intros H.
  assert (G : forall l a0,
             Forall (fun d => map Ok (titles_tags d)
                              = title_values (cue_context d)) (cue_disks a0) ->
             parse_lines o a0 l = Ok a ->
             Forall (fun d => map Ok (titles_tags d)
                              = title_values (cue_context d)) (cue_disks a)).
  { induction l as [|x l IH]; intros a0 H0 Hp.
    - inversion Hp; subst. exact H0.
    - cbn [parse_lines] in Hp.
      destruct (parse_line o a0 x) as [a1|] eqn:E; [|discriminate].
      cbn [rbind] in Hp.
      exact (IH a1 (parse_line_titles o a0 a1 x H0 E) Hp). }
  specialize (G lines new_CueAlbum (Forall_nil _) H).
  eapply Forall_impl; [|exact G].
  intros d Hd. split; [exact Hd|].
  rewrite <- Hd, length_map. reflexivity.
Qed.

Lemma parsed_titles_are_the_title_lines_witness :
  exists a,
    parse_cue_file Py.posix
      ["FILE a.wav WAVE"; "    TITLE One"; "  TRACK 02 AUDIO"; "    TITLE Two"]
    = Ok a
    /\ Forall (fun d =>
                 map Ok (titles_tags d) = title_values (cue_context d)
                 /\ List.length (titles_tags d)
                    = List.length (title_values (cue_context d)))
              (cue_disks a).
Proof.
  eexists. split; [reflexivity|].
  apply (parsed_titles_are_the_title_lines Py.posix
           ["FILE a.wav WAVE"; "    TITLE One"; "  TRACK 02 AUDIO";
            "    TITLE Two"]).
  reflexivity.
Defined.

(** ** Quoted and unquoted values *)

Lemma read_tokens_in_dquote (s rest : string) :
  plain_quoted s = true ->
  forall es q tok,
    Shlex.read_tokens (Shlex.in_quote Py.dquote) es q tok
                      (s ++ String Py.dquote rest)
    = Shlex.read_tokens Shlex.in_word es true (tok ++ s) rest.
Proof.
  induction s as [|c r IH]; intros Hp es q tok.
  - cbn. rewrite append_nil_r. reflexivity.
  - cbn [plain_quoted] in Hp.
    apply andb_true_iff in Hp. destruct Hp as [Hp Hr].
    apply andb_true_iff in Hp. destruct Hp as [Hq Hb].
    apply negb_true_iff in Hq. apply negb_true_iff in Hb.
    cbn [append Shlex.read_tokens]. rewrite Hq.
    unfold Shlex.escape. rewrite Hb. cbn [andb].
    rewrite (IH Hr). rewrite append_assoc. reflexivity.
Qed.

Lemma read_tokens_word (w rest : string) :
  plain_word w = true ->
  forall es q tok,
    Shlex.read_tokens Shlex.in_word es q tok (w ++ rest)
    = Shlex.read_tokens Shlex.in_word es q (tok ++ w) rest.
Proof.
  induction w as [|c r IH]; intros Hp es q tok.
  - cbn. rewrite append_nil_r. reflexivity.
  - cbn [plain_word] in Hp.
    apply andb_true_iff in Hp. destruct Hp as [Hp Hr].
    apply andb_true_iff in Hp. destruct Hp as [Hp He].
    apply andb_true_iff in Hp. destruct Hp as [Hw Hq].
    apply negb_true_iff in Hw. apply negb_true_iff in Hq.
    apply negb_true_iff in He.
    cbn [append Shlex.read_tokens]. rewrite Hw, Hq, He.
    rewrite (IH Hr). rewrite append_assoc. reflexivity.
Qed.

Lemma split_dquoted_then (v tail : string) (ts : list string) :
  plain_quoted v = true ->
  Shlex.split tail = Ok ts ->
  Shlex.split (dquoted v ++ " " ++ tail) = Ok (v :: ts).
Proof.
  intros Hv Ht. unfold Shlex.split, dquoted in *.
  cbn [append Shlex.read_tokens].
  replace (Shlex.whitespace Py.dquote) with false by reflexivity.
  replace (Shlex.escape Py.dquote) with false by reflexivity.
  replace (Shlex.quotes Py.dquote) with true by reflexivity.
  change (String Py.dquote EmptyString ++ String " " tail)
    with (String Py.dquote (String " " tail)).
  unfold Py.chr. rewrite append_assoc. cbn [append].
  rewrite (read_tokens_in_dquote v _ Hv).
  cbn [append Shlex.read_tokens].
  replace (Shlex.whitespace " ") with true by reflexivity.
  rewrite orb_true_r. cbn [Shlex.finish_token negb andb].
  rewrite Ht. reflexivity.
Qed.

Lemma split_dquoted (v : string) :
  plain_quoted v = true -> Shlex.split (dquoted v) = Ok [v].
Proof.
  intros Hv. unfold Shlex.split, dquoted.
  cbn [Shlex.read_tokens].
  replace (Shlex.whitespace Py.dquote) with false by reflexivity.
  replace (Shlex.escape Py.dquote) with false by reflexivity.
  replace (Shlex.quotes Py.dquote) with true by reflexivity.
  unfold Py.chr. rewrite (read_tokens_in_dquote v _ Hv).
  reflexivity.
Qed.

Lemma split_word_then (w tail : string) (ts : list string) :
  plain_word w = true -> w <> EmptyString ->
  Shlex.split tail = Ok ts ->
  Shlex.split (w ++ " " ++ tail) = Ok (w :: ts).
Proof.
  intros Hw Hne Ht. unfold Shlex.split in *.
  destruct w as [|c r]; [contradiction|].
  cbn [plain_word] in Hw.
  apply andb_true_iff in Hw. destruct Hw as [Hw Hr].
  apply andb_true_iff in Hw. destruct Hw as [Hw He].
  apply andb_true_iff in Hw. destruct Hw as [Hs Hq].
  apply negb_true_iff in Hs. apply negb_true_iff in Hq.
  apply negb_true_iff in He.
  cbn [append Shlex.read_tokens]. rewrite Hs, He, Hq.
  rewrite (read_tokens_word r _ Hr).
  cbn [append Shlex.read_tokens].
  replace (Shlex.whitespace " ") with true by reflexivity.
  cbn [Py.chr append Shlex.nonempty orb Shlex.finish_token negb andb].
  rewrite Ht. reflexivity.
Qed.

Lemma dot_star_eol_no_LF (s : string) :
  no_LF s = true -> Re.dot_star_eol s = Some s.
Proof.
  induction s as [|c r IH]; intros H; [reflexivity|].
  cbn [no_LF] in H. apply andb_true_iff in H. destruct H as [Hc Hr].
  apply negb_true_iff in Hc. cbn [Re.dot_star_eol]. rewrite Hc, (IH Hr).
  reflexivity.
Qed.

Lemma match_keyword_value (kw value : string) :
  no_LF value = true -> Re.match_keyword kw (kw ++ value) = Some value.
Proof.
  intros H. unfold Re.match_keyword.
  rewrite prefix_app, drop_length_app. apply dot_star_eol_no_LF, H.
Qed.

Lemma keyword_value_not_file (t : header_tag) (value : string) :
  Py.startswith (keyword_of t ++ value) "FILE " = false.
Proof.
  unfold Py.startswith. destruct t; cbn [keyword_of append];
    rewrite prefix_cons; reflexivity.
Qed.

(** A header line made of a keyword and a value: the tag of the keyword
    takes the first token of the value, and the two other tags stay. *)
Lemma append_keyword_line (a : CueAlbum) (t : header_tag) (value v : string) :
  no_LF value = true -> first_token value = Ok v ->
  exists a',
    append_line_to_header a (keyword_of t ++ value) = Ok a'
    /\ tag_of t a' = Some v
    /\ (forall t', t' <> t -> tag_of t' a' = tag_of t' a)
    /\ header a' = (header a ++ [(keyword_of t ++ value)%string])%list
    /\ cue_disks a' = cue_disks a.
Proof.
  intros Hn Hv.
  unfold append_line_to_header, _populate_album_tag, _populate_artist_tag,
    _populate_year_tag.
  destruct t; cbn [keyword_of].
  - rewrite (match_keyword_value "TITLE " value Hn), Hv. cbn [rbind].
    replace (Re.match_keyword "PERFORMER " ("TITLE " ++ value))
      with (@None string)
      by (unfold Re.match_keyword; cbn [append]; rewrite prefix_cons;
          reflexivity).
    replace (Re.match_keyword "REM DATE " ("TITLE " ++ value))
      with (@None string)
      by (unfold Re.match_keyword; cbn [append]; rewrite prefix_cons;
          reflexivity).
    eexists. split; [reflexivity|]. cbn.
    split; [reflexivity|]. split; [|auto].
    intros [| |] Hne; try reflexivity. contradiction.
  - replace (Re.match_keyword "TITLE " ("PERFORMER " ++ value))
      with (@None string)
      by (unfold Re.match_keyword; cbn [append]; rewrite prefix_cons;
          reflexivity).
    cbn [rbind].
    rewrite (match_keyword_value "PERFORMER " value Hn), Hv. cbn [rbind].
    replace (Re.match_keyword "REM DATE " ("PERFORMER " ++ value))
      with (@None string)
      by (unfold Re.match_keyword; cbn [append]; rewrite prefix_cons;
          reflexivity).
    eexists. split; [reflexivity|]. cbn.
    split; [reflexivity|]. split; [|auto].
    intros [| |] Hne; try reflexivity. contradiction.
  - replace (Re.match_keyword "TITLE " ("REM DATE " ++ value))
      with (@None string)
      by (unfold Re.match_keyword; cbn [append]; rewrite prefix_cons;
          reflexivity).
    cbn [rbind].
    replace (Re.match_keyword "PERFORMER " ("REM DATE " ++ value))
      with (@None string)
      by (unfold Re.match_keyword; cbn [append]; rewrite prefix_cons;
          reflexivity).
    cbn [rbind].
    rewrite (match_keyword_value "REM DATE " value Hn), Hv. cbn [rbind].
    eexists. split; [reflexivity|]. cbn.
    split; [reflexivity|]. split; [|auto].
    intros [| |] Hne; try reflexivity. contradiction.
Qed.

Lemma plain_quoted_dquoted_no_LF (v : string) :
  no_LF v = true -> no_LF (dquoted v) = true.
Proof.
  intros H. unfold dquoted. cbn [no_LF].
  replace (Py.dquote =? Py.LF)%char with false by reflexivity.
  cbn [negb andb]. induction v as [|c r IH]; [reflexivity|].
  cbn [no_LF append] in *. apply andb_true_iff in H. destruct H as [Hc Hr].
  rewrite Hc, (IH Hr). reflexivity.
Qed.

Lemma no_LF_app (s t : string) :
  no_LF (s ++ t) = no_LF s && no_LF t.
Proof.
  induction s as [|c r IH]; [reflexivity|].
  cbn [append no_LF]. rewrite IH, andb_assoc. reflexivity.
Qed.

(** X3: In the header, a tag line whose value stands between double quotes
    gives the tag the value without the quotes, spaces included; a value
    without quotes gives the tag its first word only. *)
Theorem header_tag_takes_quoted_value_or_first_word
    (o : Py.os_name) (t : header_tag) (pre : list string) (a : CueAlbum) :
  parse_cue_file o pre = Ok a -> cue_disks a = [] ->
  (forall v,
     plain_quoted v = true -> no_LF v = true ->
     exists a', parse_cue_file o (pre ++ [keyword_of t ++ dquoted v]) = Ok a'
                /\ tag_of t a' = Some v)
  /\ (forall w tail ts,
        plain_word w = true -> w <> EmptyString ->
        no_LF tail = true -> Shlex.split tail = Ok ts ->
        exists a',
          parse_cue_file o (pre ++ [keyword_of t ++ w ++ " " ++ tail]) = Ok a'
          /\ tag_of t a' = Some w).
Proof.
  unfold parse_cue_file. intros Hp Hd. split.
  - intros v Hq Hn.
    destruct (append_keyword_line a t (dquoted v) v
                (plain_quoted_dquoted_no_LF v Hn))
      as [a' [E [T _]]].
    { unfold first_token. rewrite (split_dquoted v Hq). reflexivity. }
    exists a'. split; [|exact T].
    rewrite parse_lines_app, Hp. cbn [rbind parse_lines].
    rewrite (parse_line_header o a _ Hd (keyword_value_not_file t _)), E.
    reflexivity.
  - intros w tail ts Hw Hne Hn Ht.
    assert (Hnw : no_LF w = true).
    { clear Hne. induction w as [|c r IH]; [reflexivity|].
      cbn [plain_word no_LF] in *.
      apply andb_true_iff in Hw. destruct Hw as [Hw Hr].
      apply andb_true_iff in Hw. destruct Hw as [Hw _].
      apply andb_true_iff in Hw. destruct Hw as [Hs _].
      rewrite (IH Hr), andb_true_r.
      unfold Shlex.whitespace in Hs. apply negb_true_iff in Hs.
      apply orb_false_iff in Hs. destruct Hs as [_ Hs]. rewrite Hs.
      reflexivity. }
    destruct (append_keyword_line a t (w ++ " " ++ tail) w)
      as [a' [E [T _]]].
    { rewrite !no_LF_app, Hnw, Hn. reflexivity. }
    { unfold first_token. rewrite (split_word_then w tail ts Hw Hne Ht).
      reflexivity. }
    exists a'. split; [|exact T].
    rewrite parse_lines_app, Hp. cbn [rbind parse_lines].
    rewrite (parse_line_header o a _ Hd (keyword_value_not_file t _)), E.
    reflexivity.
Qed.

Lemma header_tag_takes_quoted_value_or_first_word_witness :
  (exists a', parse_cue_file Py.posix ["TITLE " ++ dquoted "My Album"] = Ok a'
              /\ album_tag a' = Some "My Album")
  /\ (exists a', parse_cue_file Py.posix ["TITLE My Album"] = Ok a'
                 /\ album_tag a' = Some "My").
Proof.
  destruct (header_tag_takes_quoted_value_or_first_word Py.posix Album []
              new_CueAlbum eq_refl eq_refl) as [Hq Hw].
  split.
  - apply (Hq "My Album"); reflexivity.
  - apply (Hw "My" "Album" ["Album"]); try reflexivity. discriminate.
Defined.

Lemma file_line_not_index (rest : string) :
  is_index_line ("FILE " ++ rest) = false.
Proof.
  unfold is_index_line, Py.strip, Py.startswith. cbn [append Py.lstrip].
  replace (Py.isspace "F") with false by reflexivity.
  rewrite rstrip_cons by reflexivity. rewrite prefix_cons. reflexivity.
Qed.

Lemma file_line_no_title (rest : string) :
  Re.match_indented_title ("FILE " ++ rest) = None.
Proof.
  unfold Re.match_indented_title, Re.match_keyword.
  cbn [append Re.skip_blanks].
  replace ((("F" =? " ") || ("F" =? Py.TAB))%char) with false by reflexivity.
  rewrite prefix_cons. reflexivity.
Qed.

(** X4: A file declaration with the file name between double quotes opens a
    disc for exactly that name, spaces included; the disc starts with the
    declaration, unchanged, and has no title yet. *)
Theorem file_declaration_keeps_quoted_name
    (o : Py.os_name) (pre : list string) (a : CueAlbum)
    (name tail : string) (ts : list string) :
  parse_cue_file o pre = Ok a ->
  plain_quoted name = true ->
  Shlex.split tail = Ok ts ->
  let line := "FILE " ++ dquoted name ++ " " ++ tail in
  parse_cue_file o (pre ++ [line])
  = Ok (mkCueAlbum (album_tag a) (artist_tag a) (year_tag a)
          (cue_disks a ++ [mkCueDisc [] [line] (Some name)])
          (header a)).
Proof.
  intros Hp Hn Ht line. unfold parse_cue_file in *.
  rewrite parse_lines_app, Hp. cbn [rbind parse_lines].
  unfold parse_line.
  replace (Py.startswith line "FILE ") with true
    by (symmetry; apply prefix_app).
  assert (Es : Shlex.split line = Ok ("FILE" :: name :: ts)).
  { change line with ("FILE" ++ " " ++ (dquoted name ++ " " ++ tail)).
    apply split_word_then; [reflexivity|discriminate|].
    apply split_dquoted_then; assumption. }
  rewrite Es. cbn [rbind Shlex.item nth_error].
  rewrite (get_last_disc_snoc (append_cue_disc a new_CueDisc)
             (cue_disks a) new_CueDisc eq_refl).
  cbn [rbind].
  set (d0 := mkCueDisc (titles_tags new_CueDisc) (cue_context new_CueDisc)
               (Some name)).
  set (a1 := set_last_disc (append_cue_disc a new_CueDisc) d0).
  assert (E1 : cue_disks a1 = (cue_disks a ++ [d0])%list).
  { subst a1. cbn [set_last_disc append_cue_disc cue_disks].
    rewrite removelast_last. reflexivity. }
  rewrite E1, length_app. cbn [List.length].
  replace (0 <? List.length (cue_disks a) + 1)%nat with true
    by (symmetry; apply Nat.ltb_lt; lia).
  rewrite (get_last_disc_snoc a1 (cue_disks a) d0 E1). cbn [rbind].
  rewrite (fix_time_format_other o line (file_line_not_index _)).
  unfold append_to_cue_context, _populate_title_tag.
  subst line. rewrite file_line_no_title. cbn [rbind].
  unfold set_last_disc. rewrite E1, removelast_last. reflexivity.
Qed.

Lemma file_declaration_keeps_quoted_name_witness :
  parse_cue_file Py.posix ["FILE " ++ dquoted "my disc 1.wav" ++ " " ++ "WAVE"]
  = Ok (mkCueAlbum None None None
          [mkCueDisc [] ["FILE " ++ dquoted "my disc 1.wav" ++ " " ++ "WAVE"]
                     (Some "my disc 1.wav")] []).
Proof.
  apply (file_declaration_keeps_quoted_name Py.posix [] new_CueAlbum
           "my disc 1.wav" "WAVE" ["WAVE"]); reflexivity.
Defined.

(** ** The lines of a sheet *)

Lemma terminator_free_of_list (l : list ascii) :
  terminator_free (string_of_list_ascii l)
  = forallb (fun c => negb (Py.is_linebreak c)) l.
Proof.
  induction l as [|c l IH]; [reflexivity|].
  cbn [string_of_list_ascii terminator_free forallb]. rewrite IH. reflexivity.
Qed.

Lemma forallb_rev {A} (f : A -> bool) (l : list A) :
  forallb f (rev l) = forallb f l.
Proof.
  induction l as [|x l IH]; [reflexivity|].
  cbn [rev forallb]. rewrite forallb_app, IH. cbn. rewrite andb_true_r.
  apply andb_comm.
Qed.

Lemma splitlines_from_terminator_free (s : string) :
  forall cur,
    forallb (fun c => negb (Py.is_linebreak c)) cur = true ->
    Forall (fun l => terminator_free l = true) (Py.splitlines_from cur s).
Proof.
  induction s as [|c r IH]; intros cur Hc.
  - cbn [Py.splitlines_from]. destruct cur as [|x cur']; constructor; [|constructor].
    rewrite terminator_free_of_list, forallb_rev. exact Hc.
  - cbn [Py.splitlines_from]. destruct (Py.is_linebreak c) eqn:El.
    + constructor;
        [rewrite terminator_free_of_list, forallb_rev; exact Hc|].
      pose proof (IH [] eq_refl) as H0.
      destruct (Ascii.eqb c Py.CR); [|exact H0].
      destruct r as [|d r']; [exact H0|].
      destruct (Ascii.eqb d Py.LF) eqn:Ed; [|exact H0].
      apply Ascii.eqb_eq in Ed. subst d.
      cbn [Py.splitlines_from] in H0. rewrite linebreak_LF in H0.
      replace (Ascii.eqb Py.LF Py.CR) with false in H0 by reflexivity.
      inversion H0; assumption.
    + apply IH. cbn [forallb]. rewrite El. exact Hc.
Qed.

(** X5: Every line that [readTextFile] returns is free of line boundaries,
    whichever encoding decoded the file. *)
Theorem readTextFile_lines_hold_no_line_boundary
    (env : Env) (depth : nat) (text_file : string) :
  forall encoding w lines w',
    FileUtils.readTextFile env depth text_file encoding w = (Ok lines, w') ->
    Forall (fun l => terminator_free l = true) lines.
Proof.
  induction depth as [|depth IH]; intros encoding w lines w' H;
    [discriminate|].
  cbn [FileUtils.readTextFile] in H. unfold bind in H.
  rewrite log_add_trace in H.
  destruct (FileUtils.other_failure env text_file encoding); [discriminate|].
  destruct (read_decoded env text_file encoding) as [text|].
  - inversion H; subst. apply splitlines_from_terminator_free. reflexivity.
  - destruct (negb (String.eqb encoding "utf-8")); [discriminate|].
    destruct (FileUtils.fallback_of env) as [fallback|]; [|discriminate].
    exact (IH _ _ _ _ H).
Qed.

Lemma readTextFile_lines_hold_no_line_boundary_witness :
  Forall (fun l => terminator_free l = true)
         ["TITLE B"; EmptyString; "FILE a.wav WAVE"].
Proof.
  apply (readTextFile_lines_hold_no_line_boundary
           (env_reading ("TITLE B" ++ Py.chr Py.CR ++ Py.chr Py.LF
                         ++ Py.chr Py.LF ++ "FILE a.wav WAVE"))
           3 "/m/a.cue" "utf-8" empty_world _
           (add_trace empty_world [Decode "/m/a.cue" "utf-8"])).
  reflexivity.
Defined.

Lemma readTextFile_protocol_witness :
  FileUtils.readTextFile bogus_fallback_env 2 "/m/a.cue" "utf-8" empty_world
  = (Raise (LookupError "unknown encoding: bogus"),
     add_trace empty_world [Decode "/m/a.cue" "utf-8";
                            Decode "/m/a.cue" "bogus"]).
Proof.
  apply (readTextFile_protocol bogus_fallback_env "/m/a.cue" 0 empty_world).
  discriminate.
Defined.

(** ** The temporary sheet read back *)

Lemma encode_utf8_ascii (s : string) :
  is_ascii s = true -> Py.encode_utf8 s = s.
Proof.
  induction s as [|c r IH]; intros H; [reflexivity|].
  cbn [is_ascii] in H. apply andb_true_iff in H. destruct H as [Hc Hr].
  cbn [Py.encode_utf8]. rewrite Hc, (IH Hr). reflexivity.
Qed.

Lemma string_of_list_app (l : list ascii) (s : string) :
  string_of_list_ascii (l ++ list_ascii_of_string s)
  = string_of_list_ascii l ++ s.
Proof.
  induction l as [|c l IH]; cbn.
  - apply string_of_list_ascii_of_string.
  - rewrite IH. reflexivity.
Qed.

(** Reading a line and its separator: the line comes out and the reader
    starts afresh behind the separator. *)
Lemma splitlines_from_line (o : Py.os_name) (line rest : string) :
  terminator_free line = true ->
  forall cur,
    Py.splitlines_from cur (line ++ Py.linesep o ++ rest)
    = (string_of_list_ascii (rev cur) ++ line) :: Py.splitlines_from [] rest.
Proof.
  induction line as [|c r IH]; intros Htf cur.
  - rewrite append_nil_r. destruct o; reflexivity.
  - cbn [terminator_free] in Htf. apply andb_true_iff in Htf.
    destruct Htf as [Hc Hr]. apply negb_true_iff in Hc.
    cbn [append Py.splitlines_from]. rewrite Hc, (IH Hr).
    f_equal. cbn [rev].
    rewrite <- (string_of_list_app (rev cur ++ [c]) r).
    rewrite <- (string_of_list_app (rev cur) (String c r)).
    cbn [list_ascii_of_string]. rewrite <- app_assoc. reflexivity.
Qed.

Lemma is_ascii_app (s t : string) :
  is_ascii (s ++ t) = is_ascii s && is_ascii t.
Proof.
  induction s as [|c r IH]; [reflexivity|].
  cbn [append is_ascii]. rewrite IH, andb_assoc. reflexivity.
Qed.

Lemma terminator_free_app (s t : string) :
  terminator_free (s ++ t) = terminator_free s && terminator_free t.
Proof.
  induction s as [|c r IH]; [reflexivity|].
  cbn [append terminator_free]. rewrite IH, andb_assoc. reflexivity.
Qed.

(** X7: The temporary sheet of some lines of a disc, read back line by line:
    an index line comes back with a [0] appended and is followed by an
    empty line, every other line comes back as it was read from the sheet.
    (For lines of code points below 128, which UTF-8 leaves as they are.) *)
Theorem temp_sheet_reads_back_as_the_lines
    (o : Py.os_name) (lines : list string) :
  Forall (fun l => terminator_free l = true /\ is_ascii l = true) lines ->
  Py.splitlines
    (CueConverter.temp_cue_bytes o (map (fix_time_format o) lines))
  = flat_map read_back lines.
Proof.
  unfold Py.splitlines. intros H.
  induction H as [|line rest [Htf Has] _ IH]; [reflexivity|].
  cbn [map CueConverter.temp_cue_bytes flat_map].
  rewrite encode_utf8_linesep. unfold read_back at 1.
  destruct (is_index_line line) eqn:Ei.
  - rewrite (fix_time_format_index o line Htf Ei).
    rewrite encode_utf8_ascii
      by (rewrite !is_ascii_app, Has; destruct o; reflexivity).
    replace ((line ++ "0" ++ Py.linesep o) ++ Py.linesep o
             ++ CueConverter.temp_cue_bytes o (map (fix_time_format o) rest))
      with ((line ++ "0") ++ Py.linesep o ++ (EmptyString ++ Py.linesep o
             ++ CueConverter.temp_cue_bytes o (map (fix_time_format o) rest)))
      by (rewrite !append_assoc; reflexivity).
    rewrite splitlines_from_line
      by (rewrite terminator_free_app, Htf; reflexivity).
    rewrite splitlines_from_line by reflexivity.
    rewrite IH. reflexivity.
  - rewrite (fix_time_format_other o line Ei).
    rewrite (encode_utf8_ascii line Has).
    rewrite (splitlines_from_line o line _ Htf). rewrite IH. reflexivity.
Qed.

Lemma temp_sheet_reads_back_as_the_lines_witness :
  Py.splitlines
    (CueConverter.temp_cue_bytes Py.nt
       (map (fix_time_format Py.nt)
            ["FILE a.wav WAVE"; "  INDEX 01 00:00:00"; "  TITLE x"]))
  = ["FILE a.wav WAVE"; "  INDEX 01 00:00:000"; EmptyString; "  TITLE x"].
Proof.
  apply (temp_sheet_reads_back_as_the_lines Py.nt
           ["FILE a.wav WAVE"; "  INDEX 01 00:00:00"; "  TITLE x"]).
  repeat constructor.
Defined.

(** ** The order of the tagger *)

Lemma insert_by_mtime_perm (e : dirent) (l : list dirent) :
  Permutation (insert_by_mtime e l) (e :: l).
Proof.
  induction l as [|y l IH]; [reflexivity|].
  cbn [insert_by_mtime]. destruct (snd e <=? snd y)%Z; [reflexivity|].
  rewrite IH. apply perm_swap.
Qed.

Lemma sort_by_mtime_perm (l : list dirent) : Permutation (sort_by_mtime l) l.
Proof.
  induction l as [|x l IH]; [reflexivity|].
  cbn [sort_by_mtime]. rewrite insert_by_mtime_perm, IH. reflexivity.
Qed.

Lemma insert_by_mtime_sorted (e : dirent) (l : list dirent) :
  StronglySorted mtime_le l -> StronglySorted mtime_le (insert_by_mtime e l).
Proof.
  induction l as [|y l IH]; intros Hs.
  - constructor; constructor.
  - cbn [insert_by_mtime]. inversion Hs as [|? ? Hl Hy]; subst.
    destruct (snd e <=? snd y)%Z eqn:E.
    + apply Z.leb_le in E. constructor; [exact Hs|].
      constructor; [exact E|].
      eapply Forall_impl; [|exact Hy]. unfold mtime_le. intros z Hz. lia.
    + apply Z.leb_gt in E. constructor; [apply IH; exact Hl|].
      eapply Permutation_Forall;
        [symmetry; apply insert_by_mtime_perm|].
      constructor; [unfold mtime_le; lia|exact Hy].
Qed.

Lemma sort_by_mtime_sorted (l : list dirent) :
  StronglySorted mtime_le (sort_by_mtime l).
Proof.
  induction l as [|x l IH]; [constructor|].
  cbn [sort_by_mtime]. apply insert_by_mtime_sorted, IH.
Qed.

Lemma with_mtime_insert (t : Z) (e : dirent) (l : list dirent) :
  with_mtime t (insert_by_mtime e l) = with_mtime t (e :: l).
Proof.
  unfold with_mtime. induction l as [|y l IH]; [reflexivity|].
  cbn [insert_by_mtime]. destruct (snd e <=? snd y)%Z eqn:E; [reflexivity|].
  apply Z.leb_gt in E. cbn [filter] in *. rewrite IH.
  destruct (snd e =? t)%Z eqn:Ee; [|reflexivity].
  apply Z.eqb_eq in Ee.
  replace (snd y =? t)%Z with false; [reflexivity|].
  symmetry. apply Z.eqb_neq. lia.
Qed.

Lemma with_mtime_sort (t : Z) (l : list dirent) :
  with_mtime t (sort_by_mtime l) = with_mtime t l.
Proof.
  induction l as [|x l IH]; [reflexivity|].
  cbn [sort_by_mtime]. rewrite with_mtime_insert.
  unfold with_mtime in *. cbn [filter]. rewrite IH. reflexivity.
Qed.

(** X8: The tagger goes through the entries of the directory that match the
    pattern, each exactly once, from the oldest to the newest; entries of
    the same modification time keep the order in which the directory
    lists them. *)
Theorem tagger_order_is_by_modification_time
    (files_dir : string) (l : list dirent) :
  exists es,
    CueToFlacTagUtils.sorted_files files_dir l
    = map (fun e => Py.path_join files_dir (fst e)) es
    /\ Permutation es (filter is_star_dot_star l)
    /\ StronglySorted mtime_le es
    /\ forall t, with_mtime t es = with_mtime t (filter is_star_dot_star l).
Proof.
  exists (sort_by_mtime (filter is_star_dot_star l)).
  split; [reflexivity|]. split; [apply sort_by_mtime_perm|].
  split; [apply sort_by_mtime_sorted|]. intros t. apply with_mtime_sort.
Qed.

(** ** Pregap files *)

Lemma remove_each_spec (temp_dir : string) (l : list dirent) (w : World) :
  CueConverter.remove_each temp_dir l w
  = (Ok tt,
     add_trace w (map (fun e => Remove (Py.path_join temp_dir (fst e))) l)).
Proof.
  revert w. induction l as [|e l IH]; intros w.
  - cbn. rewrite add_trace_nil. reflexivity.
  - cbn [CueConverter.remove_each map]. unfold bind.
    rewrite log_add_trace, IH, add_trace_cons. reflexivity.
Qed.

Lemma lookup_dir_set (ds : list (string * list dirent)) (d : string)
    (l : list dirent) :
  lookup_dir ((d, l) :: remove_dir ds d) d = Some l.
Proof. cbn [lookup_dir]. rewrite String.eqb_refl. reflexivity. Qed.

Lemma kept_entry_is_no_pregap (e : dirent) :
  is_pregap e = false -> is_star_dot_star e = true ->
  endswith (fst e) "pregap.flac" = false.
Proof.
  unfold is_pregap, is_star_dot_star. intros Hp Hs.
  apply andb_true_iff in Hs. destruct Hs as [Hh _]. rewrite Hh in Hp.
  exact Hp.
Qed.

(** X9: Removing the pregap files and tagging: every entry whose name ends in
    [pregap.flac] (hidden ones apart) is removed, once, and leaves the
    directory; the tagger then sees the other entries only, so no file it
    tags is a pregap file. *)
Theorem pregap_files_are_removed_before_tagging
    (temp_dir : string) (l : list dirent) (w : World)
    (cue_album : CueAlbum) (disc_id : nat) (disc : CueDisc) :
  lookup_dir (dirs w) temp_dir = Some l ->
  get_disc cue_album disc_id = Ok disc ->
  let kept := filter (fun e => negb (is_pregap e)) l in
  let tagged := sort_by_mtime (filter is_star_dot_star kept) in
  let fs := map (fun e => Py.path_join temp_dir (fst e)) tagged in
  (CueConverter.remove_pregap_files temp_dir ;;;
   CueToFlacTagUtils.tag_files temp_dir cue_album disc_id)%io w
  = ((if (List.length fs <=? List.length (titles_tags disc))%nat
      then Ok tt else Raise IndexError),
     mkWorld (files w) ((temp_dir, kept) :: remove_dir (dirs w) temp_dir)
       (trace w
        ++ map (fun e => Remove (Py.path_join temp_dir (fst e)))
               (filter is_pregap l)
        ++ map Exec (expected_cmds cue_album fs (titles_tags disc)))%list
       (fresh w))
  /\ Forall (fun e => endswith (fst e) "pregap.flac" = false) tagged
  /\ Forall (fun e => is_pregap e = false) kept.
Proof.
  intros Hl Hd kept tagged fs. split; [|split].
  - unfold bind at 1. unfold CueConverter.remove_pregap_files, bind, listing.
    rewrite Hl, remove_each_spec. cbn [set_dir add_trace files dirs trace fresh].
    set (w1 := mkWorld _ _ _ _).
    rewrite (tag_files_spec cue_album disc disc_id temp_dir kept w1 Hd)
      by (subst w1; cbn [dirs]; apply lookup_dir_set).
    subst w1. unfold add_trace. cbn [files dirs trace fresh].
    rewrite <- app_assoc. reflexivity.
  - subst tagged. eapply Permutation_Forall;
      [symmetry; apply sort_by_mtime_perm|].
    apply Forall_forall. intros e He.
    apply filter_In in He. destruct He as [He Hs].
    subst kept. apply filter_In in He. destruct He as [_ Hp].
    apply negb_true_iff in Hp. apply kept_entry_is_no_pregap; assumption.
  - apply Forall_forall. intros e He. subst kept.
    apply filter_In in He. destruct He as [_ Hp].
    apply negb_true_iff in Hp. exact Hp.
Qed.

Lemma pregap_files_are_removed_before_tagging_witness :
  let l := [("00.pregap.flac", 1%Z); ("01.flac", 2%Z); ("02.flac", 3%Z);
            ("03.flac", 4%Z); ("04.flac", 5%Z); ("05.flac", 6%Z)] in
  let w := mkWorld [] [("d", l)] [] 0 in
  let album := mkCueAlbum None None None
                 [mkCueDisc ["a"; "b"; "c"; "d"; "e"] [] (Some "a.wav")] [] in
  List.length
    (filter (fun e => match e with Exec _ => true | _ => false end)
       (trace (snd ((CueConverter.remove_pregap_files "d" ;;;
                     CueToFlacTagUtils.tag_files "d" album 0)%io w))))
  = 5
  /\ fst ((CueConverter.remove_pregap_files "d" ;;;
           CueToFlacTagUtils.tag_files "d" album 0)%io w) = Ok tt.
Proof.
  cbv zeta.
  destruct (pregap_files_are_removed_before_tagging "d"
              [("00.pregap.flac", 1%Z); ("01.flac", 2%Z); ("02.flac", 3%Z);
               ("03.flac", 4%Z); ("04.flac", 5%Z); ("05.flac", 6%Z)]
              (mkWorld [] [("d", [("00.pregap.flac", 1%Z); ("01.flac", 2%Z);
                                  ("02.flac", 3%Z); ("03.flac", 4%Z);
                                  ("04.flac", 5%Z); ("05.flac", 6%Z)])] [] 0)
              (mkCueAlbum None None None
                 [mkCueDisc ["a"; "b"; "c"; "d"; "e"] [] (Some "a.wav")] [])
              0 (mkCueDisc ["a"; "b"; "c"; "d"; "e"] [] (Some "a.wav"))
              eq_refl eq_refl) as [H _].
  rewrite H. split; reflexivity.
Defined.

(** ** Moving the result *)

Lemma move_all_spec (src_dir dest_dir : string) (names : list dirent) (w : World) :
  FileUtils.move_all src_dir dest_dir names w
  = (Ok tt,
     add_trace w (map (fun e => Move (Py.path_join src_dir (fst e))
                                     (Py.path_join dest_dir (fst e))) names)).
Proof.
  revert w. induction names as [|e l IH]; intros w.
  - cbn. rewrite add_trace_nil. reflexivity.
  - cbn [FileUtils.move_all map]. unfold bind.
    rewrite log_add_trace, IH, add_trace_cons. reflexivity.
Qed.

(** X10: [move_to_newdir] refuses a destination that exists as a plain file
    and then touches nothing; otherwise it creates the destination when it
    does not exist yet and moves every entry of the source directory,
    hidden ones included, in the order of the listing, which leaves the
    source directory empty. *)
Theorem move_to_newdir_refuses_or_moves_everything
    (env : Env) (src_dir dest_dir : string) (names : list dirent) (w : World) :
  lookup_dir (dirs w) src_dir = Some names ->
  let there := exists_ env dest_dir
               || existsb (FileUtils.made dest_dir) (trace w) in
  (there && isfile env dest_dir = true ->
     exists msg,
       FileUtils.move_to_newdir env src_dir dest_dir w
       = (Raise (AttributeError msg), w))
  /\ (there && isfile env dest_dir = false ->
        FileUtils.move_to_newdir env src_dir dest_dir w
        = (Ok tt,
           mkWorld (files w) ((src_dir, []) :: remove_dir (dirs w) src_dir)
             (trace w
              ++ (if there then [] else [Makedirs dest_dir])
              ++ map (fun e => Move (Py.path_join src_dir (fst e))
                                    (Py.path_join dest_dir (fst e))) names)%list
             (fresh w))).
Proof.
  intros Hl there. split; intros Hc.
  - eexists. unfold FileUtils.move_to_newdir, bind, FileUtils.path_exists.
    fold there. rewrite Hc. reflexivity.
  - unfold FileUtils.move_to_newdir, bind, FileUtils.path_exists.
    fold there. rewrite Hc.
    destruct there; cbn [negb].
    + cbn [ret]. unfold listdir. rewrite Hl, move_all_spec.
      cbn [set_dir add_trace files dirs trace fresh app]. reflexivity.
    + rewrite log_add_trace. unfold listdir.
      cbn [add_trace dirs]. rewrite Hl, move_all_spec.
      rewrite add_trace_add_trace. reflexivity.
Qed.

Lemma move_to_newdir_refuses_or_moves_everything_witness :
  FileUtils.move_to_newdir sample_env "/m/t" "/m/flac"
    (mkWorld [] [("/m/t", [("01.flac", 1%Z); (".x", 2%Z)])] [] 0)
  = (Ok tt,
     mkWorld [] [("/m/t", [])]
       [Makedirs "/m/flac"; Move "/m/t/01.flac" "/m/flac/01.flac";
        Move "/m/t/.x" "/m/flac/.x"] 0).
Proof.
  destruct (move_to_newdir_refuses_or_moves_everything sample_env
              "/m/t" "/m/flac" [("01.flac", 1%Z); (".x", 2%Z)]
              (mkWorld [] [("/m/t", [("01.flac", 1%Z); (".x", 2%Z)])] [] 0)
              eq_refl) as [_ H].
  rewrite (H eq_refl). reflexivity.
Defined.

(** ** What a run leaves behind *)

Lemma touches_ret (d : string) {A} (a : A) : touches_only d (ret a).
Proof. intros w. cbn. auto. Qed.

Lemma touches_raise (d : string) {A} (e : exn) : touches_only d (@raise A e).
Proof. intros w. cbn. auto. Qed.

Lemma touches_lift (d : string) {A} (r : result A) : touches_only d (lift r).
Proof. intros w. cbn. auto. Qed.

Lemma touches_log (d : string) (e : event) : touches_only d (log e).
Proof. intros w. cbn. auto. Qed.

Lemma touches_listing (d x : string) : touches_only d (listing x).
Proof.
  intros w. unfold listing. destruct (lookup_dir (dirs w) x); cbn; auto.
Qed.

Lemma touches_listdir (d x : string) : touches_only d (listdir x).
Proof.
  intros w. unfold listdir. destruct (lookup_dir (dirs w) x); cbn; auto.
Qed.

Lemma lookup_after_set (ds : list (string * list dirent)) (d x : string)
    (l : list dirent) :
  x <> d -> lookup_dir ((d, l) :: remove_dir ds d) x = lookup_dir ds x.
Proof.
  intros Hne. cbn [lookup_dir].
  destruct (String.eqb d x) eqn:E.
  - apply String.eqb_eq in E. congruence.
  - apply lookup_remove_dir_other. exact E.
Qed.

Lemma touches_set_dir (d : string) (l : list dirent) :
  touches_only d (set_dir d l).
Proof.
  intros w. cbn. split; [reflexivity|]. intros x Hx.
  apply lookup_after_set. exact Hx.
Qed.

Lemma touches_bind (d : string) {A B} (m : M A) (k : A -> M B) :
  touches_only d m -> (forall a, touches_only d (k a)) ->
  touches_only d (bind m k).
Proof.
  intros Hm Hk w. unfold bind. destruct (Hm w) as [F1 D1].
  destruct (m w) as [[a|e] w1]; cbn [snd] in *; [|auto].
  destruct (Hk a w1) as [F2 D2]. split; [congruence|].
  intros x Hx. rewrite (D2 x Hx). apply D1. exact Hx.
Qed.

Lemma touches_tag_files (d files_dir : string) (cue_album : CueAlbum)
    (disc_id : nat) :
  touches_only d (CueToFlacTagUtils.tag_files files_dir cue_album disc_id).
Proof.
  unfold CueToFlacTagUtils.tag_files.
  apply touches_bind; [apply touches_listing|]. intros l.
  generalize 0. induction (CueToFlacTagUtils.sorted_files files_dir l)
    as [|f fs IH]; intros j; cbn [CueToFlacTagUtils.tag_each].
  - apply touches_ret.
  - apply touches_bind; [|intros _; apply IH].
    unfold CueToFlacTagUtils.tag_single_file.
    apply touches_bind; [apply touches_lift|]. intros cmd. apply touches_log.
Qed.

Lemma touches_remove_pregap_files (d : string) :
  touches_only d (CueConverter.remove_pregap_files d).
Proof.
  unfold CueConverter.remove_pregap_files.
  apply touches_bind; [apply touches_listing|]. intros l.
  apply touches_bind; [|intros _; apply touches_set_dir].
  induction (filter is_pregap l) as [|e es IH]; cbn [CueConverter.remove_each].
  - apply touches_ret.
  - apply touches_bind; [apply touches_log|]. intros _. exact IH.
Qed.

Lemma touches_move_to_newdir (env : Env) (d dest_dir : string) :
  touches_only d (FileUtils.move_to_newdir env d dest_dir).
Proof.
  unfold FileUtils.move_to_newdir.
  apply touches_bind; [intros w; cbn; auto|]. intros ex.
  destruct (ex && isfile env dest_dir); [apply touches_raise|].
  apply touches_bind;
    [destruct (negb ex); [apply touches_log|apply touches_ret]|]. intros _.
  apply touches_bind; [apply touches_listdir|]. intros names.
  apply touches_bind; [|intros _; apply touches_set_dir].
  induction names as [|e es IH]; cbn [FileUtils.move_all].
  - apply touches_ret.
  - apply touches_bind; [apply touches_log|]. intros _. exact IH.
Qed.

Lemma touches_try_body (env : Env) (dest_dir : string)
    (cue_album : CueAlbum) (cue_disc_id : nat) (cue_disc : CueDisc)
    (temp_cue music d : string) (n : nat) :
  touches_only d (CueConverter.try_body env dest_dir cue_album cue_disc_id
                    cue_disc temp_cue music d n).
Proof.
  unfold CueConverter.try_body.
  apply touches_bind.
  { unfold CueConverter.split_file_by_cue_sheet.
    apply touches_bind; [apply touches_log|]. intros _. apply touches_set_dir. }
  intros _. apply touches_bind; [apply touches_remove_pregap_files|].
  intros _. apply touches_bind; [apply touches_tag_files|].
  intros _. apply touches_bind; [apply touches_move_to_newdir|].
  intros _. apply touches_ret.
Qed.

(** A turn of the loop on a disc that holds a line and names its file
    leaves, however it ends, no temporary sheet that was not there before,
    unless the sheet could not be written, and, unless directories are
    kept, no directory either. *)
Lemma convert_disc_leaves_nothing (env : Env) (src_dir dest_dir : string)
    (cue_album : CueAlbum) (cue_disc_id : nat) (cue_disc : CueDisc)
    (n : nat) (temp_dir : option string) (w : World) :
  disc_ok cue_disc = true ->
  let w' := snd (CueConverter.convert_disc env src_dir dest_dir cue_album
                   cue_disc_id cue_disc n temp_dir w) in
  (forall x, In x (files w') -> In x (files w) \/ unwritten env x)
  /\ (args_debug env = false ->
      forall x, lookup_dir (dirs w') x <> None ->
                lookup_dir (dirs w) x <> None).
Proof.
  intros Hok w'. subst w'.
  pose proof (parsed_disc_sheet_not_empty (os_name env) (header cue_album)
                cue_disc Hok) as Hb.
  assert (Hn : exists name, music_file_name cue_disc = Some name).
  { unfold disc_ok in Hok. destruct (music_file_name cue_disc) as [name|].
    - eauto.
    - destruct (cue_context cue_disc); discriminate. }
  destruct Hn as [name Hn].
  unfold CueConverter.convert_disc, CueConverter.create_temp_cue_file.
  cbv zeta.
  destruct (write_fault env (fresh w)) as [fault|] eqn:Hw.
  { cbn [snd files dirs]. split; [|auto].
    intros x [<-|Hx]; [right|left; exact Hx].
    exists (fresh w). split; [congruence|reflexivity]. }
  destruct (CueConverter.temp_cue_bytes (os_name env)
              (header cue_album ++ cue_context cue_disc)) as [|b bs];
    [contradiction|].
  set (temp_cue := temp_cue_name env (fresh w) ++ ".cue").
  unfold CueConverter.try_block. rewrite Hn.
  unfold mkdtemp. cbn [fresh files dirs trace].
  set (d := Py.path_join src_dir ("cueconvert_" ++ _)).
  match goal with |- context [CueConverter.try_body _ _ _ _ _ _ _ _ _ ?w0] =>
    set (w2 := w0) end.
  destruct (frame_try_body d env dest_dir cue_album cue_disc_id cue_disc
              temp_cue (Py.path_join src_dir name) d n w2) as [F D].
  destruct (touches_try_body env dest_dir cue_album cue_disc_id cue_disc
              temp_cue (Py.path_join src_dir name) d n w2) as [_ T].
  destruct (CueConverter.try_body env dest_dir cue_album cue_disc_id cue_disc
              temp_cue (Py.path_join src_dir name) d n w2) as [r w3].
  cbn [snd] in F, D, T.
  assert (D3 : lookup_dir (dirs w3) d <> None).
  { apply D. subst w2. cbn [dirs lookup_dir]. rewrite String.eqb_refl.
    discriminate. }
  assert (T3 : forall x, x <> d ->
                 lookup_dir (dirs w3) x = lookup_dir (dirs w) x).
  { intros x Hx. rewrite (T x Hx). subst w2. cbn [dirs].
    apply lookup_after_set. exact Hx. }
  unfold CueConverter.finally_block, bind, os_remove.
  rewrite F. subst w2. cbn [files existsb]. rewrite String.eqb_refl.
  cbn [orb].
  assert (Hsub : forall x,
            In x (filter (fun f => negb (String.eqb temp_cue f))
                         (temp_cue :: files w)) ->
            In x (files w) \/ unwritten env x).
  { intros x Hin. apply filter_In in Hin. destruct Hin as [[E|Hin] Hx].
    - subst x. rewrite String.eqb_refl in Hx. discriminate.
    - left. exact Hin. }
  destruct (args_debug env); cbn [negb].
  - cbn [ret snd files dirs]. destruct r; cbn [snd files];
      (split; [exact Hsub|discriminate]).
  - unfold rmtree. cbn [dirs files trace fresh].
    destruct (lookup_dir (dirs w3) d) as [l|] eqn:El; [|contradiction].
    assert (Hd : forall x, lookup_dir (remove_tree (dirs w3) d) x <> None ->
                   lookup_dir (dirs w) x <> None).
    { intros x Hx. rewrite lookup_remove_tree in Hx.
      destruct (under d x) eqn:U; [contradiction|].
      assert (Hne : x <> d)
        by (intros ->; rewrite under_refl in U; discriminate).
      rewrite <- (T3 x Hne). exact Hx. }
    destruct r; cbn [snd files dirs]; (split; [exact Hsub|intros _; exact Hd]).
Qed.

Lemma convert_loop_leaves_nothing (env : Env) (src_dir dest_dir : string)
    (cue_album : CueAlbum) (discs : list CueDisc) :
  forallb disc_ok discs = true ->
  forall cue_disc_id n temp_dir w,
    let w' := snd (CueConverter.convert_loop env src_dir dest_dir cue_album
                     discs cue_disc_id n temp_dir w) in
    (forall x, In x (files w') -> In x (files w) \/ unwritten env x)
    /\ (args_debug env = false ->
        forall x, lookup_dir (dirs w') x <> None ->
                  lookup_dir (dirs w) x <> None).
Proof.
  induction discs as [|disc rest IH]; intros Hok id n td w.
  - cbn. auto.
  - cbn [forallb] in Hok. apply andb_true_iff in Hok.
    destruct Hok as [Hd Hrest].
    cbn [CueConverter.convert_loop].
    pose proof (convert_disc_leaves_nothing env src_dir dest_dir cue_album id
                  disc n td w Hd) as [F1 D1].
    destruct (CueConverter.convert_disc env src_dir dest_dir cue_album id disc
                n td w) as [[r td'] w1].
    cbn [snd] in F1, D1.
    destruct r as [n'|e]; [|cbn [snd]; auto].
    destruct (IH Hrest (S id) n' td' w1) as [F2 D2].
    split.
    + intros x Hx. destruct (F2 x Hx) as [H1|H1]; [apply F1, H1|right; exact H1].
    + intros Hdbg x Hx. apply (D1 Hdbg), (D2 Hdbg), Hx.
Qed.

(** X11: Whatever happens while the discs of a parsed album are converted
    (success, a splitter that fails, more files than titles, a destination
    that is a file, a sheet that cannot be written), the run leaves no
    temporary directory that was not there before, unless directories are
    kept for debugging; and every temporary sheet it leaves is one whose
    writing raised, so that it leaves none when every sheet can be
    written. *)
Theorem convert_of_parsed_album_leaves_no_temporaries
    (env : Env) (src_dir dest_dir : string) (lines : list string)
    (cue_album : CueAlbum) (w : World) :
  parse_cue_file (os_name env) lines = Ok cue_album ->
  let w' := snd (CueConverter.convert env src_dir dest_dir cue_album w) in
  (forall x, In x (files w') -> In x (files w) \/ unwritten env x)
  /\ (args_debug env = false ->
      forall x, lookup_dir (dirs w') x <> None ->
                lookup_dir (dirs w) x <> None)
  /\ ((forall k, write_fault env k = None) ->
      (forall x, In x (files w') -> In x (files w))
      /\ (files w = [] -> files w' = [])).
Proof.
  intros Hp w'. subst w'. unfold CueConverter.convert.
  destruct (convert_loop_leaves_nothing env src_dir dest_dir cue_album
              (cue_disks cue_album) (parsed_discs_ok _ _ _ Hp) 0
              CueConverter.FIRST_TRACK_START_NUMBER None w) as [F D].
  split; [exact F|]. split; [exact D|].
  intros Hw.
  assert (F' : forall x,
    In x (files (snd (CueConverter.convert_loop env src_dir dest_dir
                        cue_album (cue_disks cue_album) 0
                        CueConverter.FIRST_TRACK_START_NUMBER None w))) ->
    In x (files w)).
  { intros x Hx. destruct (F x Hx) as [H|[k [H _]]]; [exact H|].
    contradiction (H (Hw k)). }
  split; [exact F'|].
  intros He.
  destruct (files (snd (CueConverter.convert_loop env src_dir dest_dir
                          cue_album (cue_disks cue_album) 0
                          CueConverter.FIRST_TRACK_START_NUMBER None w)))
    as [|x l] eqn:E; [reflexivity|].
  exfalso. specialize (F' x (or_introl eq_refl)). rewrite He in F'. exact F'.
Qed.

Lemma convert_of_parsed_album_leaves_no_temporaries_witness :
  let lines := ["FILE a.wav WAVE"; "  TITLE One"] in
  exists a,
    parse_cue_file Py.posix lines = Ok a
    /\ fst (CueConverter.convert sample_env "/m" "flac" a empty_world)
       = Raise IndexError
    /\ files (snd (CueConverter.convert sample_env "/m" "flac" a empty_world))
       = [].
Proof.
  cbv zeta. eexists. split; [reflexivity|]. split; [vm_compute; reflexivity|].
  destruct (convert_of_parsed_album_leaves_no_temporaries sample_env "/m"
              "flac" ["FILE a.wav WAVE"; "  TITLE One"] _ empty_world eq_refl)
    as [_ [_ H]].
  apply H; reflexivity.
Defined.

(** ** The scan of the source directory *)

Lemma dict_get_add (d : dict) (k' v k : string) :
  dict_get (dict_add d k' v) k =
  if String.eqb k' k
  then Some (match dict_get d k with Some l => l | None => [] end ++ [v])%list
  else dict_get d k.
Proof.
  induction d as [|[k0 l] d IH]; cbn [dict_add dict_get].
  - destruct (String.eqb k' k); reflexivity.
  - destruct (String.eqb k0 k') eqn:E0.
    + apply String.eqb_eq in E0. subst k0. cbn [dict_get].
      destruct (String.eqb k' k); reflexivity.
    + cbn [dict_get]. destruct (String.eqb k0 k) eqn:E1.
      * apply String.eqb_eq in E1. subst k0.
        rewrite String.eqb_sym, E0. reflexivity.
      * exact IH.
Qed.

Lemma dict_get_group (fs : list string) :
  forall (d : dict) (k : string),
    dict_get (group fs d) k =
    match dict_get d k with
    | Some l => Some (l ++ filter (has_ext k) fs)%list
    | None => entry_of (filter (has_ext k) fs)
    end.
Proof.
  induction fs as [|p fs IH]; intros d k; cbn [group fold_left filter].
  - destruct (dict_get d k); [rewrite app_nil_r|]; reflexivity.
  - change (fold_left _ fs ?d0) with (group fs d0).
    rewrite IH, dict_get_add.
    destruct (has_ext k p) eqn:E; unfold has_ext in E; rewrite E.
    + destruct (dict_get d k) as [l|]; cbn [entry_of app].
      * rewrite <- app_assoc. reflexivity.
      * reflexivity.
    + reflexivity.
Qed.

Lemma group_app (a b : list string) (d : dict) :
  group (a ++ b) d = group b (group a d).
Proof. unfold group. apply fold_left_app. Qed.

Lemma scan_directory_rec_walk (env : Env) (recursive : bool) (w : World) :
  forall (depth : nat) (src_dir : string) (files_dict : dict),
    FileUtils.scan_directory_rec env depth src_dir files_dict recursive w =
    (rbind (walk env (dirs w) depth src_dir recursive)
           (fun fs => Ok (group fs files_dict)), w).
Proof.
  induction depth as [|n IH]; intros src_dir files_dict.
  - reflexivity.
  - cbn [FileUtils.scan_directory_rec walk]. unfold bind at 1, listdir.
    destruct (lookup_dir (dirs w) src_dir) as [names|]; [|reflexivity].
    revert files_dict.
    induction names as [|f rest IHn]; intros files_dict.
    + reflexivity.
    + cbn zeta.
      destruct (isfile env (Py.path_join src_dir (fst f))).
      * rewrite IHn.
        match goal with |- context [rbind (rbind ?x _) _] => destruct x end;
          reflexivity.
      * destruct recursive.
        -- unfold bind at 1. rewrite IH.
           destruct (walk env (dirs w) n (Py.path_join src_dir (fst f)) true)
             as [fs1|e]; cbn [rbind]; [|reflexivity].
           rewrite IHn.
           match goal with |- context [rbind (rbind ?x _) _] => destruct x end;
             cbn [rbind]; [rewrite group_app|]; reflexivity.
        -- apply IHn.
Qed.

Lemma walk_sound (env : Env) (ds : list (string * list dirent))
    (recursive : bool) :
  forall (depth : nat) (src_dir : string) (fs : list string),
    walk env ds depth src_dir recursive = Ok fs ->
    forall p, In p fs -> below env ds recursive src_dir p.
Proof.
  induction depth as [|n IH]; intros src_dir fs H p Hp; [discriminate|].
  cbn [walk] in H.
  destruct (lookup_dir ds src_dir) as [names|] eqn:L; [|discriminate].
  pose (all := names). assert (Hin : incl names all) by apply incl_refl.
  change (lookup_dir ds src_dir = Some all) in L. clearbody all.
  revert fs H Hp Hin.
  induction names as [|f rest IHn]; intros fs H Hp Hin.
  - inversion H. subst fs. destruct Hp.
  - cbn zeta in H.
    assert (Hf : In f all) by (apply Hin; left; reflexivity).
    assert (Hr : incl rest all) by (intros g Hg; apply Hin; right; exact Hg).
    destruct (isfile env (Py.path_join src_dir (fst f))) eqn:F.
    + match type of H with rbind ?x _ = _ => destruct x as [fs'|] eqn:R end;
        [|discriminate].
      cbn [rbind] in H. inversion H. subst fs.
      destruct Hp as [<-|Hp].
      * apply (below_here _ _ _ _ all); auto.
      * apply (IHn fs'); auto.
    + destruct recursive eqn:Rc.
      * destruct (walk env ds n (Py.path_join src_dir (fst f)) true)
          as [fs1|] eqn:W; [|discriminate].
        cbn [rbind] in H.
        match type of H with rbind ?x _ = _ => destruct x as [fs'|] eqn:R end;
          [|discriminate].
        cbn [rbind] in H. inversion H. subst fs.
        apply in_app_or in Hp. destruct Hp as [Hp|Hp].
        -- apply (below_deeper _ _ _ _ all f); auto.
           apply (IH _ _ W). exact Hp.
        -- apply (IHn fs'); auto.
      * apply (IHn fs); auto.
Qed.

(** What the scan of one directory yields, entry by entry. *)
Lemma walk_entries (env : Env) (ds : list (string * list dirent))
    (recursive : bool) (n : nat) (src_dir : string) (names : list dirent)
    (fs : list string) :
  lookup_dir ds src_dir = Some names ->
  walk env ds (S n) src_dir recursive = Ok fs ->
  forall f, In f names ->
    if isfile env (Py.path_join src_dir (fst f))
    then In (Py.path_join src_dir (fst f)) fs
    else recursive = true ->
         exists fs1,
           walk env ds n (Py.path_join src_dir (fst f)) true = Ok fs1
           /\ forall p, In p fs1 -> In p fs.
Proof.
  intros L H. cbn [walk] in H. rewrite L in H. clear L.
  revert fs H.
  induction names as [|g rest IHn]; intros fs H f Hf; [destruct Hf|].
  cbn zeta in H.
  destruct (isfile env (Py.path_join src_dir (fst g))) eqn:F.
  - match type of H with rbind ?x _ = _ => destruct x as [fs'|] eqn:R end;
      [|discriminate].
    cbn [rbind] in H. inversion H. subst fs.
    destruct Hf as [<-|Hf].
    + rewrite F. left. reflexivity.
    + specialize (IHn fs' eq_refl f Hf).
      destruct (isfile env (Py.path_join src_dir (fst f))).
      * right. exact IHn.
      * intros Rc. destruct (IHn Rc) as [fs1 [W S1]].
        exists fs1. split; [exact W|]. intros p Hp. right. auto.
  - destruct recursive eqn:Rc.
    + destruct (walk env ds n (Py.path_join src_dir (fst g)) true)
        as [fs1|] eqn:W; [|discriminate].
      cbn [rbind] in H.
      match type of H with rbind ?x _ = _ => destruct x as [fs'|] eqn:R end;
        [|discriminate].
      cbn [rbind] in H. inversion H. subst fs.
      destruct Hf as [<-|Hf].
      * rewrite F. intros _. exists fs1. split; [exact W|].
        intros p Hp. apply in_or_app. left. exact Hp.
      * specialize (IHn fs' eq_refl f Hf).
        destruct (isfile env (Py.path_join src_dir (fst f))).
        -- apply in_or_app. right. exact IHn.
        -- intros _. destruct (IHn eq_refl) as [fs2 [W2 S2]].
           exists fs2. split; [exact W2|]. intros p Hp.
           apply in_or_app. right. auto.
    + destruct Hf as [<-|Hf].
      * rewrite F. discriminate.
      * specialize (IHn fs H f Hf).
        destruct (isfile env (Py.path_join src_dir (fst f))); [exact IHn|].
        discriminate.
Qed.

Lemma walk_complete (env : Env) (ds : list (string * list dirent))
    (recursive : bool) (src_dir p : string) :
  below env ds recursive src_dir p ->
  forall (depth : nat) (fs : list string),
    walk env ds depth src_dir recursive = Ok fs -> In p fs.
Proof.
  induction 1 as [d names f L Hf F|d names f p L Hf F Rc B IH];
    intros depth fs W; (destruct depth as [|n]; [discriminate|]).
  - pose proof (walk_entries _ _ _ _ _ _ _ L W f Hf) as E.
    rewrite F in E. exact E.
  - pose proof (walk_entries _ _ _ _ _ _ _ L W f Hf) as E.
    rewrite F in E. destruct (E Rc) as [fs1 [W1 S1]].
    apply S1. subst recursive. exact (IH _ _ W1).
Qed.

Lemma in_entry_of (l : list string) (p : string) :
  In p (match entry_of l with Some l' => l' | None => [] end) <-> In p l.
Proof. destruct l; cbn; tauto. Qed.

(** X12: the scan changes nothing; it yields the error of the walk through
    the directories, or a dictionary that holds, for every extension, the
    files of the walk with that extension in the order of the walk, and no
    key without a file. *)
Theorem scan_lists_each_extension_in_visiting_order (env : Env)
    (src_dir : string) (recursive : bool) (w : World) :
  snd (FileUtils.scan_directory env src_dir recursive w) = w
  /\ match walk env (dirs w) (recursionlimit env) src_dir recursive with
     | Ok fs =>
         exists d,
           fst (FileUtils.scan_directory env src_dir recursive w) = Ok d
           /\ forall k, dict_get d k = entry_of (filter (has_ext k) fs)
     | Raise e =>
         fst (FileUtils.scan_directory env src_dir recursive w) = Raise e
     end.
Proof.
  unfold FileUtils.scan_directory. rewrite scan_directory_rec_walk.
  split; [reflexivity|].
  destruct (walk env (dirs w) (recursionlimit env) src_dir recursive)
    as [fs|e]; cbn [rbind fst]; [|reflexivity].
  exists (group fs []). split; [reflexivity|].
  intros k. rewrite dict_get_group. reflexivity.
Qed.

(** X13: when the scan returns, a path is listed under an extension exactly
    when it is a file below the source directory (in it, or with
    [recursive] in a directory below it) and has that extension in lower
    case. *)
Theorem scan_reports_exactly_the_files_below (env : Env) (src_dir : string)
    (recursive : bool) (w w' : World) (d : dict) :
  FileUtils.scan_directory env src_dir recursive w = (Ok d, w') ->
  forall k p,
    In p (dict_index d k) <->
    below env (dirs w) recursive src_dir p /\ FileUtils.file_ext p = k.
Proof.
  unfold FileUtils.scan_directory. rewrite scan_directory_rec_walk.
  destruct (walk env (dirs w) (recursionlimit env) src_dir recursive)
    as [fs|e] eqn:W; cbn [rbind]; [|discriminate].
  intros H k p. inversion H. subst d w'.
  unfold dict_index. rewrite dict_get_group. cbn [dict_get].
  rewrite in_entry_of, filter_In. unfold has_ext. rewrite String.eqb_eq.
  split; intros [A B]; split; auto.
  - exact (walk_sound _ _ _ _ _ _ W p A).
  - exact (walk_complete _ _ _ _ _ A _ _ W).
Qed.

Lemma scan_reports_exactly_the_files_below_witness :
  exists d,
    FileUtils.scan_directory (music_env true) "/m" true music_world
    = (Ok d, music_world)
    /\ dict_index d "wav" = ["/m/a.wav"; "/m/sub/c.Wav"]
    /\ (In "/m/sub/c.Wav" (dict_index d "wav") <->
        below (music_env true) music_dirs true "/m" "/m/sub/c.Wav"
        /\ FileUtils.file_ext "/m/sub/c.Wav" = "wav").
Proof.
  eexists. split; [vm_compute; reflexivity|]. split; [reflexivity|].
  apply (scan_reports_exactly_the_files_below (music_env true) "/m" true
           music_world music_world).
  vm_compute. reflexivity.
Defined.

(** X14: with [recursive] off and a source directory that can be listed, the
    scan returns, whatever the entries that are no files are: the
    dictionary holds the files of the directory itself, by extension and in
    the order of the listing. *)
Theorem scan_of_the_top_directory_only (env : Env) (src_dir : string)
    (names : list dirent) (w : World) :
  lookup_dir (dirs w) src_dir = Some names ->
  recursionlimit env <> 0 ->
  exists d,
    FileUtils.scan_directory env src_dir false w = (Ok d, w)
    /\ forall k,
         dict_get d k =
         entry_of (filter (has_ext k)
                     (filter (isfile env)
                        (map (fun f => Py.path_join src_dir (fst f)) names))).
Proof.
  intros L Hn. unfold FileUtils.scan_directory.
  rewrite scan_directory_rec_walk.
  destruct (recursionlimit env) as [|n]; [congruence|].
  cbn [walk]. rewrite L.
  assert (E : forall l,
    (fix loop (names0 : list dirent) : result (list string) :=
       match names0 with
       | [] => Ok []
       | f :: rest =>
           if isfile env (Py.path_join src_dir (fst f))
           then rbind (loop rest)
                  (fun fs => Ok (Py.path_join src_dir (fst f) :: fs))
           else loop rest
       end) l
    = Ok (filter (isfile env)
            (map (fun f => Py.path_join src_dir (fst f)) l))).
  { induction l as [|f rest IH]; [reflexivity|].
    cbn [map filter].
    destruct (isfile env (Py.path_join src_dir (fst f))).
    - rewrite IH. reflexivity.
    - exact IH. }
  rewrite E. cbn [rbind].
  eexists. split; [reflexivity|]. intros k. rewrite dict_get_group.
  reflexivity.
Qed.

Lemma scan_of_the_top_directory_only_witness :
  exists d,
    FileUtils.scan_directory (music_env true) "/m" false music_world
    = (Ok d, music_world)
    /\ dict_get d "wav" = Some ["/m/a.wav"]
    /\ dict_get d "ape" = None.
Proof.
  destruct (scan_of_the_top_directory_only (music_env true) "/m"
              [("a.CUE", 1%Z); ("a.wav", 2%Z); ("cueconvert_x1", 3%Z);
               ("sub", 4%Z)] music_world eq_refl)
    as [d [R G]].
  - discriminate.
  - exists d. split; [exact R|]. rewrite !G. split; reflexivity.
Defined.

(** ** The sweep of old temporary directories *)

Lemma append_inv_head (a x y : string) : a ++ x = a ++ y -> x = y.
Proof.
  induction a as [|c a IH]; cbn [append]; intros H; [exact H|].
  inversion H. auto.
Qed.

(** A relative name is put behind the directory and a separator that the
    directory alone decides. *)
Lemma path_join_relative (a b : string) :
  Py.startswith b "/" = false ->
  exists sep, (forall b', Py.startswith b' "/" = false ->
                          Py.path_join a b' = a ++ sep ++ b').
Proof.
  intros _. unfold Py.path_join.
  destruct a as [|c a].
  - exists EmptyString. intros b' ->. reflexivity.
  - destruct (String.prefix "/"
               (string_of_list_ascii (rev (list_ascii_of_string (String c a))))).
    + exists EmptyString. intros b' ->. reflexivity.
    + exists "/". intros b' ->. reflexivity.
Qed.

Lemma old_dir_relative (e : dirent) :
  FileUtils.is_old_dir e = true ->
  Py.startswith (fst e) "/" = false /\ fst e <> EmptyString.
Proof.
  unfold FileUtils.is_old_dir, Py.startswith.
  destruct (fst e) as [|c r]; [discriminate|].
  rewrite !prefix_cons. intros H. apply andb_prop in H. destruct H as [H _].
  apply Ascii.eqb_eq in H. subst c. split; [reflexivity|discriminate].
Qed.

Lemma old_dir_not_parent (src_dir : string) (e : dirent) :
  FileUtils.is_old_dir e = true -> Py.path_join src_dir (fst e) <> src_dir.
Proof.
  intros H. destruct (old_dir_relative e H) as [R N].
  destruct (path_join_relative src_dir (fst e) R) as [sep J].
  rewrite (J _ R). intros E.
  apply (f_equal String.length) in E. rewrite !length_append in E.
  destruct (fst e); [congruence|]. cbn [String.length] in E. lia.
Qed.

Lemma old_dir_inj (src_dir : string) (e1 e2 : dirent) :
  FileUtils.is_old_dir e1 = true -> FileUtils.is_old_dir e2 = true ->
  Py.path_join src_dir (fst e1) = Py.path_join src_dir (fst e2) ->
  fst e1 = fst e2.
Proof.
  intros H1 H2. destruct (old_dir_relative e1 H1) as [R1 _].
  destruct (old_dir_relative e2 H2) as [R2 _].
  destruct (path_join_relative src_dir (fst e1) R1) as [sep J].
  rewrite (J _ R1), (J _ R2). intros E.
  apply append_inv_head in E. apply append_inv_head in E. exact E.
Qed.

Lemma is_old_dir_name (e1 e2 : dirent) :
  fst e1 = fst e2 -> FileUtils.is_old_dir e1 = FileUtils.is_old_dir e2.
Proof. unfold FileUtils.is_old_dir. intros ->. reflexivity. Qed.

Lemma prefix_length (p s : string) :
  String.prefix p s = true -> String.length p <= String.length s.
Proof.
  revert s. induction p as [|a p IH]; intros s H; [cbn; lia|].
  destruct s as [|b s]; [discriminate|].
  rewrite prefix_cons in H. apply andb_prop in H. destruct H as [_ H].
  specialize (IH s H). cbn [String.length]. lia.
Qed.

Lemma prefix_append_same (a x y : string) :
  String.prefix (a ++ x) (a ++ y) = String.prefix x y.
Proof.
  induction a as [|c a IH]; [reflexivity|].
  cbn [append]. rewrite prefix_cons, Ascii.eqb_refl. exact IH.
Qed.

Lemma ends_with_sep_append (a n : string) :
  n <> EmptyString -> ends_with_sep (a ++ n) = ends_with_sep n.
Proof.
  intros Hn. induction a as [|c a IH]; [reflexivity|].
  cbn [append ends_with_sep]. rewrite IH.
  destruct (a ++ n) as [|d r] eqn:E; [|reflexivity].
  destruct a; [cbn in E; congruence|discriminate].
Qed.

Lemma no_sep_end (n : string) : no_sep n = true -> ends_with_sep n = false.
Proof.
  induction n as [|c r IH]; [reflexivity|].
  cbn [no_sep ends_with_sep]. intros H. apply andb_prop in H.
  destruct H as [Hc Hr]. destruct r as [|d r'].
  - destruct (Ascii.eqb c "/"); [discriminate|reflexivity].
  - exact (IH Hr).
Qed.

Lemma prefix_sep_inside (n n' : string) :
  String.prefix (n ++ "/") n' = true -> no_sep n' = false.
Proof.
  revert n'. induction n as [|c r IH]; intros n' H.
  - destruct n' as [|d r']; [discriminate|].
    cbn [append] in H. rewrite prefix_cons in H. apply andb_prop in H.
    destruct H as [H _]. apply Ascii.eqb_eq in H. subst d. reflexivity.
  - destruct n' as [|d r']; [discriminate|].
    cbn [append] in H. rewrite prefix_cons in H. apply andb_prop in H.
    destruct H as [_ H]. cbn [no_sep]. rewrite (IH r' H).
    apply andb_false_r.
Qed.

(** What lies under an old directory of [src_dir]: the directory itself
    and the names that go on behind it and a separator. *)
Lemma under_old_dir (src_dir : string) (e : dirent) (x : string) :
  FileUtils.is_old_dir e = true -> no_sep (fst e) = true ->
  under (Py.path_join src_dir (fst e)) x =
  String.eqb x (Py.path_join src_dir (fst e))
  || String.prefix (Py.path_join src_dir (fst e) ++ "/") x.
Proof.
  intros Ho Hs. unfold under. destruct (old_dir_relative e Ho) as [R N].
  destruct (path_join_relative src_dir (fst e) R) as [sep J].
  rewrite (J _ R), <- append_assoc, (ends_with_sep_append _ _ N),
    (no_sep_end _ Hs).
  reflexivity.
Qed.

Lemma parent_not_under_old_dir (src_dir : string) (e : dirent) :
  FileUtils.is_old_dir e = true -> no_sep (fst e) = true ->
  under (Py.path_join src_dir (fst e)) src_dir = false.
Proof.
  intros Ho Hs. rewrite (under_old_dir _ _ _ Ho Hs).
  apply orb_false_iff. split.
  - apply String.eqb_neq. intros E. symmetry in E.
    exact (old_dir_not_parent src_dir e Ho E).
  - destruct (String.prefix _ src_dir) eqn:P; [|reflexivity].
    apply prefix_length in P. destruct (old_dir_relative e Ho) as [R N].
    destruct (path_join_relative src_dir (fst e) R) as [sep J].
    rewrite (J _ R), !length_append in P. cbn [String.length] in P. lia.
Qed.

Lemma other_old_dir_not_under (src_dir : string) (e e' : dirent) :
  FileUtils.is_old_dir e = true -> no_sep (fst e) = true ->
  FileUtils.is_old_dir e' = true -> no_sep (fst e') = true ->
  fst e <> fst e' ->
  under (Py.path_join src_dir (fst e)) (Py.path_join src_dir (fst e')) = false.
Proof.
  intros Ho Hs Ho' Hs' Hne. rewrite (under_old_dir _ _ _ Ho Hs).
  apply orb_false_iff. split.
  - apply String.eqb_neq. intros E. apply Hne. symmetry.
    exact (old_dir_inj src_dir e' e Ho' Ho E).
  - destruct (old_dir_relative e Ho) as [R _].
    destruct (old_dir_relative e' Ho') as [R' _].
    destruct (path_join_relative src_dir (fst e) R) as [sep J].
    rewrite (J _ R), (J _ R'), !append_assoc, !prefix_append_same.
    destruct (String.prefix (fst e ++ "/") (fst e')) eqn:P; [|reflexivity].
    apply prefix_sep_inside in P. congruence.
Qed.

(** The world after the entry [e] of [src_dir], a directory, is removed
    with what it holds. *)
Lemma rmtree_entry_spec (src_dir : string) (e : dirent) (cur : list dirent)
    (w : World) :
  FileUtils.is_old_dir e = true -> no_sep (fst e) = true ->
  lookup_dir (dirs w) src_dir = Some cur ->
  lookup_dir (dirs w) (Py.path_join src_dir (fst e)) <> None ->
  exists w',
    FileUtils.rmtree_entry src_dir e w = (Ok tt, w')
    /\ trace w' = (trace w ++ [Rmtree (Py.path_join src_dir (fst e))])%list
    /\ lookup_dir (dirs w') src_dir =
       Some (filter (fun e' => negb (String.eqb (fst e') (fst e))) cur)
    /\ (forall x, x <> src_dir ->
          lookup_dir (dirs w') x =
          if under (Py.path_join src_dir (fst e)) x then None
          else lookup_dir (dirs w) x)
    /\ files w' = files w.
Proof.
  intros Ho Hn Hs Hd. unfold FileUtils.rmtree_entry. cbn zeta.
  pose proof (parent_not_under_old_dir src_dir e Ho Hn) as Hu.
  destruct (lookup_dir (dirs w) (Py.path_join src_dir (fst e))) as [sub|] eqn:L;
    [|congruence].
  unfold bind, rmtree. rewrite L. unfold FileUtils.unlist. cbn [dirs].
  rewrite lookup_remove_tree, Hu, Hs.
  eexists. split; [reflexivity|]. cbn [set_dir snd trace dirs files lookup_dir].
  rewrite String.eqb_refl.
  split; [reflexivity|]. split; [reflexivity|].
  split; [|reflexivity]. intros x X1.
  assert (E1 : String.eqb src_dir x = false)
    by (apply String.eqb_neq; congruence).
  rewrite E1, (lookup_remove_dir_other _ _ _ E1).
  apply lookup_remove_tree.
Qed.

Lemma old_names_distinct (names : list dirent) :
  NoDup (map fst names) ->
  NoDup (map fst (filter FileUtils.is_old_dir names)).
Proof.
  intros H. induction names as [|e names IH]; [constructor|].
  cbn [map filter] in *. inversion H as [|x xs Hx Hl]. subst.
  destruct (FileUtils.is_old_dir e); [|auto].
  cbn [map]. constructor; [|auto].
  intros Hin. apply Hx. apply in_map_iff in Hin.
  destruct Hin as [b [Hb Hin]]. apply filter_In in Hin.
  apply in_map_iff. exists b. tauto.
Qed.

Lemma rmtree_each_spec (src_dir : string) :
  forall (olds cur : list dirent) (w : World),
    lookup_dir (dirs w) src_dir = Some cur ->
    NoDup (map fst olds) ->
    (forall e, In e olds ->
       FileUtils.is_old_dir e = true /\ no_sep (fst e) = true
       /\ lookup_dir (dirs w) (Py.path_join src_dir (fst e)) <> None) ->
    exists w',
      FileUtils.rmtree_each src_dir olds w = (Ok tt, w')
      /\ trace w' =
         (trace w
          ++ map (fun e => Rmtree (Py.path_join src_dir (fst e))) olds)%list
      /\ lookup_dir (dirs w') src_dir =
         Some (filter (fun e => negb (named_in olds e)) cur)
      /\ (forall x, x <> src_dir ->
            lookup_dir (dirs w') x =
            if swept src_dir olds x then None else lookup_dir (dirs w) x)
      /\ files w' = files w.
Proof.
  induction olds as [|e olds IH]; intros cur w Hs Hnd Hall.
  - exists w. cbn [FileUtils.rmtree_each map named_in swept existsb negb].
    rewrite app_nil_r. split; [reflexivity|]. split; [reflexivity|].
    split.
    + rewrite Hs. f_equal. clear.
      induction cur as [|c cur IHc]; [reflexivity|].
      cbn [filter]. f_equal. exact IHc.
    + split; auto.
  - destruct (Hall e (or_introl eq_refl)) as [Ho [Hn Hd]].
    destruct (rmtree_entry_spec src_dir e cur w Ho Hn Hs Hd)
      as [w1 [R1 [T1 [S1 [O1 F1]]]]].
    inversion Hnd as [|x xs Hx Hnd']. subst.
    assert (Hall' : forall e', In e' olds ->
              FileUtils.is_old_dir e' = true /\ no_sep (fst e') = true
              /\ lookup_dir (dirs w1) (Py.path_join src_dir (fst e')) <> None).
    { intros e' He'. destruct (Hall e' (or_intror He')) as [Ho' [Hn' Hd']].
      split; [exact Ho'|]. split; [exact Hn'|].
      rewrite O1 by (apply old_dir_not_parent; exact Ho').
      rewrite (other_old_dir_not_under src_dir e e' Ho Hn Ho' Hn').
      - exact Hd'.
      - intros E. apply Hx. rewrite E. apply in_map. exact He'. }
    destruct (IH _ w1 S1 Hnd' Hall') as [w2 [R2 [T2 [S2 [O2 F2]]]]].
    exists w2. cbn [FileUtils.rmtree_each]. unfold bind at 1. rewrite R1.
    split; [exact R2|]. split.
    { rewrite T2, T1, <- app_assoc. reflexivity. }
    split.
    { rewrite S2. f_equal. clear.
      induction cur as [|c cur IHc]; [reflexivity|].
      cbn [filter named_in existsb].
      destruct (String.eqb (fst c) (fst e)); cbn [negb orb filter].
      - exact IHc.
      - fold (named_in olds c). destruct (named_in olds c); cbn [negb].
        + exact IHc.
        + rewrite IHc. reflexivity. }
    split; [|congruence].
    intros x X1. rewrite (O2 x X1), (O1 x X1). cbn [swept existsb].
    fold (swept src_dir olds x).
    destruct (under (Py.path_join src_dir (fst e)) x);
      destruct (swept src_dir olds x); reflexivity.
Qed.

(** X15: the sweep removes the entries of the source directory itself whose
    name begins with [cueconvert_], in the order of the listing, each with
    all that it holds, and nothing else: the other entries stay listed,
    and a directory that lies in none of them (an old temporary directory
    in a subdirectory, say) is as it was. *)
Theorem sweep_removes_the_old_directories_of_the_top_level
    (src_dir : string) (l : list dirent) (w : World) :
  lookup_dir (dirs w) src_dir = Some l ->
  NoDup (map fst l) ->
  (forall e, In e l -> no_sep (fst e) = true) ->
  (forall e, In e l -> FileUtils.is_old_dir e = true ->
             lookup_dir (dirs w) (Py.path_join src_dir (fst e)) <> None) ->
  exists w',
    FileUtils.clean_up_old_dirs src_dir w = (Ok tt, w')
    /\ new_events w w' =
       map (fun e => Rmtree (Py.path_join src_dir (fst e)))
           (filter FileUtils.is_old_dir l)
    /\ lookup_dir (dirs w') src_dir =
       Some (filter (fun e => negb (FileUtils.is_old_dir e)) l)
    /\ (forall e x, In e l -> FileUtils.is_old_dir e = true ->
          under (Py.path_join src_dir (fst e)) x = true ->
          lookup_dir (dirs w') x = None)
    /\ (forall x, x <> src_dir ->
          (forall e, In e l -> FileUtils.is_old_dir e = true ->
                     under (Py.path_join src_dir (fst e)) x = false) ->
          lookup_dir (dirs w') x = lookup_dir (dirs w) x)
    /\ files w' = files w.
Proof.
  intros Hs Hnd Hsep Hall. unfold FileUtils.clean_up_old_dirs, bind, listing.
  rewrite Hs.
  destruct (rmtree_each_spec src_dir (filter FileUtils.is_old_dir l) l w Hs
              (old_names_distinct l Hnd))
    as [w' [R [T [S [O F]]]]].
  { intros e He. apply filter_In in He. destruct He as [He Ho]. auto. }
  exists w'. split; [exact R|].
  split; [apply new_events_app; exact T|].
  split.
  { rewrite S. f_equal. apply filter_ext_in. intros e He. f_equal.
    unfold named_in.
    destruct (FileUtils.is_old_dir e) eqn:Eo.
    - apply existsb_exists. exists e. split.
      + apply filter_In. auto.
      + apply String.eqb_refl.
    - destruct (existsb _ _) eqn:Ex; [|reflexivity].
      apply existsb_exists in Ex. destruct Ex as [o [Ho Eq]].
      apply filter_In in Ho. apply String.eqb_eq in Eq.
      rewrite (is_old_dir_name e o Eq) in Eo. destruct Ho. congruence. }
  split.
  { intros e x He Ho Hu.
    assert (X1 : x <> src_dir).
    { intros ->.
      rewrite (parent_not_under_old_dir src_dir e Ho (Hsep e He)) in Hu.
      discriminate. }
    rewrite (O x X1).
    replace (swept src_dir (filter FileUtils.is_old_dir l) x) with true;
      [reflexivity|].
    symmetry. apply existsb_exists. exists e. split; [|exact Hu].
    apply filter_In. auto. }
  split; [|exact F].
  intros x X1 X2. rewrite (O x X1).
  replace (swept src_dir (filter FileUtils.is_old_dir l) x) with false;
    [reflexivity|].
  symmetry. destruct (swept _ _ x) eqn:Sw; [|reflexivity].
  apply existsb_exists in Sw. destruct Sw as [e [He Hu]].
  apply filter_In in He. destruct He as [He Ho].
  rewrite (X2 e He Ho) in Hu. discriminate.
Qed.

Lemma sweep_removes_the_old_directories_of_the_top_level_witness :
  exists w',
    FileUtils.clean_up_old_dirs "/m" stale_world = (Ok tt, w')
    /\ new_events stale_world w' = [Rmtree "/m/cueconvert_x1"]
    /\ lookup_dir (dirs w') "/m" = Some [("a.CUE", 1%Z); ("sub", 3%Z)]
    /\ lookup_dir (dirs w') "/m/cueconvert_x1/part" = None
    /\ lookup_dir (dirs w') "/m/sub/cueconvert_deep" = Some [].
Proof.
  destruct (sweep_removes_the_old_directories_of_the_top_level "/m"
              [("a.CUE", 1%Z); ("cueconvert_x1", 2%Z); ("sub", 3%Z)]
              stale_world eq_refl)
    as [w' [R [T [S [G [O _]]]]]].
  - repeat constructor; cbn; intuition discriminate.
  - intros e [<-|[<-|[<-|[]]]]; reflexivity.
  - intros e [<-|[<-|[<-|[]]]]; cbn; discriminate.
  - exists w'. split; [exact R|]. split; [exact T|]. split; [exact S|].
    split.
    + apply (G ("cueconvert_x1", 2%Z)); [right; left| |]; reflexivity.
    + rewrite O; [reflexivity|discriminate|].
      intros e [<-|[<-|[<-|[]]]]; cbn; try discriminate; reflexivity.
Defined.

(** X16: an entry of the source directory that bears the prefix and is no
    directory stops the sweep with an error; the old directories listed
    after it stay. *)
Theorem sweep_stops_at_a_file_with_the_prefix (src_dir : string)
    (before after : list dirent) (e : dirent) (w : World) :
  lookup_dir (dirs w) src_dir = Some (before ++ e :: after)%list ->
  (forall b, In b before -> FileUtils.is_old_dir b = false) ->
  FileUtils.is_old_dir e = true ->
  lookup_dir (dirs w) (Py.path_join src_dir (fst e)) = None ->
  exists msg,
    FileUtils.clean_up_old_dirs src_dir w = (Raise (IOError msg), w).
Proof.
  intros Hs Hb Ho Hd. unfold FileUtils.clean_up_old_dirs, bind, listing.
  rewrite Hs, filter_app.
  assert (E : filter FileUtils.is_old_dir before = []).
  { clear Hs. induction before as [|b l IH]; [reflexivity|].
    cbn [filter]. rewrite (Hb b (or_introl eq_refl)).
    apply IH. intros x Hx. apply Hb. right. exact Hx. }
  rewrite E. cbn [app filter]. rewrite Ho. cbn [FileUtils.rmtree_each].
  unfold bind, FileUtils.rmtree_entry. cbn zeta. rewrite Hd.
  eexists. reflexivity.
Qed.

Lemma sweep_stops_at_a_file_with_the_prefix_witness :
  exists msg,
    FileUtils.clean_up_old_dirs "/m" prefixed_file_world
    = (Raise (IOError msg), prefixed_file_world).
Proof.
  apply (sweep_stops_at_a_file_with_the_prefix "/m" [("a.CUE", 1%Z)]
           [("cueconvert_x1", 3%Z)] ("cueconvert_notes", 2%Z)
           prefixed_file_world eq_refl).
  - intros b [<-|[]]. reflexivity.
  - reflexivity.
  - reflexivity.
Defined.

(** ** Sheets or single files *)

Lemma ffmpeg_free_ret {A} (a : A) : ffmpeg_free (ret a).
Proof. intros w. exists []. cbn. rewrite app_nil_r. auto. Qed.

Lemma ffmpeg_free_raise {A} (e : exn) : ffmpeg_free (@raise A e).
Proof. intros w. exists []. cbn. rewrite app_nil_r. auto. Qed.

Lemma ffmpeg_free_lift {A} (r : result A) : ffmpeg_free (lift r).
Proof. intros w. exists []. cbn. rewrite app_nil_r. auto. Qed.

Lemma ffmpeg_free_log (e : event) : is_ffmpeg e = false -> ffmpeg_free (log e).
Proof. intros H w. exists [e]. cbn. rewrite H. auto. Qed.

Lemma ffmpeg_free_bind {A B} (m : M A) (k : A -> M B) :
  ffmpeg_free m -> (forall a, ffmpeg_free (k a)) -> ffmpeg_free (bind m k).
Proof.
  intros Hm Hk w. unfold bind.
  destruct (Hm w) as [e1 [T1 Q1]].
  destruct (m w) as [[a|e] w1]; cbn [snd] in *.
  - destruct (Hk a w1) as [e2 [T2 Q2]].
    exists (e1 ++ e2)%list. rewrite T2, T1, app_assoc, existsb_app, Q1, Q2.
    auto.
  - exists e1. auto.
Qed.

Lemma ffmpeg_free_same_trace {A} (m : M A) :
  (forall w, trace (snd (m w)) = trace w) -> ffmpeg_free m.
Proof. intros H w. exists []. rewrite H, app_nil_r. auto. Qed.

Lemma ffmpeg_free_set_dir (d : string) (l : list dirent) :
  ffmpeg_free (set_dir d l).
Proof. apply ffmpeg_free_same_trace. reflexivity. Qed.

Lemma ffmpeg_free_listing (d : string) : ffmpeg_free (listing d).
Proof.
  apply ffmpeg_free_same_trace. intros w. unfold listing.
  destruct (lookup_dir (dirs w) d); reflexivity.
Qed.

Lemma ffmpeg_free_listdir (d : string) : ffmpeg_free (listdir d).
Proof.
  apply ffmpeg_free_same_trace. intros w. unfold listdir.
  destruct (lookup_dir (dirs w) d); reflexivity.
Qed.

Lemma ffmpeg_free_os_remove (path : string) : ffmpeg_free (os_remove path).
Proof.
  intros w. unfold os_remove.
  destruct (existsb (String.eqb path) (files w)).
  - exists [Remove path]. auto.
  - exists []. cbn. rewrite app_nil_r. auto.
Qed.

Lemma ffmpeg_free_rmtree (path : string) : ffmpeg_free (rmtree path).
Proof.
  intros w. unfold rmtree. destruct (lookup_dir (dirs w) path).
  - exists [Rmtree path]. auto.
  - exists []. cbn. rewrite app_nil_r. auto.
Qed.

Lemma ffmpeg_free_mkdtemp (env : Env) (src_dir : string) :
  ffmpeg_free (mkdtemp env src_dir).
Proof. intros w. eexists [_]. cbn. auto. Qed.

Lemma metaflac_not_ffmpeg (cmd : list string) :
  hd_error cmd = Some "metaflac" -> is_ffmpeg (Exec cmd) = false.
Proof.
  destruct cmd as [|x cmd]; [discriminate|].
  intros H. inversion H. reflexivity.
Qed.

Lemma tag_cmd_not_ffmpeg (flac_file : string) (cue_album : CueAlbum)
    (disc_id track_id : nat) (cmd : list string) :
  CueToFlacTagUtils.tag_cmd flac_file cue_album disc_id track_id = Ok cmd ->
  is_ffmpeg (Exec cmd) = false.
Proof.
  unfold CueToFlacTagUtils.tag_cmd. intros H.
  destruct (get_disc cue_album disc_id) as [disc|]; [|discriminate].
  cbn [rbind] in H.
  destruct (Shlex.item (titles_tags disc) track_id) as [title|];
    [|discriminate].
  cbn [rbind] in H. apply metaflac_not_ffmpeg.
  injection H as <-.
  apply hd_app_one.
  apply (add_if_present_head _ "--set-tag=DATE" _ (year_tag cue_album)).
  apply (add_if_present_head _ "--set-tag=TITLE" _ (Some title)).
  apply (add_if_present_head _ "--set-tag=ALBUM" _ (album_tag cue_album)).
  apply (add_if_present_head _ "--set-tag=ARTIST" _ (artist_tag cue_album)).
  reflexivity.
Qed.

Lemma ffmpeg_free_tag_single_file (flac_file : string) (cue_album : CueAlbum)
    (disc_id track_id : nat) :
  ffmpeg_free (CueToFlacTagUtils.tag_single_file flac_file cue_album disc_id
                                                 track_id).
Proof.
  unfold CueToFlacTagUtils.tag_single_file. intros w. unfold bind, lift.
  destruct (CueToFlacTagUtils.tag_cmd flac_file cue_album disc_id track_id)
    as [cmd|] eqn:E.
  - exists [Exec cmd]. cbn [log snd trace existsb].
    rewrite (tag_cmd_not_ffmpeg _ _ _ _ _ E). auto.
  - exists []. cbn. rewrite app_nil_r. auto.
Qed.

Lemma ffmpeg_free_tag_each (fs : list string) (cue_album : CueAlbum)
    (disc_id : nat) :
  forall track_id,
    ffmpeg_free (CueToFlacTagUtils.tag_each fs cue_album disc_id track_id).
Proof.
  induction fs as [|f fs IH]; intros j; cbn [CueToFlacTagUtils.tag_each].
  - apply ffmpeg_free_ret.
  - apply ffmpeg_free_bind; [apply ffmpeg_free_tag_single_file|].
    intros _. apply IH.
Qed.

Lemma ffmpeg_free_tag_files (files_dir : string) (cue_album : CueAlbum)
    (disc_id : nat) :
  ffmpeg_free (CueToFlacTagUtils.tag_files files_dir cue_album disc_id).
Proof.
  unfold CueToFlacTagUtils.tag_files.
  apply ffmpeg_free_bind; [apply ffmpeg_free_listing|].
  intros l. apply ffmpeg_free_tag_each.
Qed.

Lemma ffmpeg_free_remove_each (temp_dir : string) (l : list dirent) :
  ffmpeg_free (CueConverter.remove_each temp_dir l).
Proof.
  induction l as [|e l IH]; cbn [CueConverter.remove_each].
  - apply ffmpeg_free_ret.
  - apply ffmpeg_free_bind; [apply ffmpeg_free_log; reflexivity|].
    intros _. apply IH.
Qed.

Lemma ffmpeg_free_remove_pregap_files (temp_dir : string) :
  ffmpeg_free (CueConverter.remove_pregap_files temp_dir).
Proof.
  unfold CueConverter.remove_pregap_files.
  apply ffmpeg_free_bind; [apply ffmpeg_free_listing|]. intros l.
  apply ffmpeg_free_bind; [apply ffmpeg_free_remove_each|]. intros _.
  apply ffmpeg_free_set_dir.
Qed.

Lemma ffmpeg_free_move_all (src_dir dest_dir : string) (names : list dirent) :
  ffmpeg_free (FileUtils.move_all src_dir dest_dir names).
Proof.
  induction names as [|e l IH]; cbn [FileUtils.move_all].
  - apply ffmpeg_free_ret.
  - apply ffmpeg_free_bind; [apply ffmpeg_free_log; reflexivity|].
    intros _. apply IH.
Qed.

Lemma ffmpeg_free_move_to_newdir (env : Env) (src_dir dest_dir : string) :
  ffmpeg_free (FileUtils.move_to_newdir env src_dir dest_dir).
Proof.
  unfold FileUtils.move_to_newdir.
  apply ffmpeg_free_bind.
  - apply ffmpeg_free_same_trace. reflexivity.
  - intros ex. destruct (ex && isfile env dest_dir); [apply ffmpeg_free_raise|].
    apply ffmpeg_free_bind.
    + destruct (negb ex); [apply ffmpeg_free_log; reflexivity
                          |apply ffmpeg_free_ret].
    + intros _. apply ffmpeg_free_bind; [apply ffmpeg_free_listdir|].
      intros names.
      apply ffmpeg_free_bind; [apply ffmpeg_free_move_all|]. intros _.
      apply ffmpeg_free_set_dir.
Qed.

Lemma ffmpeg_free_finally_block (env : Env) (temp_cue : string)
    (temp_dir : option string) :
  ffmpeg_free (CueConverter.finally_block env temp_cue temp_dir).
Proof.
  unfold CueConverter.finally_block.
  apply ffmpeg_free_bind; [apply ffmpeg_free_os_remove|]. intros _.
  destruct (negb (args_debug env)); [|apply ffmpeg_free_ret].
  destruct temp_dir; [apply ffmpeg_free_rmtree|apply ffmpeg_free_raise].
Qed.

Lemma ffmpeg_free_try_body (env : Env) (dest_dir : string)
    (cue_album : CueAlbum) (cue_disc_id : nat) (cue_disc : CueDisc)
    (temp_cue music_file_path temp_dir : string) (n : nat) :
  ffmpeg_free (CueConverter.try_body env dest_dir cue_album cue_disc_id
                 cue_disc temp_cue music_file_path temp_dir n).
Proof.
  unfold CueConverter.try_body, CueConverter.split_file_by_cue_sheet.
  apply ffmpeg_free_bind.
  - apply ffmpeg_free_bind; [apply ffmpeg_free_log; reflexivity|].
    intros _. apply ffmpeg_free_set_dir.
  - intros _. apply ffmpeg_free_bind; [apply ffmpeg_free_remove_pregap_files|].
    intros _. apply ffmpeg_free_bind; [apply ffmpeg_free_tag_files|].
    intros _. apply ffmpeg_free_bind; [apply ffmpeg_free_move_to_newdir|].
    intros _. apply ffmpeg_free_ret.
Qed.

Lemma ffmpeg_free_create_temp_cue_file (env : Env) (l : list string) :
  ffmpeg_free (CueConverter.create_temp_cue_file env l).
Proof.
  intros w. unfold CueConverter.create_temp_cue_file. cbn zeta.
  destruct (write_fault env (fresh w)).
  - exists []. cbn [snd trace]. rewrite app_nil_r. auto.
  - destruct (CueConverter.temp_cue_bytes (os_name env) l);
      eexists [_]; cbn [snd trace existsb is_ffmpeg orb];
      (split; reflexivity).
Qed.

Lemma ffmpeg_free_convert_disc (env : Env) (src_dir dest_dir : string)
    (cue_album : CueAlbum) (cue_disc_id : nat) (cue_disc : CueDisc)
    (n : nat) (temp_dir : option string) (w : World) :
  exists evs,
    trace (snd (CueConverter.convert_disc env src_dir dest_dir cue_album
                  cue_disc_id cue_disc n temp_dir w))
    = (trace w ++ evs)%list
    /\ existsb is_ffmpeg evs = false.
Proof.
  unfold CueConverter.convert_disc.
  destruct (ffmpeg_free_create_temp_cue_file env
              (header cue_album ++ cue_context cue_disc)%list w)
    as [e1 [T1 Q1]].
  destruct (CueConverter.create_temp_cue_file env
              (header cue_album ++ cue_context cue_disc)%list w)
    as [[temp_cue|e] w1]; cbn [snd] in T1; [|exists e1; auto].
  assert (H2 : exists e2,
    trace (snd (CueConverter.try_block env src_dir dest_dir cue_album
                  cue_disc_id cue_disc temp_cue n temp_dir w1))
    = (trace w1 ++ e2)%list /\ existsb is_ffmpeg e2 = false).
  { unfold CueConverter.try_block.
    destruct (music_file_name cue_disc) as [name|].
    - destruct (ffmpeg_free_mkdtemp env src_dir w1) as [ea [Ta Qa]].
      destruct (mkdtemp env src_dir w1) as [[d|e] wa]; cbn [snd] in Ta.
      + destruct (ffmpeg_free_try_body env dest_dir cue_album cue_disc_id
                    cue_disc temp_cue (Py.path_join src_dir name) d n wa)
          as [eb [Tb Qb]].
        destruct (CueConverter.try_body env dest_dir cue_album cue_disc_id
                    cue_disc temp_cue (Py.path_join src_dir name) d n wa)
          as [r wb].
        cbn [snd] in *. exists (ea ++ eb)%list.
        rewrite Tb, Ta, app_assoc, existsb_app, Qa, Qb. auto.
      + exists ea. auto.
    - exists []. cbn [snd]. rewrite app_nil_r. auto. }
  destruct H2 as [e2 [T2 Q2]].
  destruct (CueConverter.try_block env src_dir dest_dir cue_album cue_disc_id
              cue_disc temp_cue n temp_dir w1) as [[r td] w2].
  cbn [snd] in T2.
  destruct (ffmpeg_free_finally_block env temp_cue td w2) as [e3 [T3 Q3]].
  destruct (CueConverter.finally_block env temp_cue td w2) as [rf w3].
  cbn [snd] in T3.
  exists (e1 ++ e2 ++ e3)%list.
  assert (Q : existsb is_ffmpeg (e1 ++ e2 ++ e3) = false)
    by (rewrite !existsb_app, Q1, Q2, Q3; reflexivity).
  split; [|exact Q].
  destruct rf; cbn [snd]; rewrite T3, T2, T1, <- !app_assoc; reflexivity.
Qed.

Lemma ffmpeg_free_convert_loop (env : Env) (src_dir dest_dir : string)
    (cue_album : CueAlbum) (discs : list CueDisc) :
  forall id n td,
    ffmpeg_free (CueConverter.convert_loop env src_dir dest_dir cue_album
                   discs id n td).
Proof.
  induction discs as [|disc rest IH]; intros id n td w;
    cbn [CueConverter.convert_loop].
  - exists []. cbn [snd]. rewrite app_nil_r. auto.
  - destruct (ffmpeg_free_convert_disc env src_dir dest_dir cue_album id disc
                n td w) as [e1 [T1 Q1]].
    destruct (CueConverter.convert_disc env src_dir dest_dir cue_album id disc
                n td w) as [[r td'] w1].
    cbn [snd] in T1.
    destruct r as [n'|e]; [|exists e1; auto].
    destruct (IH (S id) n' td' w1) as [e2 [T2 Q2]].
    exists (e1 ++ e2)%list.
    rewrite T2, T1, app_assoc, existsb_app, Q1, Q2. auto.
Qed.

Lemma ffmpeg_free_readTextFile (env : Env) (text_file : string) :
  forall depth encoding,
    ffmpeg_free (FileUtils.readTextFile env depth text_file encoding).
Proof.
  induction depth as [|n IH]; intros encoding; cbn [FileUtils.readTextFile].
  - apply ffmpeg_free_raise.
  - apply ffmpeg_free_bind; [apply ffmpeg_free_log; reflexivity|]. intros _.
    destruct (FileUtils.other_failure env text_file encoding);
      [apply ffmpeg_free_raise|].
    destruct (read_decoded env text_file encoding); [apply ffmpeg_free_ret|].
    destruct (negb (String.eqb encoding "utf-8")); [apply ffmpeg_free_raise|].
    destruct (FileUtils.fallback_of env); [apply IH|apply ffmpeg_free_raise].
Qed.

Lemma ffmpeg_free_run (env : Env) (cue_file src_dir dest_dir : string) :
  ffmpeg_free (CueConverter.run env cue_file src_dir dest_dir).
Proof.
  unfold CueConverter.run.
  apply ffmpeg_free_bind; [apply ffmpeg_free_readTextFile|]. intros lines.
  apply ffmpeg_free_bind; [apply ffmpeg_free_lift|]. intros cue_album.
  apply ffmpeg_free_convert_loop.
Qed.

Lemma ffmpeg_free_convert_sheets (env : Env) (a : Converter.Args)
    (cue_files : list string) :
  ffmpeg_free (Converter.convert_sheets env a cue_files).
Proof.
  induction cue_files as [|c rest IH]; cbn [Converter.convert_sheets].
  - apply ffmpeg_free_ret.
  - apply ffmpeg_free_bind; [apply ffmpeg_free_run|]. intros _. exact IH.
Qed.

Lemma convert_after_prepare (env : Env) (a : Converter.Args) (w w1 : World)
    (d : dict) :
  prepare env a w = (Ok d, w1) ->
  Converter.convert env a w =
  (if FileUtils.hasExtension d "cue" && negb (Converter.ignore_cue_files a)
   then Converter.convert_sheets env a (dict_index d "cue")
   else Converter.convert_formats env a d Converter.SUPPORTED_SOURCE_FORMATS)
    w1.
Proof.
  unfold prepare, Converter.convert, bind. intros H.
  destruct ((if negb (args_debug env)
             then FileUtils.clean_up_old_dirs (Converter.src_dir a)
             else ret tt) w) as [[[]|e] w0]; [|discriminate].
  rewrite H. reflexivity.
Qed.

(** X17: when the scan finds a sheet and sheets are not ignored, no file is
    handed to [ffmpeg], whatever else the directories hold and however the
    run ends: the audio files that no sheet names are not converted. *)
Theorem with_a_sheet_no_file_is_converted_on_its_own (env : Env)
    (a : Converter.Args) (w w1 : World) (d : dict) :
  prepare env a w = (Ok d, w1) ->
  FileUtils.hasExtension d "cue" = true ->
  Converter.ignore_cue_files a = false ->
  existsb is_ffmpeg (new_events w1 (snd (Converter.convert env a w))) = false.
Proof.
  intros Hp Hc Hi. rewrite (convert_after_prepare _ _ _ _ _ Hp), Hc, Hi.
  cbn [negb andb].
  destruct (ffmpeg_free_convert_sheets env a (dict_index d "cue") w1)
    as [evs [T Q]].
  rewrite (new_events_app _ _ _ T). exact Q.
Qed.

Lemma with_a_sheet_no_file_is_converted_on_its_own_witness :
  let a := Converter.mkArgs "/m" "flac" false false in
  FileUtils.hasExtension
    (match fst (prepare (music_env true) a music_world) with
     | Ok d => d
     | Raise _ => []
     end) "wav" = true
  /\ existsb is_ffmpeg
       (new_events music_world
          (snd (Converter.convert (music_env true) a music_world))) = false.
Proof.
  cbv zeta. split; [vm_compute; reflexivity|].
  eapply (with_a_sheet_no_file_is_converted_on_its_own (music_env true)
            (Converter.mkArgs "/m" "flac" false false) music_world
            music_world).
  - vm_compute. reflexivity.
  - reflexivity.
  - reflexivity.
Defined.

Lemma execs_app (e1 e2 : list event) :
  execs (e1 ++ e2) = (execs e1 ++ execs e2)%list.
Proof.
  induction e1 as [|e l IH]; [reflexivity|].
  destruct e; cbn [app execs]; rewrite IH; reflexivity.
Qed.

Lemma convert_single_file_spec (env : Env) (src_file dest_dir : string)
    (w : World) :
  exists evs,
    Converter.convert_single_file env src_file dest_dir w
    = (Ok tt, add_trace w evs)
    /\ execs evs = [Converter.ffmpeg_cmd src_file dest_dir]
    /\ forallb plain_event evs = true.
Proof.
  unfold Converter.convert_single_file, bind, FileUtils.path_exists.
  destruct (negb (exists_ env dest_dir
                  || existsb (FileUtils.made dest_dir) (trace w))).
  - exists [Makedirs dest_dir; Exec (Converter.ffmpeg_cmd src_file dest_dir)].
    rewrite !log_add_trace, add_trace_add_trace. auto.
  - exists [Exec (Converter.ffmpeg_cmd src_file dest_dir)].
    unfold ret. rewrite log_add_trace. auto.
Qed.

Lemma convert_files_spec (env : Env) (a : Converter.Args) (fs : list string) :
  forall w,
  exists evs,
    Converter.convert_files env a fs w = (Ok tt, add_trace w evs)
    /\ execs evs =
       map (fun f => Converter.ffmpeg_cmd f
                       (Converter.get_dest_dir a (Path.dirname f))) fs
    /\ forallb plain_event evs = true.
Proof.
  induction fs as [|f fs IH]; intros w; cbn [Converter.convert_files].
  - exists []. rewrite add_trace_nil. auto.
  - destruct (convert_single_file_spec env f
                (Converter.get_dest_dir a (Path.dirname f)) w)
      as [e1 [R1 [X1 P1]]].
    destruct (IH (add_trace w e1)) as [e2 [R2 [X2 P2]]].
    exists (e1 ++ e2)%list. unfold bind. rewrite R1, R2, add_trace_add_trace.
    split; [reflexivity|].
    rewrite execs_app, forallb_app, X1, X2, P1, P2. auto.
Qed.

Lemma hasExtension_false_index (d : dict) (ext : string) :
  FileUtils.hasExtension d ext = false -> dict_index d ext = [].
Proof.
  unfold FileUtils.hasExtension, dict_index.
  destruct (dict_get d ext); [discriminate|reflexivity].
Qed.

Lemma convert_formats_spec (env : Env) (a : Converter.Args) (d : dict)
    (exts : list string) :
  forall w,
  exists evs,
    Converter.convert_formats env a d exts w = (Ok tt, add_trace w evs)
    /\ execs evs =
       map (fun f => Converter.ffmpeg_cmd f
                       (Converter.get_dest_dir a (Path.dirname f)))
           (flat_map (dict_index d) exts)
    /\ forallb plain_event evs = true.
Proof.
  induction exts as [|ext exts IH]; intros w; cbn [Converter.convert_formats].
  - exists []. rewrite add_trace_nil. auto.
  - assert (H1 : exists e1,
      (if FileUtils.hasExtension d ext
       then Converter.convert_files env a (dict_index d ext)
       else ret tt) w = (Ok tt, add_trace w e1)
      /\ execs e1 =
         map (fun f => Converter.ffmpeg_cmd f
                         (Converter.get_dest_dir a (Path.dirname f)))
             (dict_index d ext)
      /\ forallb plain_event e1 = true).
    { destruct (FileUtils.hasExtension d ext) eqn:E.
      - apply convert_files_spec.
      - exists []. rewrite add_trace_nil, (hasExtension_false_index _ _ E).
        auto. }
    destruct H1 as [e1 [R1 [X1 P1]]].
    destruct (IH (add_trace w e1)) as [e2 [R2 [X2 P2]]].
    exists (e1 ++ e2)%list. unfold bind. rewrite R1, R2, add_trace_add_trace.
    split; [reflexivity|].
    cbn [flat_map].
    rewrite execs_app, forallb_app, map_app, X1, X2, P1, P2. auto.
Qed.

Lemma new_events_add_trace (w : World) (evs : list event) :
  new_events w (add_trace w evs) = evs.
Proof. apply new_events_app. reflexivity. Qed.

(** X18: when the scan finds no sheet, or sheets are ignored, the run
    returns, and it hands to [ffmpeg] every file of the four supported
    formats once: first the [m4a] files, then [wav], [ape] and [wv], each
    format in the order of the scan.  It does nothing else but make
    destination directories: no sheet is read, and no file of another
    format is converted. *)
Theorem without_a_sheet_each_supported_file_goes_to_ffmpeg (env : Env)
    (a : Converter.Args) (w w1 : World) (d : dict) :
  prepare env a w = (Ok d, w1) ->
  FileUtils.hasExtension d "cue" && negb (Converter.ignore_cue_files a)
  = false ->
  exists w2,
    Converter.convert env a w = (Ok tt, w2)
    /\ execs (new_events w1 w2) =
       map (fun f => Converter.ffmpeg_cmd f
                       (Converter.get_dest_dir a (Path.dirname f)))
           (supported_files d)
    /\ forallb plain_event (new_events w1 w2) = true
    /\ files w2 = files w1 /\ dirs w2 = dirs w1.
Proof.
  intros Hp Hc. rewrite (convert_after_prepare _ _ _ _ _ Hp), Hc.
  destruct (convert_formats_spec env a d Converter.SUPPORTED_SOURCE_FORMATS w1)
    as [evs [R [X P]]].
  exists (add_trace w1 evs). rewrite new_events_add_trace.
  split; [exact R|]. split; [exact X|]. split; [exact P|].
  split; reflexivity.
Qed.

Lemma without_a_sheet_each_supported_file_goes_to_ffmpeg_witness :
  let a := Converter.mkArgs "/m" "flac" true false in
  exists w2,
    Converter.convert (music_env true) a music_world = (Ok tt, w2)
    /\ execs (new_events music_world w2)
       = [["ffmpeg"; "-i"; "/m/a.wav"; "/m/flac/a.flac"];
          ["ffmpeg"; "-i"; "/m/sub/c.Wav"; "/m/sub/flac/c.flac"];
          ["ffmpeg"; "-i"; "/m/sub/b.ape"; "/m/sub/flac/b.flac"]].
Proof.
  cbv zeta.
  edestruct (without_a_sheet_each_supported_file_goes_to_ffmpeg
               (music_env true) (Converter.mkArgs "/m" "flac" true false)
               music_world music_world)
    as [w2 [R [X _]]].
  - vm_compute. reflexivity.
  - reflexivity.
  - exists w2. split; [exact R|]. rewrite X. vm_compute. reflexivity.
Defined.

(** X19: a sheet that cannot be decoded, with no fallback encoding given,
    ends the whole run with the error that asks for one: the sheets that
    the scan found after it are not opened. *)
Theorem an_unreadable_sheet_ends_the_run (env : Env) (a : Converter.Args)
    (w w1 : World) (d : dict) (cue_file : string) (later : list string) :
  prepare env a w = (Ok d, w1) ->
  dict_get d "cue" = Some (cue_file :: later) ->
  Converter.ignore_cue_files a = false ->
  recursionlimit env <> 0 ->
  read_decoded env cue_file "utf-8" = None ->
  FileUtils.fallback_of env = None ->
  Converter.convert env a w
  = (Raise (FileUtils.no_fallback cue_file),
     add_trace w1 [Decode cue_file "utf-8"]).
Proof.
  intros Hp Hd Hi Hn Hr Hf. rewrite (convert_after_prepare _ _ _ _ _ Hp).
  unfold FileUtils.hasExtension, dict_index. rewrite Hd, Hi.
  cbn [negb andb Converter.convert_sheets].
  unfold bind at 1, CueConverter.run. unfold bind at 1.
  destruct (recursionlimit env) as [|n]; [congruence|].
  cbn [FileUtils.readTextFile]. unfold bind at 1.
  rewrite log_add_trace, Hr.
  replace (negb ("utf-8" =? "utf-8")%string) with false by reflexivity.
  rewrite Hf. reflexivity.
Qed.

Lemma an_unreadable_sheet_ends_the_run_witness :
  let a := Converter.mkArgs "/m" "flac" false false in
  Converter.convert (music_env true) a music_world
  = (Raise (FileUtils.no_fallback "/m/a.CUE"),
     add_trace music_world [Decode "/m/a.CUE" "utf-8"]).
Proof.
  cbv zeta.
  eapply (an_unreadable_sheet_ends_the_run (music_env true)
            (Converter.mkArgs "/m" "flac" false false) music_world
            music_world _ "/m/a.CUE" []).
  - vm_compute. reflexivity.
  - reflexivity.
  - reflexivity.
  - discriminate.
  - reflexivity.
  - reflexivity.
Defined.
